(** * Duplicate detection and cleanup of sandwich collections

    A shallow embedding of the duplicate analysis and deletion handlers of
    [server/routes/collections.ts]:

    - [DELETE /api/sandwich-collections/bulk]
    - [DELETE /api/sandwich-collections/batch-delete]
    - [GET    /api/sandwich-collections/analyze-duplicates]
    - [DELETE /api/sandwich-collections/clean-duplicates]

    and of the handlers around them in the same file: the page of
    [GET /api/sandwich-collections], [DELETE /api/sandwich-collections/:id],
    [PATCH /api/sandwich-collections/batch-edit],
    [POST /api/import-collections], [GET /api/collections-by-host/:hostName],
    [GET /api/collection-stats] and [GET /api/host-mapping-stats].

    JavaScript strings are sequences of code units; this development keeps
    the code units below 256 (Rocq's [ascii]).  JavaScript numbers that hold
    integers (ids, counts, time values in milliseconds) are [Z]; [NaN] is
    [None] wherever the code can produce it. *)

From Stdlib Require Import ZArith List String Ascii Bool Lia.
From Stdlib Require Import Permutation Sorted DecimalString DecimalPos DecimalZ.
Import ListNotations.

Local Open Scope string_scope.
Local Open Scope list_scope.
Local Open Scope Z_scope.

(** ** The JavaScript built-ins the handlers call *)

Module JS.

(** [String.prototype.startsWith]. *)
Definition startsWith (s prefix : string) : bool := String.prefix prefix s.

(** [String.prototype.includes]. *)
Fixpoint includes (s sub : string) : bool :=
  String.prefix sub s ||
  match s with
  | EmptyString => false
  | String _ s' => includes s' sub
  end.

(** One code unit of [String.prototype.toLowerCase]: [A-Z] and the
    upper-case letters of the Latin-1 block (all of U+00C0..U+00DE but
    the multiplication sign U+00D7) move up by 32. *)
Definition lowerChar (c : ascii) : ascii :=
  let n := N_of_ascii c in
  if ((65 <=? n) && (n <=? 90) ||
      (192 <=? n) && (n <=? 222) && negb (n =? 215))%N
  then ascii_of_N (n + 32)
  else c.

Fixpoint toLowerCase (s : string) : string :=
  match s with
  | EmptyString => EmptyString
  | String c s' => String (lowerChar c) (toLowerCase s')
  end.

(** White space as [String.prototype.trim] sees it, below 256: TAB, LF,
    VT, FF, CR, SPACE and NBSP. *)
Definition isWhiteSpace (c : ascii) : bool :=
  let n := N_of_ascii c in
  ((9 <=? n) && (n <=? 13) || (n =? 32) || (n =? 160))%N.

Fixpoint trimStart (s : string) : string :=
  match s with
  | EmptyString => EmptyString
  | String c s' => if isWhiteSpace c then trimStart s' else s
  end.

Fixpoint trimEnd (s : string) : string :=
  match s with
  | EmptyString => EmptyString
  | String c s' =>
      match trimEnd s' with
      | EmptyString => if isWhiteSpace c then EmptyString else String c EmptyString
      | t => String c t
      end
  end.

Definition trim (s : string) : string := trimEnd (trimStart s).

(** The class [\d] of a regular expression without the [u] flag. *)
Definition isDigit (c : ascii) : bool :=
  let n := N_of_ascii c in ((48 <=? n) && (n <=? 57))%N.

Fixpoint allDigits (s : string) : bool :=
  match s with
  | EmptyString => true
  | String c s' => isDigit c && allDigits s'
  end.

(** What is left of [s] behind a literal prefix, for the anchored
    regular expressions below. *)
Fixpoint afterPrefix (prefix s : string) : option string :=
  match prefix with
  | EmptyString => Some s
  | String p prefix' =>
      match s with
      | EmptyString => None
      | String c s' => if Ascii.eqb p c then afterPrefix prefix' s' else None
      end
  end.

(** [ToString] of a number holding an integer, as a template literal
    applies it: the decimal digits, which is what the engine prints for
    integers below 10^21 in absolute value (it prints larger numbers with
    an exponent). *)
Definition numberToString (n : Z) : string :=
  NilZero.string_of_int (Z.to_int n).

Definition natToString (n : nat) : string := numberToString (Z.of_nat n).

(** *** [Array.prototype.sort]

    The comparator returns a number or [NaN] ([None]).  [SortCompare]
    reads [NaN] as [+0].  The sort is stable; it is modelled as the
    stable insertion sort.  Every stable sort returns the same array
    when the comparator is a consistent ordering of the elements, which
    is the only case in which ECMAScript fixes the result.  The
    comparators by id are consistent.  The comparator by time stamp is
    consistent on a group whose time stamps all parse and on a group in
    which every comparison is a tie; on a group that mixes a time stamp
    that does not parse with two or more distinct ones it is not, and the
    order the engine returns there is its own.  The theorems below name a
    position after the sort only in the consistent cases; elsewhere they
    use no more than that the sort returns a permutation of its
    argument. *)
Section Sort.
Context {A : Type}.
Variable comparefn : A -> A -> option Z.

Definition SortCompare (x y : A) : Z :=
  match comparefn x y with
  | None => 0
  | Some v => v
  end.

Fixpoint insert (x : A) (l : list A) : list A :=
  match l with
  | [] => [x]
  | y :: l' => if SortCompare x y <=? 0 then x :: l else y :: insert x l'
  end.

Fixpoint sort (l : list A) : list A :=
  match l with
  | [] => []
  | x :: l' => insert x (sort l')
  end.
End Sort.

(** [Array.prototype.slice(1)]. *)
Definition slice1 {A : Type} (l : list A) : list A := tl l.

(** [Array.prototype.slice(0, n)]. *)
Definition slice0 {A : Type} (n : nat) (l : list A) : list A := firstn n l.

End JS.

(** ** Data model *)

(** A row of the sandwich collections table as the handlers read it.
    [hostName] is [None] when the value is [null].  [submittedAt] holds
    what [new Date(c.submittedAt).getTime()] evaluates to: the time value
    in milliseconds, or [None] for [NaN] when the value does not denote a
    date. *)
Record CollectionRecord : Type := {
  id : Z;
  hostName : option string;
  collectionDate : string;
  individualSandwiches : Z;
  groupCollections : string;
  submittedAt : option Z
}.

(** A value thrown by a storage call: an [Error] with its message, or
    anything else. *)
Inductive Thrown : Type :=
| ErrorObject (message : string)
| OtherValue.

(** How [await storage.deleteSandwichCollection(id)] ends. *)
Inductive DeleteResult : Type :=
| Returned (deleted : bool)
| Threw (error : Thrown).

(** What a handler sends: [res.json(body)] or [res.status(code).json({message})]. *)
Inductive Reply (A : Type) : Type :=
| Ok (body : A)
| Failed (status : Z) (message : string).
Arguments Ok {A} body.
Arguments Failed {A} status message.

(** ** The [Map] from a string key to an array, in insertion order *)

Section KeyedGroups.
Context {V : Type}.

Definition GroupMap : Type := list (string * list V).

Fixpoint mapHas (key : string) (m : GroupMap) : bool :=
  match m with
  | [] => false
  | (k, _) :: m' => String.eqb key k || mapHas key m'
  end.

Fixpoint mapGet (key : string) (m : GroupMap) : option (list V) :=
  match m with
  | [] => None
  | (k, vs) :: m' => if String.eqb key k then Some vs else mapGet key m'
  end.

(** [if (!m.has(key)) m.set(key, []); m.get(key).push(v)]. *)
Fixpoint mapPush (key : string) (v : V) (m : GroupMap) : GroupMap :=
  match m with
  | [] => [(key, [v])]
  | (k, vs) :: m' =>
      if String.eqb key k then (k, vs ++ [v]) :: m'
      else (k, vs) :: mapPush key v m'
  end.

Definition mapValues (m : GroupMap) : list (list V) := map snd m.

(** [items.forEach(x => { push x under keyOf(x) })] on a fresh map. *)
Definition groupBy (keyOf : V -> string) (items : list V) : GroupMap :=
  fold_left (fun m x => mapPush (keyOf x) x m) items [].
End KeyedGroups.
Arguments GroupMap V : clear implicits.

(** ** Keys, comparators and classifiers *)

(** A template literal prints [null] as the four letters. *)
Definition templateHost (h : option string) : string :=
  match h with
  | Some s => s
  | None => "null"
  end.

(** [`${c.collectionDate}-${c.hostName}-${c.individualSandwiches}-${c.groupCollections}`] *)
Definition duplicateKey (c : CollectionRecord) : string :=
  collectionDate c ++ "-" ++ templateHost (hostName c) ++ "-" ++
  JS.numberToString (individualSandwiches c) ++ "-" ++ groupCollections c.

(** [`${og.collectionDate}-${og.individualSandwiches}`] *)
Definition ogKey (c : CollectionRecord) : string :=
  collectionDate c ++ "-" ++ JS.numberToString (individualSandwiches c).

(** [(a, b) => new Date(b.submittedAt).getTime() - new Date(a.submittedAt).getTime()].
    Time values lie within 8.64e15 of zero, so the sign of the floating
    point difference is the sign of the integer difference. *)
Definition bySubmittedAtDesc (a b : CollectionRecord) : option Z :=
  match submittedAt b, submittedAt a with
  | Some tb, Some ta => Some (tb - ta)
  | _, _ => None
  end.

(** [(a, b) => b.id - a.id] *)
Definition byIdDesc (a b : CollectionRecord) : option Z := Some (id b - id a).

(** [(a, b) => b - a] *)
Definition byNumberDesc (a b : Z) : option Z := Some (b - a).

(** [/^group \d-\d$/] *)
Definition matchGroupDigitDashDigit (s : string) : bool :=
  match JS.afterPrefix "group " s with
  | Some (String a (String "-" (String b EmptyString))) =>
      JS.isDigit a && JS.isDigit b
  | _ => false
  end.

(** [/^group \d+$/] *)
Definition matchGroupDigits (s : string) : bool :=
  match JS.afterPrefix "group " s with
  | Some (String a rest) => JS.isDigit a && JS.allDigits rest
  | _ => false
  end.

(** [/^Group [1-8]/] *)
Definition matchGroup1to8 (s : string) : bool :=
  match JS.afterPrefix "Group " s with
  | Some (String a _) => let n := N_of_ascii a in ((49 <=? n) && (n <=? 56))%N
  | _ => false
  end.

(** The test of analyze-duplicates on a host name that is a string. *)
Definition suspiciousHost (name : string) : bool :=
  let hostName := JS.toLowerCase name in
  JS.startsWith hostName "loc " ||
  matchGroupDigitDashDigit hostName ||
  JS.includes hostName "test" ||
  JS.includes hostName "duplicate".

(** The test of clean-duplicates in suspicious mode. *)
Definition suspiciousHostBroad (name : string) : bool :=
  let hostName := JS.toLowerCase name in
  JS.startsWith hostName "loc " ||
  matchGroupDigitDashDigit hostName ||
  matchGroupDigits hostName ||
  JS.includes hostName "test" ||
  JS.includes hostName "duplicate".

(** The test of the bulk delete. *)
Definition bulkHost (hostName : string) : bool :=
  JS.startsWith hostName "Loc " || matchGroup1to8 hostName.

(** A test applied to [collection.hostName]: calling a string method on
    [null] throws a [TypeError] ([None]). *)
Definition onHostName (test : string -> bool) (c : CollectionRecord) : option bool :=
  match hostName c with
  | Some name => Some (test name)
  | None => None
  end.

(** [items.filter(callback)] with a callback that may throw. *)
Fixpoint filterThrowing {A : Type} (callback : A -> option bool) (items : list A)
  : option (list A) :=
  match items with
  | [] => Some []
  | x :: items' =>
      match callback x with
      | None => None
      | Some keep =>
          match filterThrowing callback items' with
          | None => None
          | Some kept => Some (if keep then x :: kept else kept)
          end
      end
  end.

(** [c.hostName === "OG Sandwich Project"] *)
Definition isOgCollection (c : CollectionRecord) : bool :=
  match hostName c with
  | Some name => String.eqb name "OG Sandwich Project"
  | None => false
  end.

(** The filter that selects [earlyCollections]; the comparison with
    [null] comes before any method call. *)
Definition isEarlyCollection (c : CollectionRecord) : bool :=
  negb (isOgCollection c) &&
  match hostName c with
  | None => true
  | Some name =>
      String.eqb name "" ||
      String.eqb (JS.trim name) "" ||
      JS.includes (JS.toLowerCase name) "unknown" ||
      JS.includes (JS.toLowerCase name) "no location"
  end.

(** ** Response bodies *)

(** One element of [duplicates] in the analysis. *)
Record DuplicateGroup : Type := {
  entries : list CollectionRecord;
  count : nat;
  keepNewest : option CollectionRecord;
  toDelete : list CollectionRecord
}.

(** One element of [ogDuplicateEntries]; [ogEntry] is an array element
    read by index, [None] when [undefined]. *)
Inductive OgDuplicate : Type :=
| OgEarlyMatch (ogEntry : option CollectionRecord) (earlyEntry : CollectionRecord)
               (reason : string)
| OgOgMatch (ogEntry : option CollectionRecord) (duplicateOgEntry : CollectionRecord)
            (reason : string).

Module Analysis.
Record t : Type := {
  totalCollections : nat;
  duplicateGroups : nat;
  totalDuplicateEntries : nat;
  suspiciousPatterns : nat;
  ogDuplicates : nat;
  duplicates : list DuplicateGroup;
  suspiciousEntries : list CollectionRecord;
  ogDuplicateEntries : list OgDuplicate
}.
End Analysis.

Module Cleaned.
Record t : Type := {
  message : string;
  deletedCount : nat;
  totalFound : nat;
  errors : option (list string);
  mode : string
}.
End Cleaned.

Module Bulk.
Record t : Type := {
  message : string;
  deletedCount : nat;
  patterns : list string
}.
End Bulk.

Module Batch.
Record t : Type := {
  message : string;
  deletedCount : nat;
  totalRequested : nat;
  errors : option (list string)
}.
End Batch.

(** [error instanceof Error ? error.message : "Unknown error"] *)
Definition errorMessage (error : Thrown) : string :=
  match error with
  | ErrorObject message => message
  | OtherValue => "Unknown error"
  end.

(** [errors.length > 0 ? errors.slice(0, 5) : undefined] *)
Definition surfacedErrors (errors : list string) : option (list string) :=
  if (0 <? List.length errors)%nat then Some (JS.slice0 5 errors) else None.

(** ** The analysis of duplicates *)

(** The body of the first [forEach] of analyze-duplicates: the collection
    is pushed under its key, then its host name is lower-cased, which
    throws on [null]; [None] is the loop left by that exception. *)
Definition scanStep
           (acc : option (GroupMap CollectionRecord * list CollectionRecord))
           (collection : CollectionRecord)
  : option (GroupMap CollectionRecord * list CollectionRecord) :=
  match acc with
  | None => None
  | Some (duplicateGroups, suspiciousPatterns) =>
      let duplicateGroups := mapPush (duplicateKey collection) collection duplicateGroups in
      match onHostName suspiciousHost collection with
      | None => None
      | Some true => Some (duplicateGroups, suspiciousPatterns ++ [collection])
      | Some false => Some (duplicateGroups, suspiciousPatterns)
      end
  end.

Definition scanCollections (collections : list CollectionRecord)
  : option (GroupMap CollectionRecord * list CollectionRecord) :=
  fold_left scanStep collections (Some ([], [])).

(** The OG block of analyze-duplicates: early entries paired with the
    first OG entry stored under their key, then the OG entries that share
    a key among themselves.  [ogMap.has(key)] holds exactly when
    [ogMap.get(key)] is an array. *)
Definition ogMatches (collections : list CollectionRecord) : list OgDuplicate :=
  let ogCollections := filter isOgCollection collections in
  let earlyCollections := filter isEarlyCollection collections in
  let ogMap := groupBy ogKey ogCollections in
  let withEarly :=
    flat_map
      (fun early =>
         match mapGet (ogKey early) ogMap with
         | Some ogEntries =>
             [OgEarlyMatch (hd_error ogEntries) early
                "Same date and sandwich count as OG Project entry"]
         | None => []
         end)
      earlyCollections in
  let amongOg :=
    flat_map
      (fun ogGroup =>
         if (1 <? List.length ogGroup)%nat then
           let sorted := JS.sort bySubmittedAtDesc ogGroup in
           map (fun duplicate => OgOgMatch (hd_error sorted) duplicate
                                   "Duplicate OG Project entry")
               (JS.slice1 sorted)
         else [])
      (mapValues ogMap) in
  withEarly ++ amongOg.

(** One duplicate group of the report.  [group.sort] sorts the array in
    place before [group.slice(1)] is taken, and [entries] is that same
    array. *)
Definition duplicateReport (group : list CollectionRecord) : DuplicateGroup :=
  let sorted := JS.sort bySubmittedAtDesc group in
  {| entries := sorted;
     count := List.length group;
     keepNewest := hd_error sorted;
     toDelete := JS.slice1 sorted |}.

(** The groups with more than one entry, reported. *)
Definition reportDuplicates (duplicateGroups : GroupMap CollectionRecord)
  : list DuplicateGroup :=
  map duplicateReport
      (filter (fun group => (1 <? List.length group)%nat) (mapValues duplicateGroups)).

(** [GET /api/sandwich-collections/analyze-duplicates] on the snapshot
    the store returned. *)
Definition analyzeDuplicates (collections : list CollectionRecord)
  : Reply Analysis.t :=
  match scanCollections collections with
  | None => Failed 500 "Failed to analyze duplicates"
  | Some (duplicateGroups, suspiciousPatterns) =>
      let ogDuplicates := ogMatches collections in
      let duplicates := reportDuplicates duplicateGroups in
      Ok {| Analysis.totalCollections := List.length collections;
            Analysis.duplicateGroups := List.length duplicates;
            Analysis.totalDuplicateEntries :=
              fold_left (fun sum group => (sum + List.length (toDelete group))%nat)
                        duplicates 0%nat;
            Analysis.suspiciousPatterns := List.length suspiciousPatterns;
            Analysis.ogDuplicates := List.length ogDuplicates;
            Analysis.duplicates := duplicates;
            Analysis.suspiciousEntries := suspiciousPatterns;
            Analysis.ogDuplicateEntries := ogDuplicates |}
  end.

(** ** The deletion handlers *)

(** The candidates of clean-duplicates in exact mode: of every group with
    more than one entry, all but the first after the sort, group after
    group in the order of the map. *)
Definition exactCandidates (collections : list CollectionRecord)
  : list CollectionRecord :=
  flat_map
    (fun group =>
       if (1 <? List.length group)%nat
       then JS.slice1 (JS.sort bySubmittedAtDesc group)
       else [])
    (mapValues (groupBy duplicateKey collections)).

(** The mode dispatch of clean-duplicates; [None] when the suspicious
    filter throws. *)
Definition candidatesFor (mode : string) (collections : list CollectionRecord)
  : option (list CollectionRecord) :=
  if String.eqb mode "exact" then Some (exactCandidates collections)
  else if String.eqb mode "suspicious"
       then filterThrowing (onHostName suspiciousHostBroad) collections
       else Some [].

Section Routes.
(** The record store behind [storage]: a state, the snapshot it serves
    and the effect of one delete call. *)
Context {Store : Type}.
Variable getAllSandwichCollections : Store -> list CollectionRecord.
Variable deleteSandwichCollection : Z -> Store -> DeleteResult * Store.

(** The loop of clean-duplicates over [sortedCollections].  An id is a
    number, so [isNaN(Number(collection.id))] is false and the guard
    before the delete call is passed. *)
Fixpoint cleanLoop (sortedCollections : list CollectionRecord)
         (deletedCount : nat) (errors : list string) (store : Store)
  : nat * list string * Store :=
  match sortedCollections with
  | [] => (deletedCount, errors, store)
  | collection :: rest =>
      match deleteSandwichCollection (id collection) store with
      | (Returned deleted, store') =>
          cleanLoop rest (if deleted then S deletedCount else deletedCount)
                    errors store'
      | (Threw error, store') =>
          cleanLoop rest deletedCount
                    (errors ++ [("Failed to delete collection " ++
                                 JS.numberToString (id collection) ++ ": " ++
                                 errorMessage error)%string])
                    store'
      end
  end.

(** [DELETE /api/sandwich-collections/clean-duplicates]; [bodyMode] is
    [req.body.mode], [None] when absent. *)
Definition cleanDuplicates (bodyMode : option string) (store : Store)
  : Reply Cleaned.t * Store :=
  let mode := match bodyMode with Some m => m | None => "exact" end in
  let collections := getAllSandwichCollections store in
  match candidatesFor mode collections with
  | None => (Failed 500 "Failed to clean duplicate entries", store)
  | Some collectionsToDelete =>
      let sortedCollections := JS.sort byIdDesc collectionsToDelete in
      let '(deletedCount, errors, store') :=
        cleanLoop sortedCollections 0%nat [] store in
      (Ok {| Cleaned.message :=
               "Successfully cleaned " ++ JS.natToString deletedCount ++
               " duplicate entries using " ++ mode ++ " mode";
             Cleaned.deletedCount := deletedCount;
             Cleaned.totalFound := List.length collectionsToDelete;
             Cleaned.errors := surfacedErrors errors;
             Cleaned.mode := mode |},
       store')
  end.

(** The loop of the bulk delete: a thrown error is logged and dropped. *)
Fixpoint bulkLoop (sortedCollections : list CollectionRecord)
         (deletedCount : nat) (store : Store) : nat * Store :=
  match sortedCollections with
  | [] => (deletedCount, store)
  | collection :: rest =>
      match deleteSandwichCollection (id collection) store with
      | (Returned deleted, store') =>
          bulkLoop rest (if deleted then S deletedCount else deletedCount) store'
      | (Threw _, store') => bulkLoop rest deletedCount store'
      end
  end.

(** [DELETE /api/sandwich-collections/bulk] *)
Definition bulkDelete (store : Store) : Reply Bulk.t * Store :=
  let collections := getAllSandwichCollections store in
  match filterThrowing (onHostName bulkHost) collections with
  | None => (Failed 500 "Failed to delete duplicate entries", store)
  | Some collectionsToDelete =>
      let sortedCollections := JS.sort byIdDesc collectionsToDelete in
      let '(deletedCount, store') := bulkLoop sortedCollections 0%nat store in
      (Ok {| Bulk.message :=
               "Successfully deleted " ++ JS.natToString deletedCount ++
               " duplicate entries";
             Bulk.deletedCount := deletedCount;
             Bulk.patterns := ["Loc *"; "Group 1-8"] |},
       store')
  end.

(** The loop of batch-delete: not found and thrown both add a message. *)
Fixpoint batchLoop (sortedIds : list Z) (deletedCount : nat)
         (errors : list string) (store : Store) : nat * list string * Store :=
  match sortedIds with
  | [] => (deletedCount, errors, store)
  | i :: rest =>
      match deleteSandwichCollection i store with
      | (Returned true, store') => batchLoop rest (S deletedCount) errors store'
      | (Returned false, store') =>
          batchLoop rest deletedCount
                    (errors ++ [("Collection with ID " ++ JS.numberToString i ++
                                 " not found")%string])
                    store'
      | (Threw error, store') =>
          batchLoop rest deletedCount
                    (errors ++ [("Failed to delete collection " ++
                                 JS.numberToString i ++ ": " ++
                                 errorMessage error)%string])
                    store'
      end
  end.

(** [DELETE /api/sandwich-collections/batch-delete]; [bodyIds] is
    [req.body.ids] when it is an array of numbers, [None] otherwise. *)
Definition batchDelete (bodyIds : option (list Z)) (store : Store)
  : Reply Batch.t * Store :=
  match bodyIds with
  | None | Some [] => (Failed 400 "Invalid or empty IDs array", store)
  | Some ids =>
      let sortedIds := JS.sort byNumberDesc ids in
      let '(deletedCount, errors, store') := batchLoop sortedIds 0%nat [] store in
      (Ok {| Batch.message :=
               "Successfully deleted " ++ JS.natToString deletedCount ++ " of " ++
               JS.natToString (List.length ids) ++ " collections";
             Batch.deletedCount := deletedCount;
             Batch.totalRequested := List.length ids;
             Batch.errors := surfacedErrors errors |},
       store')
  end.

(** The delete calls a loop issues, one after the other on the evolving
    store: the results in call order and the store they leave. *)
Fixpoint deleteAll (ids : list Z) (store : Store) : list DeleteResult * Store :=
  match ids with
  | [] => ([], store)
  | i :: rest =>
      let '(result, store') := deleteSandwichCollection i store in
      let '(results, store'') := deleteAll rest store' in
      (result :: results, store'')
  end.
End Routes.

(** ** Two stores to run the handlers on *)

(** Modelled from the spec: the record store behind [storage]
    ([../storage-wrapper] is not part of the sources).  The store holds the
    rows; [getAllSandwichCollections] serves them all, and
    [deleteSandwichCollection(id)] removes the row with that id and tells
    whether there was one. *)
Module TableStore.
Definition t : Type := list CollectionRecord.

Definition getAllSandwichCollections (table : t) : list CollectionRecord := table.

Definition deleteSandwichCollection (i : Z) (table : t) : DeleteResult * t :=
  (Returned (existsb (fun c => id c =? i) table),
   filter (fun c => negb (id c =? i)) table).
End TableStore.

(** A store double as a test would inject it: the snapshot and the answer
    to each delete are fixed in advance, and the state is the log of the
    ids whose deletion was requested, oldest first. *)
Module ScriptedStore.
Definition t : Type := list Z.

Definition getAllSandwichCollections (snapshot : list CollectionRecord) (_ : t)
  : list CollectionRecord := snapshot.

Definition deleteSandwichCollection (answer : Z -> DeleteResult) (i : Z) (log : t)
  : DeleteResult * t := (answer i, log ++ [i]).
End ScriptedStore.

(** ** Reading a run of delete calls *)

Definition wasDeleted (result : DeleteResult) : bool :=
  match result with
  | Returned true => true
  | _ => false
  end.

Definition hasThrown (result : DeleteResult) : bool :=
  match result with
  | Threw _ => true
  | Returned _ => false
  end.

Definition countDeleted (results : list DeleteResult) : nat :=
  List.length (filter wasDeleted results).

Definition countThrown (results : list DeleteResult) : nat :=
  List.length (filter hasThrown results).

(** The messages clean-duplicates collects for a run: one per call that
    threw. *)
Definition cleanMessage (i : Z) (result : DeleteResult) : list string :=
  match result with
  | Threw error =>
      [("Failed to delete collection " ++ JS.numberToString i ++ ": " ++
        errorMessage error)%string]
  | Returned _ => []
  end.

Definition cleanMessages (ids : list Z) (results : list DeleteResult) : list string :=
  flat_map (fun call => cleanMessage (fst call) (snd call)) (combine ids results).

(** The messages batch-delete collects for a run: one per call that threw
    or found nothing. *)
Definition batchMessage (i : Z) (result : DeleteResult) : list string :=
  match result with
  | Returned true => []
  | Returned false =>
      [("Collection with ID " ++ JS.numberToString i ++ " not found")%string]
  | Threw error =>
      [("Failed to delete collection " ++ JS.numberToString i ++ ": " ++
        errorMessage error)%string]
  end.

Definition batchMessages (ids : list Z) (results : list DeleteResult) : list string :=
  flat_map (fun call => batchMessage (fst call) (snd call)) (combine ids results).

(** The rows an exact cleanup leaves when all its deletes succeed: the
    head of every sorted group.  The proofs count with it; which row of a
    group is its head is stated only for the groups on which the
    comparator is consistent. *)
Definition keptOf (collections : list CollectionRecord) : list CollectionRecord :=
  flat_map (fun group => firstn 1 (JS.sort bySubmittedAtDesc group))
           (mapValues (groupBy duplicateKey collections)).

(** The host name test of a handler on a row, [false] on [null]. *)
Definition hostSatisfies (test : string -> bool) (c : CollectionRecord) : bool :=
  match hostName c with
  | Some name => test name
  | None => false
  end.

(** Every row carries a string as host name. *)
Definition hostsPresent (collections : list CollectionRecord) : Prop :=
  forall c, In c collections -> hostName c <> None.

(** ** Rows used in the examples *)

Module Sample.
Definition row (i : Z) (host : option string) (date : string) (n : Z)
           (groups : string) (submitted : option Z) : CollectionRecord :=
  {| id := i; hostName := host; collectionDate := date;
     individualSandwiches := n; groupCollections := groups;
     submittedAt := submitted |}.

(** Two rows that differ in host, count and group text. *)
Definition north : CollectionRecord :=
  row 1 (Some "North") "2024-01-01" 5 "7-Eleven: 5" (Some 1704103200000).
Definition north5 : CollectionRecord :=
  row 2 (Some "North-5") "2024-01-01" 7 "Eleven: 5" (Some 1704106800000).

(** Two copies of one entry, the first without a readable time stamp. *)
Definition undated : CollectionRecord :=
  row 21 (Some "Central") "2024-03-01" 30 "[]" None.
Definition dated : CollectionRecord :=
  row 22 (Some "Central") "2024-03-01" 30 "[]" (Some 1709287200000).

(** Two copies of one entry submitted in the same millisecond. *)
Definition twinA : CollectionRecord :=
  row 23 (Some "East") "2024-03-02" 12 "[]" (Some 1709373600000).
Definition twinB : CollectionRecord :=
  row 24 (Some "East") "2024-03-02" 12 "[]" (Some 1709373600000).

(** Three copies of one entry with distinct time stamps. *)
Definition west1 : CollectionRecord :=
  row 25 (Some "West") "2024-03-03" 8 "[]" (Some 1709460000000).
Definition west2 : CollectionRecord :=
  row 26 (Some "West") "2024-03-03" 8 "[]" (Some 1709463600000).
Definition west3 : CollectionRecord :=
  row 27 (Some "West") "2024-03-03" 8 "[]" (Some 1709461800000).

Definition locA : CollectionRecord :=
  row 31 (Some "Loc A") "2024-02-01" 10 "[]" (Some 1706781600000).
Definition group34 : CollectionRecord :=
  row 32 (Some "Group 3-4") "2024-02-02" 11 "[]" (Some 1706868000000).
Definition group8 : CollectionRecord :=
  row 33 (Some "Group 8") "2024-02-03" 12 "[]" (Some 1706954400000).
Definition normalHost : CollectionRecord :=
  row 34 (Some "Normal Host") "2024-02-04" 13 "[]" (Some 1707040800000).

Definition ogProject : CollectionRecord :=
  row 41 (Some "OG Sandwich Project") "2021-01-05" 100 "[]" (Some 1609840800000).
Definition earlyEmpty : CollectionRecord :=
  row 42 (Some "") "2021-01-05" 100 "[]" (Some 1609844400000).
Definition earlyNull : CollectionRecord :=
  row 43 None "2021-01-05" 100 "[]" (Some 1609844400000).

(** The delete of row 32 throws, every other delete succeeds. *)
Definition failsOn32 (i : Z) : DeleteResult :=
  if i =? 32 then Threw (ErrorObject "connection reset") else Returned true.

End Sample.

(** ** Batch edit *)

(** How [await storage.updateSandwichCollection(id, updates)] ends: with
    the updated row, with [null] or [undefined], or with a thrown value. *)
Inductive UpdateResult : Type :=
| Updated (row : CollectionRecord)
| NotUpdated
| UpdateThrew (error : Thrown).

Module Edited.
Record t : Type := {
  message : string;
  updatedCount : nat;
  totalRequested : nat;
  errors : option (list string)
}.
End Edited.

Section BatchEdit.
(** The values of the fields of [updates] are passed on unread. *)
Context {Store Value : Type}.
Variable updateSandwichCollection :
  Z -> list (string * Value) -> Store -> UpdateResult * Store.

(** The loop of batch-edit, over the ids as the request lists them. *)
Fixpoint editLoop (ids : list Z) (updates : list (string * Value))
         (updatedCount : nat) (errors : list string) (store : Store)
  : nat * list string * Store :=
  match ids with
  | [] => (updatedCount, errors, store)
  | i :: rest =>
      match updateSandwichCollection i updates store with
      | (Updated _, store') => editLoop rest updates (S updatedCount) errors store'
      | (NotUpdated, store') =>
          editLoop rest updates updatedCount
                   (errors ++ [("Collection with ID " ++ JS.numberToString i ++
                                " not found")%string])
                   store'
      | (UpdateThrew error, store') =>
          editLoop rest updates updatedCount
                   (errors ++ [("Failed to update collection " ++
                                JS.numberToString i ++ ": " ++
                                errorMessage error)%string])
                   store'
      end
  end.

(** [PATCH /api/sandwich-collections/batch-edit]; [bodyIds] is
    [req.body.ids] when it is an array of numbers, [bodyUpdates] is
    [req.body.updates] when it is an object, given by its own fields in
    order; [None] stands for a value that is absent or [null]. *)
Definition batchEdit (bodyIds : option (list Z))
           (bodyUpdates : option (list (string * Value))) (store : Store)
  : Reply Edited.t * Store :=
  match bodyIds with
  | None | Some [] => (Failed 400 "Invalid or empty IDs array", store)
  | Some ids =>
      match bodyUpdates with
      | None | Some [] => (Failed 400 "No updates provided", store)
      | Some updates =>
          let '(updatedCount, errors, store') := editLoop ids updates 0%nat [] store in
          (Ok {| Edited.message :=
                   "Successfully updated " ++ JS.natToString updatedCount ++ " of " ++
                   JS.natToString (List.length ids) ++ " collections";
                 Edited.updatedCount := updatedCount;
                 Edited.totalRequested := List.length ids;
                 Edited.errors := surfacedErrors errors |},
           store')
      end
  end.

(** The update calls of a run, one after the other on the evolving
    store. *)
Fixpoint updateAll (ids : list Z) (updates : list (string * Value)) (store : Store)
  : list UpdateResult * Store :=
  match ids with
  | [] => ([], store)
  | i :: rest =>
      let '(result, store') := updateSandwichCollection i updates store in
      let '(results, store'') := updateAll rest updates store' in
      (result :: results, store'')
  end.
End BatchEdit.

Definition wasUpdated (result : UpdateResult) : bool :=
  match result with
  | Updated _ => true
  | _ => false
  end.

Definition editMessage (i : Z) (result : UpdateResult) : list string :=
  match result with
  | Updated _ => []
  | NotUpdated =>
      [("Collection with ID " ++ JS.numberToString i ++ " not found")%string]
  | UpdateThrew error =>
      [("Failed to update collection " ++ JS.numberToString i ++ ": " ++
        errorMessage error)%string]
  end.

Definition editMessages (ids : list Z) (results : list UpdateResult) : list string :=
  flat_map (fun call => editMessage (fst call) (snd call)) (combine ids results).

(** The scripted store for updates: the answer to each id is fixed and
    the state is the log of the calls, id and field names. *)
Module ScriptedUpdates.
Definition t : Type := list (Z * list string).

Definition updateSandwichCollection {Value : Type} (answer : Z -> UpdateResult)
           (i : Z) (updates : list (string * Value)) (log : t)
  : UpdateResult * t := (answer i, log ++ [(i, map fst updates)]).
End ScriptedUpdates.

(** ** [parseInt] and the handlers of a single id *)

Definition decimalDigit (c : ascii) : option Z :=
  let n := N_of_ascii c in
  if ((48 <=? n) && (n <=? 57))%N then Some (Z.of_N n - 48) else None.

Definition hexDigit (c : ascii) : option Z :=
  let n := N_of_ascii c in
  if ((48 <=? n) && (n <=? 57))%N then Some (Z.of_N n - 48)
  else if ((65 <=? n) && (n <=? 70))%N then Some (Z.of_N n - 55)
  else if ((97 <=? n) && (n <=? 102))%N then Some (Z.of_N n - 87)
  else None.

(** The value of the longest prefix of digits, [None] when the string
    does not start with a digit. *)
Fixpoint leadingDigits (radix : Z) (digit : ascii -> option Z) (s : string)
         (acc : option Z) : option Z :=
  match s with
  | EmptyString => acc
  | String c s' =>
      match digit c with
      | Some d =>
          leadingDigits radix digit s'
            (Some (radix * match acc with Some a => a | None => 0 end + d))
      | None => acc
      end
  end.

(** A string that starts with [0x] or [0X], without that prefix. *)
Definition hexPrefixed (s : string) : option string :=
  match s with
  | String a (String b rest) =>
      if Ascii.eqb a "0" && (Ascii.eqb b "x" || Ascii.eqb b "X")
      then Some rest
      else None
  | _ => None
  end.

(** [parseInt(s)] without a radix: leading white space is skipped, then
    come an optional sign, an optional [0x] or [0X] that selects radix 16,
    and the digits; whatever follows the digits is ignored.  [None] is
    [NaN].  The value is exact below 2^53, where the number the engine
    returns is the integer itself. *)
Definition parseInt (s : string) : option Z :=
  let s1 := JS.trimStart s in
  let '(sign, s2) :=
    match s1 with
    | String c rest =>
        if Ascii.eqb c "-" then (-1, rest)
        else if Ascii.eqb c "+" then (1, rest)
        else (1, s1)
    | EmptyString => (1, s1)
    end in
  match hexPrefixed s2 with
  | Some rest => option_map (Z.mul sign) (leadingDigits 16 hexDigit rest None)
  | None => option_map (Z.mul sign) (leadingDigits 10 decimalDigit s2 None)
  end.

(** The integers up to 2^53 in absolute value: each of them is a number
    of the engine, [parseInt] returns it for its digits and a template
    literal prints its digits.  Beyond them the engine rounds what
    [parseInt] reads to the nearest number, and from 10^21 on it prints
    numbers with an exponent; properties that depend on the value or on
    the digits of a number are stated for these integers. *)
Definition exactInteger (n : Z) : bool := Z.abs n <=? 2 ^ 53.

(** [parseInt(x) || fallback]: [NaN] and zero give way to the fallback. *)
Definition parseIntOr (fallback : Z) (s : string) : Z :=
  match parseInt s with
  | Some 0 | None => fallback
  | Some n => n
  end.

(** A query parameter that is absent is [undefined], which [parseInt]
    reads as the string of that name. *)
Definition queryString (q : option string) : string :=
  match q with
  | Some s => s
  | None => "undefined"
  end.

(** [Math.ceil(a / b)] for integers and [b] other than zero. *)
Definition ceilOfQuotient (a b : Z) : Z := - ((- a) / b).

Module Page.
Record t : Type := {
  collections : list CollectionRecord;
  page : Z;
  limit : Z;
  total : Z;
  totalPages : Z;
  hasNext : bool;
  hasPrev : bool
}.
End Page.

(** What [DELETE /api/sandwich-collections/:id] sends: 204 without a
    body, or a status with a message. *)
Inductive SingleReply : Type :=
| NoContent
| Refused (status : Z) (message : string).

Section SingleRoutes.
Context {Store : Type}.
Variable deleteSandwichCollection : Z -> Store -> DeleteResult * Store.
Variable getSandwichCollections : Z -> Z -> Store -> list CollectionRecord.
Variable getSandwichCollectionsCount : Store -> Z.

(** [DELETE /api/sandwich-collections/:id]: the reply, the store, and the
    cache prefixes passed to [QueryOptimizer.invalidateCache]. *)
Definition deleteCollection (param : string) (store : Store)
  : SingleReply * Store * list string :=
  match parseInt param with
  | None => (Refused 400 "Invalid collection ID", store, [])
  | Some i =>
      match deleteSandwichCollection i store with
      | (Returned true, store') => (NoContent, store', ["sandwich-collections"%string])
      | (Returned false, store') => (Refused 404 "Collection not found", store', [])
      | (Threw _, store') => (Refused 500 "Failed to delete collection", store', [])
      end
  end.

(** [GET /api/sandwich-collections] with the query parameters [page] and
    [limit]. *)
Definition listCollections (queryPage queryLimit : option string) (store : Store)
  : Page.t :=
  let page := parseIntOr 1 (queryString queryPage) in
  let limit := parseIntOr 50 (queryString queryLimit) in
  let offset := (page - 1) * limit in
  let result := getSandwichCollections limit offset store in
  let totalCount := getSandwichCollectionsCount store in
  {| Page.collections := result;
     Page.page := page;
     Page.limit := limit;
     Page.total := totalCount;
     Page.totalPages := ceilOfQuotient totalCount limit;
     Page.hasNext := page <? ceilOfQuotient totalCount limit;
     Page.hasPrev := 1 <? page |}.
End SingleRoutes.

(** ** Statistics by host *)

(** [hostNames.has(x)] for the [Set] of the names of the hosts; a name
    may be [null]. *)
Definition sameName (a b : option string) : bool :=
  match a, b with
  | Some x, Some y => String.eqb x y
  | None, None => true
  | _, _ => false
  end.

Definition setHas (hostNames : list (option string)) (name : option string) : bool :=
  existsb (sameName name) hostNames.

(** [hostNames.has(h) || h.toLowerCase().includes("group")]; [None] when
    the method call throws. *)
Definition mappedHost (hostNames : list (option string)) (name : option string)
  : option bool :=
  if setHas hostNames name then Some true
  else match name with
       | Some h => Some (JS.includes (JS.toLowerCase h) "group")
       | None => None
       end.

Module Counts.
Record t : Type := {
  totalRecords : Z;
  processedRecords : Z;
  mappedRecords : nat;
  unmappedRecords : nat
}.
End Counts.

(** The loop of collection-stats; [None] when a host name throws. *)
Fixpoint countMapped (hostNames : list (option string))
         (allCollections : list CollectionRecord) (mappedRecords unmappedRecords : nat)
  : option (nat * nat) :=
  match allCollections with
  | [] => Some (mappedRecords, unmappedRecords)
  | collection :: rest =>
      match mappedHost hostNames (hostName collection) with
      | None => None
      | Some true => countMapped hostNames rest (S mappedRecords) unmappedRecords
      | Some false => countMapped hostNames rest mappedRecords (S unmappedRecords)
      end
  end.

(** [GET /api/collection-stats]: [totalRecords] is the count the store
    reports, [hosts] are the names of the hosts. *)
Definition collectionStats (totalRecords : Z) (allCollections : list CollectionRecord)
           (hosts : list (option string)) : Reply Counts.t :=
  match countMapped hosts allCollections 0%nat 0%nat with
  | None => Failed 500 "Failed to fetch collection statistics"
  | Some (mappedRecords, unmappedRecords) =>
      Ok {| Counts.totalRecords := totalRecords;
            Counts.processedRecords := totalRecords;
            Counts.mappedRecords := mappedRecords;
            Counts.unmappedRecords := unmappedRecords |}
  end.

(** [hostCounts.set(h, (hostCounts.get(h) || 0) + 1)] on the [Map] from
    host name to count, in insertion order. *)
Fixpoint countPush (name : option string) (hostCounts : list (option string * nat))
  : list (option string * nat) :=
  match hostCounts with
  | [] => [(name, 1%nat)]
  | (h, count) :: rest =>
      if sameName name h then (h, S count) :: rest
      else (h, count) :: countPush name rest
  end.

(** [hostCounts.get(h) || 0] *)
Fixpoint countGet (name : option string) (hostCounts : list (option string * nat))
  : nat :=
  match hostCounts with
  | [] => 0%nat
  | (h, count) :: rest => if sameName name h then count else countGet name rest
  end.

Definition countHosts (allCollections : list CollectionRecord)
  : list (option string * nat) :=
  fold_left (fun hostCounts collection => countPush (hostName collection) hostCounts)
            allCollections [].

Record HostMapping : Type := {
  mappingHost : option string;
  mappingCount : nat;
  mapped : bool
}.

(** [(a, b) => b.count - a.count] *)
Definition byCountDesc (a b : HostMapping) : option Z :=
  Some (Z.of_nat (mappingCount b) - Z.of_nat (mappingCount a)).

(** The [map] over the entries of the counts; [None] when a host name
    throws. *)
Fixpoint mappingEntries (hostNames : list (option string))
         (entries : list (option string * nat)) : option (list HostMapping) :=
  match entries with
  | [] => Some []
  | (h, count) :: rest =>
      match mappedHost hostNames h with
      | None => None
      | Some m =>
          match mappingEntries hostNames rest with
          | None => None
          | Some stats =>
              Some ({| mappingHost := h; mappingCount := count; mapped := m |} :: stats)
          end
      end
  end.

(** [GET /api/host-mapping-stats] *)
Definition hostMappingStats (allCollections : list CollectionRecord)
           (hosts : list (option string)) : Reply (list HostMapping) :=
  match mappingEntries hosts (countHosts allCollections) with
  | None => Failed 500 "Failed to fetch host mapping statistics"
  | Some stats => Ok (JS.sort byCountDesc stats)
  end.

(** Whether a host name counts as mapped, [false] where the test throws. *)
Definition countsAsMapped (hostNames : list (option string)) (name : option string)
  : bool :=
  match mappedHost hostNames name with
  | Some m => m
  | None => false
  end.


(** ** The CSV import *)

(** A row as the CSV parser returns it with [columns: true], and as the
    handler builds it for the weekly formats: an object whose values are
    strings, given by its fields in order. *)
Definition Row : Type := list (string * string).

(** [record[key]], [None] when [undefined]. *)
Fixpoint field (key : string) (record : Row) : option string :=
  match record with
  | [] => None
  | (k, v) :: rest => if String.eqb key k then Some v else field key rest
  end.

(** A string is truthy unless it is empty; [undefined] is falsy. *)
Definition truthy (v : option string) : bool :=
  match v with
  | Some (String _ _) => true
  | _ => false
  end.

(** [a || b] *)
Definition orElse (a b : option string) : option string :=
  if truthy a then a else b.

(** [Object.keys(record).join(", ")] *)
Definition availableKeys (record : Row) : string :=
  String.concat ", " (map fst record).

(** [s.split(sep)] for a separator of one character. *)
Fixpoint splitOn (sep : ascii) (s : string) : list string :=
  match s with
  | EmptyString => [EmptyString]
  | String c s' =>
      if Ascii.eqb c sep then EmptyString :: splitOn sep s'
      else match splitOn sep s' with
           | piece :: pieces => String c piece :: pieces
           | [] => [String c EmptyString]
           end
  end.

Definition doubleQuote : ascii := ascii_of_nat 34.
Definition lineFeed : ascii := ascii_of_nat 10.

(** [s.replace] of every double quote and every comma by nothing. *)
Fixpoint dropQuotesAndCommas (s : string) : string :=
  match s with
  | EmptyString => EmptyString
  | String c s' =>
      if Ascii.eqb c doubleQuote || Ascii.eqb c ","
      then dropQuotesAndCommas s'
      else String c (dropQuotesAndCommas s')
  end.

(** [/^\d+,/] *)
Fixpoint digitsThenComma (s : string) : bool :=
  match s with
  | String a ((String b _) as rest) =>
      JS.isDigit a && (Ascii.eqb b "," || digitsThenComma rest)
  | _ => false
  end.

(** What is passed to [storage.createSandwichCollection]. *)
Record InsertCollection : Type := {
  newHostName : string;
  newIndividualSandwiches : Z;
  newCollectionDate : string;
  newGroupCollections : string;
  newSubmittedAt : Z
}.

(** How [await storage.createSandwichCollection(data)] ends. *)
Inductive CreateResult : Type :=
| Created
| CreateThrew (error : Thrown).

Module Imported.
Record t : Type := {
  totalRecords : nat;
  successCount : nat;
  errorCount : nat;
  errors : list string
}.
End Imported.

(** What the import sends: the result, 400 without a file, or 500 with
    the message of what was thrown. *)
Inductive ImportReply : Type :=
| ImportDone (result : Imported.t)
| NoFile
| ImportFailed (error : string).

(** The three layouts the import tells apart by the first line. *)
Inductive FormatType : Type := Standard | Complex | Structured.

Definition detectFormat (lines : list string) : FormatType :=
  let first := hd EmptyString lines in
  if JS.includes first "WEEK #" || JS.includes first "Hosts:" then Complex
  else if JS.includes first "Week_Number" && JS.includes first "Total_Sandwiches"
       then Structured
       else Standard.

(** [JSON.stringify([{ count: groupCount, description: "Group Collection" }])] *)
Definition groupJson (groupCount : Z) : string :=
  "[{" ++ String doubleQuote "count" ++ String doubleQuote ":" ++
  JS.numberToString groupCount ++ "," ++
  String doubleQuote "description" ++ String doubleQuote ":" ++
  String doubleQuote "Group Collection" ++ String doubleQuote "}]".

(** The index of the first line that starts with digits and a comma and
    holds [TRUE]; zero when there is none. *)
Fixpoint findStartRow (lines : list string) (i : nat) : nat :=
  match lines with
  | [] => 0%nat
  | line :: rest =>
      if digitsThenComma line && JS.includes line "TRUE" then i
      else findStartRow rest (S i)
  end.

Section CsvImport.
(** The clock, the [Date] constructor and the CSV parser are the
    engine's and the library's; the store is the record store.  [now i]
    and [nowIso i] are what [new Date()] and [new Date().toISOString()] give
    while row [i] is handled. *)
Context {Store : Type}.
Variable now : nat -> Z.
Variable nowIso : nat -> string.
Variable dateTime : string -> option Z.
Variable dateIso : string -> string + string.
Variable csvParse : string -> list Row + string.
Variable createSandwichCollection : InsertCollection -> Store -> CreateResult * Store.

(** Line [i] of the weekly totals layout. *)
Definition complexRecord (i : nat) (rawLine : string) : list Row :=
  let line := JS.trim rawLine in
  if String.eqb line "" || negb (JS.includes line "TRUE") then []
  else
    let parts := splitOn "," line in
    match nth_error parts 4 with
    | Some (String _ _ as part4) =>
        let weekNum := nth 0 parts EmptyString in
        let date := nth 3 parts EmptyString in
        let totalSandwiches := dropQuotesAndCommas part4 in
        if negb (String.eqb date "") && negb (String.eqb totalSandwiches "") &&
           match parseInt totalSandwiches with Some _ => true | None => false end
        then [[("Host Name", "Week " ++ weekNum ++ " Total");
               ("Sandwich Count", totalSandwiches);
               ("Date", date);
               ("Logged By", "CSV Import");
               ("Notes", "Weekly total import from complex spreadsheet");
               ("Created At", nowIso i)]%string]
        else []
    | _ => []
    end.

Fixpoint complexRecords (lines : list string) (i : nat) : list Row :=
  match lines with
  | [] => []
  | line :: rest => complexRecord i line ++ complexRecords rest (S i)
  end.

Definition parseComplex (lines : list string) : list Row :=
  let startRow := findStartRow lines 0 in
  complexRecords (skipn startRow lines) startRow.

(** The rows of the structured layout, from row [i] on; the message of
    the [RangeError] when a date does not parse. *)
Fixpoint convertStructured (parsedData : list Row) (i : nat) : list Row + string :=
  match parsedData with
  | [] => inl []
  | row :: rest =>
      let keep :=
        truthy (field "Week_Number" row) && truthy (field "Date" row) &&
        truthy (field "Total_Sandwiches" row) &&
        match field "Total_Sandwiches" row with
        | Some total =>
            match parseInt total with
            | Some n => 0 <? n
            | None => false
            end
        | None => false
        end in
      if keep then
        match dateIso (match field "Date" row with Some d => d | None => EmptyString end) with
        | inr error => inr error
        | inl iso =>
            match convertStructured rest (S i) with
            | inr error => inr error
            | inl records =>
                inl ([("Host Name",
                       "Week " ++
                       match field "Week_Number" row with Some w => w | None => EmptyString end ++
                       " Complete Data");
                      ("Sandwich Count",
                       match field "Total_Sandwiches" row with Some t => t | None => EmptyString end);
                      ("Date", hd EmptyString (splitOn "T" iso));
                      ("Logged By", "CSV Import");
                      ("Notes",
                       "Structured weekly data import with location and group details");
                      ("Created At", nowIso i)]%string :: records)
            end
        end
      else convertStructured rest (S i)
  end.

(** The body of the [try] for row [i] up to the call of the store: the
    data to insert, or the message of the error thrown. *)
Definition readRecord (i : nat) (record : Row) : InsertCollection + string :=
  let hostName :=
    orElse (orElse (orElse (field "Host Name" record) (field "Host" record))
                   (field "host_name" record))
           (field "HostName" record) in
  let sandwichCountStr :=
    orElse (orElse (orElse (orElse (orElse (field "Individual Sandwiches" record)
                                           (field "Sandwich Count" record))
                                   (field "Count" record))
                           (field "sandwich_count" record))
                   (field "SandwichCount" record))
           (field "Sandwiches" record) in
  let date :=
    orElse (orElse (orElse (field "Collection Date" record) (field "Date" record))
                   (field "date" record))
           (field "CollectionDate" record) in
  let row := JS.natToString (i + 1) in
  match hostName with
  | Some (String _ _ as hostName) =>
      match sandwichCountStr with
      | Some (String _ _ as sandwichCountStr) =>
          match date with
          | Some (String _ _ as date) =>
              match parseInt (JS.trim sandwichCountStr) with
              | None =>
                  inr ("Invalid sandwich count " ++ String doubleQuote sandwichCountStr ++
                       String doubleQuote " in row " ++ row)%string
              | Some sandwichCount =>
                  let createdAt :=
                    orElse (orElse (field "Created At" record) (field "created_at" record))
                           (field "CreatedAt" record) in
                  let submittedAt :=
                    match createdAt with
                    | Some (String _ _ as createdAt) =>
                        match dateTime createdAt with
                        | Some t => t
                        | None => now i
                        end
                    | _ => now i
                    end in
                  let groupCollectionsStr :=
                    match orElse (field "Group Collections" record) (Some EmptyString) with
                    | Some g => g
                    | None => EmptyString
                    end in
                  let groupCollections :=
                    if negb (String.eqb groupCollectionsStr "") &&
                       negb (String.eqb (JS.trim groupCollectionsStr) "")
                    then match parseInt (JS.trim groupCollectionsStr) with
                         | Some groupCount =>
                             if 0 <? groupCount then groupJson groupCount else "[]"%string
                         | None => "[]"%string
                         end
                    else "[]"%string in
                  inl {| newHostName := JS.trim hostName;
                         newIndividualSandwiches := sandwichCount;
                         newCollectionDate := JS.trim date;
                         newGroupCollections := groupCollections;
                         newSubmittedAt := submittedAt |}
              end
          | _ =>
              inr ("Missing Collection Date (available columns: " ++
                   availableKeys record ++ ") in row " ++ row)%string
          end
      | _ =>
          inr ("Missing Individual Sandwiches (available columns: " ++
               availableKeys record ++ ") in row " ++ row)%string
      end
  | _ =>
      inr ("Missing Host Name (available columns: " ++
           availableKeys record ++ ") in row " ++ row)%string
  end.

(** The loop over the records, from row [i] on. *)
Fixpoint importLoop (records : list Row) (i : nat) (successCount errorCount : nat)
         (errors : list string) (store : Store) : nat * nat * list string * Store :=
  match records with
  | [] => (successCount, errorCount, errors, store)
  | record :: rest =>
      match readRecord i record with
      | inr message =>
          importLoop rest (S i) successCount (S errorCount)
                     (errors ++ [("Row " ++ JS.natToString (i + 1) ++ ": " ++ message)%string])
                     store
      | inl data =>
          match createSandwichCollection data store with
          | (Created, store') =>
              importLoop rest (S i) (S successCount) errorCount errors store'
          | (CreateThrew error, store') =>
              importLoop rest (S i) successCount (S errorCount)
                         (errors ++ [("Row " ++ JS.natToString (i + 1) ++ ": " ++
                                      errorMessage error)%string])
                         store'
          end
      end
  end.

(** The records of the file in its layout. *)
Definition readRecords (csvContent : string) : list Row + string :=
  let lines := splitOn lineFeed csvContent in
  match detectFormat lines with
  | Complex => inl (parseComplex lines)
  | Structured =>
      match csvParse csvContent with
      | inr error => inr error
      | inl parsedData => convertStructured parsedData 0%nat
      end
  | Standard => csvParse csvContent
  end.

(** [POST /api/import-collections], on the content of the uploaded file,
    [None] when no file came: the handler when reading the file and
    removing it afterwards both succeed ([importUpload] below has the two
    calls). *)
Definition importCollections (file : option string) (store : Store)
  : ImportReply * Store :=
  match file with
  | None => (NoFile, store)
  | Some csvContent =>
      match readRecords csvContent with
      | inr error => (ImportFailed error, store)
      | inl records =>
          let '(successCount, errorCount, errors, store') :=
            importLoop records 0%nat 0%nat 0%nat [] store in
          (ImportDone {| Imported.totalRecords := List.length records;
                         Imported.successCount := successCount;
                         Imported.errorCount := errorCount;
                         Imported.errors := JS.slice0 10 errors |},
           store')
      end
  end.

End CsvImport.

(** The store double for inserts: the answer to each insert is fixed and
    the state is the log of what was passed in. *)
Module ScriptedInserts.
Definition t : Type := list InsertCollection.

Definition createSandwichCollection (answer : InsertCollection -> CreateResult)
           (data : InsertCollection) (log : t) : CreateResult * t :=
  (answer data, log ++ [data]).
End ScriptedInserts.

(** A file and stand-ins for the clock, the date parser and the CSV
    parser, for the examples of the import. *)
Module ImportSample.
Definition now (i : nat) : Z := 1717200000000 + Z.of_nat i.

Definition nowIso (_ : nat) : string := "2024-06-01T00:00:00.000Z".

Definition dateTime (s : string) : option Z :=
  if String.eqb s "2024-06-01T00:00:00.000Z" then Some 1717200000000 else None.

Definition dateIso (_ : string) : string + string := inr "Invalid time value"%string.

(** Three rows as the parser would return them for a file with the
    columns Host, Count, date and Group Collections. *)
Definition parsedRows : list Row :=
  [[("Host", " North  "); ("Count", "12"); ("date", "2024-05-01");
    ("Group Collections", "3")];
   [("Host", "South"); ("Count", "many"); ("date", "2024-05-02");
    ("Group Collections", "")];
   [("Host", ""); ("Count", "4"); ("date", "2024-05-03");
    ("Group Collections", "-2")]]%string.

Definition csvParse (_ : string) : list Row + string := inl parsedRows.

Definition newline : string := String lineFeed EmptyString.

(** A file in the weekly totals layout: a header, two lines of data and
    one line without the mark [TRUE]. *)
Definition weeklyTotals : string :=
  ("WEEK #,Hosts,Done,Date,Total" ++ newline ++
   "1,4,TRUE,2024-01-07,120" ++ newline ++
   "2,5,FALSE,2024-01-14,90" ++ newline ++
   "3,6,TRUE,2024-01-21,75")%string.

Definition standardFile : string :=
  ("Host,Count,date,Group Collections" ++ newline ++ "...")%string.
End ImportSample.

(* ================================================================== *)
(** * Properties *)
(* ================================================================== *)

(** ** The loops and the run of delete calls *)

Section LoopFacts.
Context {Store : Type}.
Variable del : Z -> Store -> DeleteResult * Store.

Lemma deleteAll_length : forall ids store,
  List.length (fst (deleteAll del ids store)) = List.length ids.
Proof.
  induction ids as [|i ids IH]; intros store; simpl; [reflexivity|].
  destruct (del i store) as [r s1]. specialize (IH s1).
  destruct (deleteAll del ids s1) as [rs s2]. simpl in *. now rewrite IH.
Qed.

Lemma cleanLoop_run : forall cs n errs store,
  cleanLoop del cs n errs store =
  ((n + countDeleted (fst (deleteAll del (map id cs) store)))%nat,
   errs ++ cleanMessages (map id cs) (fst (deleteAll del (map id cs) store)),
   snd (deleteAll del (map id cs) store)).
Proof.
  induction cs as [|c cs IH]; intros n errs store; simpl.
  - now rewrite Nat.add_0_r, app_nil_r.
  - destruct (del (id c) store) as [r s1].
    destruct r as [[|]|e]; rewrite IH;
      destruct (deleteAll del (map id cs) s1) as [rs s2];
      unfold countDeleted, cleanMessages; simpl;
      rewrite <- ?app_assoc; simpl; f_equal; f_equal; lia.
Qed.

Lemma bulkLoop_run : forall cs n store,
  bulkLoop del cs n store =
  ((n + countDeleted (fst (deleteAll del (map id cs) store)))%nat,
   snd (deleteAll del (map id cs) store)).
Proof.
  induction cs as [|c cs IH]; intros n store; simpl.
  - now rewrite Nat.add_0_r.
  - destruct (del (id c) store) as [r s1].
    destruct r as [[|]|e]; rewrite IH;
      destruct (deleteAll del (map id cs) s1) as [rs s2];
      unfold countDeleted; simpl; f_equal; lia.
Qed.

Lemma batchLoop_run : forall ids n errs store,
  batchLoop del ids n errs store =
  ((n + countDeleted (fst (deleteAll del ids store)))%nat,
   errs ++ batchMessages ids (fst (deleteAll del ids store)),
   snd (deleteAll del ids store)).
Proof.
  induction ids as [|i ids IH]; intros n errs store; simpl.
  - now rewrite Nat.add_0_r, app_nil_r.
  - destruct (del i store) as [r s1].
    destruct r as [[|]|e]; rewrite IH;
      destruct (deleteAll del ids s1) as [rs s2];
      unfold countDeleted, batchMessages; simpl;
      rewrite <- ?app_assoc; simpl; f_equal; f_equal; lia.
Qed.
End LoopFacts.

Lemma cleanMessages_length : forall ids results,
  List.length ids = List.length results ->
  List.length (cleanMessages ids results) = countThrown results.
Proof.
  unfold cleanMessages, countThrown.
  induction ids as [|i ids IH]; intros [|r rs] Hlen; simpl in *; try discriminate;
    [reflexivity|].
  rewrite length_app, IH by lia. destruct r as [b|e]; reflexivity.
Qed.

Lemma batchMessages_length : forall ids results,
  List.length ids = List.length results ->
  (List.length (batchMessages ids results) + countDeleted results)%nat =
  List.length results.
Proof.
  unfold batchMessages, countDeleted.
  induction ids as [|i ids IH]; intros [|r rs] Hlen; simpl in *; try discriminate;
    [reflexivity|].
  rewrite length_app. specialize (IH rs ltac:(lia)).
  destruct r as [[|]|e]; simpl; lia.
Qed.

Lemma surfacedErrors_bound : forall errs shown,
  surfacedErrors errs = Some shown ->
  shown = firstn 5 errs /\ (List.length shown <= 5)%nat /\ errs <> [].
Proof.
  unfold surfacedErrors, JS.slice0. intros errs shown H.
  assert (Hshown : shown = firstn 5 errs /\ errs <> []).
  { destruct errs as [|e errs]; [discriminate|].
    change (Some (firstn 5 (e :: errs)) = Some shown) in H.
    split; [congruence|discriminate]. }
  destruct Hshown as [-> Hne]. split; [reflexivity|]. split; [|exact Hne].
  exact (firstn_le_length 5 errs).
Qed.

Lemma surfacedErrors_none : forall errs, surfacedErrors errs = None <-> errs = [].
Proof.
  unfold surfacedErrors. intros [|e errs]; simpl; split; intros H;
    try reflexivity; discriminate.
Qed.

(** The scripted store logs every id of a run, whatever the answers. *)
Lemma deleteAll_scripted : forall answer ids log,
  deleteAll (ScriptedStore.deleteSandwichCollection answer) ids log =
  (map answer ids, log ++ ids).
Proof.
  induction ids as [|i ids IH]; intros log; simpl.
  - now rewrite app_nil_r.
  - rewrite IH. now rewrite <- app_assoc.
Qed.

(** ** The sort *)

Section SortFacts.
Context {A : Type}.
Variable cmp : A -> A -> option Z.

Lemma insert_perm : forall x l, Permutation (x :: l) (JS.insert cmp x l).
Proof.
  induction l as [|y l IH]; simpl; [apply Permutation_refl|].
  destruct (JS.SortCompare cmp x y <=? 0); [apply Permutation_refl|].
  eapply perm_trans; [apply perm_swap|]. now apply perm_skip.
Qed.

Lemma sort_perm : forall l, Permutation l (JS.sort cmp l).
Proof.
  induction l as [|x l IH]; simpl; [constructor|].
  eapply perm_trans; [apply perm_skip, IH|]. apply insert_perm.
Qed.

Lemma sort_length : forall l, List.length (JS.sort cmp l) = List.length l.
Proof. intros l. symmetry. apply Permutation_length, sort_perm. Qed.

Lemma sort_In : forall l x, In x (JS.sort cmp l) <-> In x l.
Proof.
  intros l x; split; apply Permutation_in;
    [apply Permutation_sym|]; apply sort_perm.
Qed.

(** When every comparison among the elements is a tie, the stable sort
    returns the array as it was. *)
Lemma sort_all_ties : forall l,
  (forall a b, In a l -> In b l -> JS.SortCompare cmp a b = 0) ->
  JS.sort cmp l = l.
Proof.
  induction l as [|x l IH]; intros Hties; simpl; [reflexivity|].
  rewrite IH by (intros; apply Hties; now right).
  destruct l as [|y l]; simpl; [reflexivity|].
  rewrite Hties by (simpl; auto). reflexivity.
Qed.
(** When the comparator is the difference of a numeric key, as in
    [(a, b) => key(b) - key(a)], the result is in descending order of
    the key. *)
Lemma insert_descending : forall (key : A -> Z) x l,
  (forall a b, In a (x :: l) -> In b (x :: l) ->
               JS.SortCompare cmp a b = key b - key a) ->
  StronglySorted (fun a b => key b <= key a) l ->
  StronglySorted (fun a b => key b <= key a) (JS.insert cmp x l).
Proof.
  intros key x l Hcmp Hs. induction Hs as [|y l Hs IH Hy]; simpl.
  - repeat constructor.
  - rewrite Hcmp by (simpl; auto).
    destruct (Z.leb_spec (key y - key x) 0) as [Hle|Hgt].
    + constructor; [now constructor|]. constructor; [lia|].
      rewrite Forall_forall in *. intros z Hz. specialize (Hy z Hz). lia.
    + constructor.
      * apply IH. intros a b Ha Hb. apply Hcmp; simpl in *; tauto.
      * rewrite Forall_forall in *. intros z Hz.
        apply (Permutation_in z (Permutation_sym (insert_perm x l))) in Hz.
        destruct Hz as [<-|Hz]; [lia|now apply Hy].
Qed.

Lemma sort_descending : forall (key : A -> Z) l,
  (forall a b, In a l -> In b l -> JS.SortCompare cmp a b = key b - key a) ->
  StronglySorted (fun a b => key b <= key a) (JS.sort cmp l).
Proof.
  intros key l. induction l as [|x l IH]; intros Hcmp; simpl; [constructor|].
  apply insert_descending.
  - intros a b Ha Hb. apply Hcmp.
    + destruct Ha as [<-|Ha]; [now left|right; exact (proj1 (sort_In l a) Ha)].
    + destruct Hb as [<-|Hb]; [now left|right; exact (proj1 (sort_In l b) Hb)].
  - apply IH. intros a b Ha Hb. apply Hcmp; now right.
Qed.
End SortFacts.

(** The deletion order of the handlers: descending by id. *)
Lemma sort_byIdDesc_descending : forall collections,
  StronglySorted (fun a b => id b <= id a) (JS.sort byIdDesc collections).
Proof.
  intros collections. apply (sort_descending byIdDesc id collections).
  intros a b _ _. reflexivity.
Qed.


(** ** The handlers as runs of delete calls *)

Section HandlerRuns.
Context {Store : Type}.
Variable getAll : Store -> list CollectionRecord.
Variable del : Z -> Store -> DeleteResult * Store.

Lemma cleanDuplicates_run : forall bodyMode store cands,
  let mode := match bodyMode with Some m => m | None => "exact" end in
  candidatesFor mode (getAll store) = Some cands ->
  let sorted := JS.sort byIdDesc cands in
  let run := deleteAll del (map id sorted) store in
  cleanDuplicates getAll del bodyMode store =
  (Ok {| Cleaned.message :=
           "Successfully cleaned " ++ JS.natToString (countDeleted (fst run)) ++
           " duplicate entries using " ++ mode ++ " mode";
         Cleaned.deletedCount := countDeleted (fst run);
         Cleaned.totalFound := List.length cands;
         Cleaned.errors := surfacedErrors (cleanMessages (map id sorted) (fst run));
         Cleaned.mode := mode |},
   snd run).
Proof.
  intros bodyMode store cands mode Hc sorted run.
  unfold cleanDuplicates. fold mode. rewrite Hc. fold sorted.
  rewrite cleanLoop_run. fold run. reflexivity.
Qed.

Lemma bulkDelete_run : forall store cands,
  filterThrowing (onHostName bulkHost) (getAll store) = Some cands ->
  let sorted := JS.sort byIdDesc cands in
  let run := deleteAll del (map id sorted) store in
  bulkDelete getAll del store =
  (Ok {| Bulk.message :=
           "Successfully deleted " ++ JS.natToString (countDeleted (fst run)) ++
           " duplicate entries";
         Bulk.deletedCount := countDeleted (fst run);
         Bulk.patterns := ["Loc *"; "Group 1-8"]%string |},
   snd run).
Proof.
  intros store cands Hc sorted run.
  unfold bulkDelete. rewrite Hc. fold sorted.
  rewrite bulkLoop_run. fold run. reflexivity.
Qed.

Lemma batchDelete_run : forall store ids,
  ids <> [] ->
  let sorted := JS.sort byNumberDesc ids in
  let run := deleteAll del sorted store in
  batchDelete del (Some ids) store =
  (Ok {| Batch.message :=
           "Successfully deleted " ++ JS.natToString (countDeleted (fst run)) ++
           " of " ++ JS.natToString (List.length ids) ++ " collections";
         Batch.deletedCount := countDeleted (fst run);
         Batch.totalRequested := List.length ids;
         Batch.errors := surfacedErrors (batchMessages sorted (fst run)) |},
   snd run).
Proof.
  intros store ids Hne sorted run.
  unfold batchDelete. destruct ids as [|i ids]; [congruence|].
  fold sorted. rewrite batchLoop_run. fold run. reflexivity.
Qed.
End HandlerRuns.

(** ** Strings and the anchored patterns *)


Lemma afterPrefix_app : forall p s rest,
  JS.afterPrefix p s = Some rest <-> s = (p ++ rest)%string.
Proof.
  induction p as [|a p IH]; intros s rest; simpl.
  - split; [intros H; now injection H | intros ->; reflexivity].
  - destruct s as [|b s]; [split; discriminate|].
    destruct (Ascii.eqb_spec a b) as [->|Hab].
    + rewrite IH. split; [intros ->; reflexivity | intros H; now injection H].
    + split; [discriminate | intros H; injection H as Hb _; congruence].
Qed.

(** [/^group \d+$/] matches ["group "] followed by one or more digits and
    nothing else. *)
Lemma matchGroupDigits_spec : forall s,
  matchGroupDigits s = true <->
  exists d ds, s = ("group " ++ String d ds)%string /\
               JS.isDigit d = true /\ JS.allDigits ds = true.
Proof.
  intros s. unfold matchGroupDigits.
  destruct (JS.afterPrefix "group " s) as [rest|] eqn:Hp.
  - apply afterPrefix_app in Hp. subst s. destruct rest as [|d ds].
    + split; [discriminate | intros (d & ds & H & _); discriminate].
    + rewrite andb_true_iff. split.
      * intros [Hd Hds]. now exists d, ds.
      * intros (d' & ds' & H & Hd & Hds). injection H as -> ->. now split.
  - split; [discriminate|]. intros (d & ds & H & _).
    apply afterPrefix_app in H. congruence.
Qed.

(** [/^group \d-\d$/] matches ["group "], a digit, a dash and a digit. *)
Lemma matchGroupDigitDashDigit_spec : forall s,
  matchGroupDigitDashDigit s = true <->
  exists a b, s = ("group " ++ String a (String "-" (String b "")))%string /\
              JS.isDigit a = true /\ JS.isDigit b = true.
Proof.
  intros s. unfold matchGroupDigitDashDigit.
  destruct (JS.afterPrefix "group " s) as [rest|] eqn:Hp.
  - apply afterPrefix_app in Hp. subst s. split.
    + destruct rest as [|a [|dash [|b [|]]]]; try discriminate;
        destruct dash as [[] [] [] [] [] [] [] []]; try discriminate.
      rewrite andb_true_iff. intros [Ha Hb]. now exists a, b.
    + intros (a & b & H & Ha & Hb). injection H as ->. now rewrite Ha, Hb.
  - split; [discriminate|]. intros (a & b & H & _).
    apply afterPrefix_app in H. congruence.
Qed.



(** ** The filters that call a method of the host name *)

Lemma filterThrowing_present : forall test collections,
  hostsPresent collections ->
  filterThrowing (onHostName test) collections =
  Some (filter (hostSatisfies test) collections).
Proof.
  unfold hostsPresent.
  induction collections as [|c cs IH]; intros Hp; simpl; [reflexivity|].
  rewrite IH by (intros; apply Hp; now right).
  unfold onHostName, hostSatisfies.
  destruct (hostName c) eqn:Hh; [reflexivity|].
  exfalso. apply (Hp c); [now left | exact Hh].
Qed.

Lemma filterThrowing_null : forall test collections c,
  In c collections -> hostName c = None ->
  filterThrowing (onHostName test) collections = None.
Proof.
  induction collections as [|x cs IH]; intros c Hin Hnull; simpl; [contradiction|].
  destruct Hin as [->|Hin].
  - unfold onHostName. now rewrite Hnull.
  - destruct (onHostName test x); [|reflexivity]. now rewrite (IH c).
Qed.

(** On the scripted store the log shows the calls: every candidate, in
    descending order of id, whatever each call answered. *)
Lemma cleanDuplicates_scripted_log : forall answer snapshot mode cands log,
  candidatesFor mode snapshot = Some cands ->
  snd (cleanDuplicates (ScriptedStore.getAllSandwichCollections snapshot)
                       (ScriptedStore.deleteSandwichCollection answer)
                       (Some mode) log) =
  log ++ map id (JS.sort byIdDesc cands).
Proof.
  intros answer snapshot mode cands log Hc.
  rewrite (cleanDuplicates_run (ScriptedStore.getAllSandwichCollections snapshot)
             (ScriptedStore.deleteSandwichCollection answer) (Some mode) log cands Hc).
  simpl. now rewrite deleteAll_scripted.
Qed.


Lemma bulkDelete_scripted_log : forall answer snapshot log,
  hostsPresent snapshot ->
  snd (bulkDelete (ScriptedStore.getAllSandwichCollections snapshot)
                  (ScriptedStore.deleteSandwichCollection answer) log) =
  log ++ map id (JS.sort byIdDesc (filter (hostSatisfies bulkHost) snapshot)).
Proof.
  intros answer snapshot log Hp.
  rewrite (bulkDelete_run (ScriptedStore.getAllSandwichCollections snapshot)
             (ScriptedStore.deleteSandwichCollection answer) log
             (filter (hostSatisfies bulkHost) snapshot)).
  - simpl. now rewrite deleteAll_scripted.
  - now apply filterThrowing_present.
Qed.

(** ** The suspicious classifiers *)

(** The class [\d] is the ten characters from 0 to 9. *)
Lemma isDigit_spec : forall c,
  JS.isDigit c = true <-> (48 <= N_of_ascii c <= 57)%N.
Proof.
  intros c. unfold JS.isDigit. cbv zeta.
  rewrite andb_true_iff, !N.leb_le. reflexivity.
Qed.

Lemma allDigits_spec : forall s,
  JS.allDigits s = true <->
  forall c, In c (list_ascii_of_string s) -> JS.isDigit c = true.
Proof.
  induction s as [|a s IH]; simpl.
  - split; [intros _ c []|reflexivity].
  - rewrite andb_true_iff, IH. split.
    + intros [Ha Hs] c [<-|Hc]; [exact Ha|now apply Hs].
    + intros H. split; [apply H; now left|]. intros c Hc. apply H. now right.
Qed.

(** [^group \d+$]: the word, a space, and one or more digits up to the
    end of the string. *)
Lemma matchGroupDigits_digits : forall s,
  matchGroupDigits s = true <->
  exists digits,
    s = ("group " ++ digits)%string /\
    digits <> EmptyString /\
    forall c, In c (list_ascii_of_string digits) -> (48 <= N_of_ascii c <= 57)%N.
Proof.
  intros s. rewrite matchGroupDigits_spec. split.
  - intros (d & ds & -> & Hd & Hds). exists (String d ds).
    split; [reflexivity|]. split; [discriminate|].
    intros c [<-|Hc]; apply isDigit_spec; [exact Hd|].
    now apply (proj1 (allDigits_spec ds) Hds).
  - intros (digits & -> & Hne & Hall). destruct digits as [|d ds]; [congruence|].
    exists d, ds. split; [reflexivity|]. split.
    + apply isDigit_spec, Hall. now left.
    + apply allDigits_spec. intros c Hc. apply isDigit_spec, Hall. now right.
Qed.

(** C5: the broad classifier of clean-duplicates in suspicious mode
    flags a host name exactly when the narrow classifier of
    analyze-duplicates flags it or its lower-cased form matches
    [^group \d+$], that is, consists of the word group, one space and one
    or more digits and nothing else; a [null] host name makes both throw.
    ["Group 8"] and ["Group 12"] are flagged by the broad classifier only,
    ["LOC downtown"] by both; a host name that goes on after the digits,
    has no digit, or has text before the word is flagged by neither.  Of
    the rows Loc A, Group 3-4, Group 8, Normal Host the narrow one keeps
    the first two and the broad one the first three. *)
Theorem broad_classifier_extends_narrow :
  (forall name,
     suspiciousHostBroad name = true <->
     suspiciousHost name = true \/
     exists digits,
       JS.toLowerCase name = ("group " ++ digits)%string /\
       digits <> EmptyString /\
       forall c, In c (list_ascii_of_string digits) -> (48 <= N_of_ascii c <= 57)%N) /\
  suspiciousHostBroad "Group 12" = true /\
  suspiciousHost "Group 12" = false /\
  suspiciousHostBroad "group 8th street" = false /\
  suspiciousHostBroad "Group 8 " = false /\
  suspiciousHostBroad "Group " = false /\
  suspiciousHostBroad "Group8" = false /\
  suspiciousHostBroad "my group 8" = false /\
  (forall name,
     suspiciousHostBroad name =
     suspiciousHost name || matchGroupDigits (JS.toLowerCase name)) /\
  (forall c,
     onHostName suspiciousHostBroad c =
     match onHostName suspiciousHost c with
     | Some narrow => Some (narrow || hostSatisfies (fun name => matchGroupDigits (JS.toLowerCase name)) c)
     | None => None
     end) /\
  suspiciousHostBroad "Group 8" = true /\
  suspiciousHost "Group 8" = false /\
  suspiciousHostBroad "LOC downtown" = true /\
  suspiciousHost "LOC downtown" = true /\
  filterThrowing (onHostName suspiciousHost)
    [Sample.locA; Sample.group34; Sample.group8; Sample.normalHost] =
  Some [Sample.locA; Sample.group34] /\
  candidatesFor "suspicious"
    [Sample.locA; Sample.group34; Sample.group8; Sample.normalHost] =
  Some [Sample.locA; Sample.group34; Sample.group8].
Proof.
  assert (Hname : forall name,
             suspiciousHostBroad name =
             suspiciousHost name || matchGroupDigits (JS.toLowerCase name)).
  { intros name. unfold suspiciousHostBroad, suspiciousHost.
    destruct (JS.startsWith (JS.toLowerCase name) "loc ");
      destruct (matchGroupDigitDashDigit (JS.toLowerCase name));
      destruct (matchGroupDigits (JS.toLowerCase name));
      destruct (JS.includes (JS.toLowerCase name) "test");
      destruct (JS.includes (JS.toLowerCase name) "duplicate"); reflexivity. }
  split.
  { intros name. rewrite Hname, orb_true_iff, matchGroupDigits_digits. reflexivity. }
  do 7 (split; [reflexivity|]).
  split; [exact Hname|]. split.
  - intros c. unfold onHostName, hostSatisfies.
    destruct (hostName c) as [name|]; [now rewrite Hname | reflexivity].
  - repeat split; reflexivity.
Qed.

(** ** Partial failures of the deletion loops *)

(** C7: in clean-duplicates and in batch-delete every candidate is
    passed to the store in turn, whatever the earlier calls did: the
    results of the run are as many as the candidates and the store is left
    as the whole run leaves it.  [deletedCount] is the number of calls
    that returned true, every call that threw adds one message (in
    batch-delete every call that did not delete does), and the response
    shows the first five messages at most. *)
Theorem partial_failure_isolation :
  forall (Store : Type) (getAll : Store -> list CollectionRecord)
         (del : Z -> Store -> DeleteResult * Store) (store : Store)
         (mode : string) (cands : list CollectionRecord) (ids : list Z),
  candidatesFor mode (getAll store) = Some cands ->
  ids <> [] ->
  (let sorted := JS.sort byIdDesc cands in
   let run := deleteAll del (map id sorted) store in
   let messages := cleanMessages (map id sorted) (fst run) in
   exists body,
     cleanDuplicates getAll del (Some mode) store = (Ok body, snd run) /\
     Permutation sorted cands /\
     List.length (fst run) = List.length cands /\
     Cleaned.deletedCount body = countDeleted (fst run) /\
     List.length messages = countThrown (fst run) /\
     Cleaned.errors body = surfacedErrors messages /\
     (forall shown, Cleaned.errors body = Some shown ->
                    shown = firstn 5 messages /\ (List.length shown <= 5)%nat)) /\
  (let sorted := JS.sort byNumberDesc ids in
   let run := deleteAll del sorted store in
   let messages := batchMessages sorted (fst run) in
   exists body,
     batchDelete del (Some ids) store = (Ok body, snd run) /\
     Permutation sorted ids /\
     List.length (fst run) = List.length ids /\
     Batch.deletedCount body = countDeleted (fst run) /\
     (List.length messages + countDeleted (fst run))%nat = List.length ids /\
     (countThrown (fst run) <= List.length messages)%nat /\
     Batch.errors body = surfacedErrors messages /\
     (forall shown, Batch.errors body = Some shown ->
                    shown = firstn 5 messages /\ (List.length shown <= 5)%nat)).
Proof.
  intros Store getAll del store mode cands ids Hc Hne. split.
  - intros sorted run messages.
    pose proof (cleanDuplicates_run getAll del (Some mode) store cands Hc) as Hrun.
    cbv zeta in Hrun. fold sorted in Hrun. fold run in Hrun. fold messages in Hrun.
    assert (Hlen : List.length (fst run) = List.length cands).
    { unfold run. rewrite deleteAll_length, length_map. apply sort_length. }
    eexists. split; [exact Hrun|]. simpl.
    split; [apply Permutation_sym, sort_perm|].
    split; [exact Hlen|]. split; [reflexivity|].
    split.
    { apply cleanMessages_length. rewrite length_map. unfold sorted.
      now rewrite sort_length. }
    split; [reflexivity|].
    intros shown Hs. apply surfacedErrors_bound in Hs. tauto.
  - intros sorted run messages.
    pose proof (batchDelete_run del store ids Hne) as Hrun.
    cbv zeta in Hrun. fold sorted in Hrun. fold run in Hrun. fold messages in Hrun.
    assert (Hlen : List.length (fst run) = List.length ids).
    { unfold run. rewrite deleteAll_length. apply sort_length. }
    assert (Hmsg : (List.length messages + countDeleted (fst run))%nat
                   = List.length ids).
    { rewrite <- Hlen. apply batchMessages_length. unfold sorted.
      rewrite sort_length. now symmetry. }
    eexists. split; [exact Hrun|]. simpl.
    split; [apply Permutation_sym, sort_perm|].
    split; [exact Hlen|]. split; [reflexivity|].
    split; [exact Hmsg|].
    split.
    { assert (Hsum : (countThrown (fst run) + countDeleted (fst run)
                      <= List.length (fst run))%nat).
      { unfold countThrown, countDeleted. generalize (fst run) as rs.
        induction rs as [|[[|]|e] rs IH]; simpl; lia. }
      lia. }
    split; [reflexivity|].
    intros shown Hs. apply surfacedErrors_bound in Hs. tauto.
Qed.

(** Of the candidates Loc A (31), Group 3-4 (32) and Group 8 (33), the
    delete of 32 throws: 33 and 31 are deleted all the same, and the one
    message names 32. *)
Lemma partial_failure_isolation_witness :
  let snapshot := [Sample.locA; Sample.group34; Sample.group8; Sample.normalHost] in
  let getAll := ScriptedStore.getAllSandwichCollections snapshot in
  let del := ScriptedStore.deleteSandwichCollection Sample.failsOn32 in
  candidatesFor "suspicious" (getAll []) =
    Some [Sample.locA; Sample.group34; Sample.group8] /\
  [31; 32; 33] <> [] /\
  (exists body,
     cleanDuplicates getAll del (Some "suspicious") [] = (Ok body, [33; 32; 31]) /\
     Cleaned.deletedCount body = 2%nat /\
     Cleaned.errors body =
       Some ["Failed to delete collection 32: connection reset"%string]) /\
  (exists body,
     batchDelete del (Some [31; 32; 33]) [] = (Ok body, [33; 32; 31]) /\
     Batch.deletedCount body = 2%nat /\
     Batch.errors body =
       Some ["Failed to delete collection 32: connection reset"%string]).
Proof.
  intros snapshot getAll del.
  split; [reflexivity|]. split; [discriminate|].
  destruct (partial_failure_isolation
              ScriptedStore.t getAll del [] "suspicious"
              [Sample.locA; Sample.group34; Sample.group8] [31; 32; 33]
              eq_refl ltac:(discriminate))
    as [(b1 & Hr1 & _ & _ & Hd1 & _ & He1 & _)
        (b2 & Hr2 & _ & _ & Hd2 & _ & _ & He2 & _)].
  split.
  - exists b1. rewrite Hr1, Hd1, He1. repeat split; reflexivity.
  - exists b2. rewrite Hr2, Hd2, He2. repeat split; reflexivity.
Defined.

(** C8: in clean-duplicates [deletedCount] is the number of delete
    calls that returned true and [totalFound] the number of candidates.
    The messages the handler collects are those of the calls that threw,
    one for each in call order, and [errors] shows their first five: a
    call that returned false adds nothing to the count and no message,
    whatever the other calls did, so [errors] is absent unless a call
    threw. *)
Theorem deleted_count_counts_truthy :
  forall (Store : Type) (getAll : Store -> list CollectionRecord)
         (del : Z -> Store -> DeleteResult * Store) (store : Store)
         (mode : string) (cands : list CollectionRecord),
  candidatesFor mode (getAll store) = Some cands ->
  let sorted := JS.sort byIdDesc cands in
  let run := deleteAll del (map id sorted) store in
  exists body,
    cleanDuplicates getAll del (Some mode) store = (Ok body, snd run) /\
    List.length (fst run) = List.length cands /\
    Cleaned.deletedCount body = List.length (filter wasDeleted (fst run)) /\
    Cleaned.totalFound body = List.length cands /\
    (forall i, wasDeleted (Returned false) = false /\
               cleanMessage i (Returned false) = []) /\
    (Cleaned.errors body = None <-> countThrown (fst run) = 0%nat) /\
    (let messages :=
       flat_map (fun call : Z * DeleteResult =>
                   match snd call with
                   | Threw error =>
                       [("Failed to delete collection " ++
                         JS.numberToString (fst call) ++ ": " ++
                         errorMessage error)%string]
                   | Returned _ => []
                   end)
                (combine (map id sorted) (fst run)) in
     Cleaned.errors body =
       match messages with
       | [] => None
       | _ :: _ => Some (firstn 5 messages)
       end /\
     List.length messages =
       List.length (filter (fun result => match result with
                                          | Threw _ => true
                                          | Returned _ => false
                                          end) (fst run))) /\
    ((forall result, In result (fst run) -> exists deleted, result = Returned deleted) ->
     Cleaned.errors body = None /\
     Cleaned.deletedCount body =
       List.length (filter (fun result => match result with
                                          | Returned true => true
                                          | _ => false
                                          end) (fst run))).
Proof.
  intros Store getAll del store mode cands Hc sorted run.
  pose proof (cleanDuplicates_run getAll del (Some mode) store cands Hc) as Hrun.
  cbv zeta in Hrun. fold sorted in Hrun. fold run in Hrun.
  eexists. split; [exact Hrun|]. simpl.
  split.
  { unfold run. rewrite deleteAll_length, length_map. apply sort_length. }
  split; [reflexivity|]. split; [reflexivity|].
  split; [intros i; split; reflexivity|].
  assert (Hlen : List.length (map id sorted) = List.length (fst run))
    by (unfold run; now rewrite deleteAll_length).
  assert (Hnone : surfacedErrors (cleanMessages (map id sorted) (fst run)) = None <->
                  countThrown (fst run) = 0%nat).
  { rewrite surfacedErrors_none.
    rewrite <- (cleanMessages_length (map id sorted) (fst run) Hlen).
    symmetry. apply length_zero_iff_nil. }
  split; [exact Hnone|].
  split.
  { change (flat_map _ (combine (map id sorted) (fst run)))
      with (cleanMessages (map id sorted) (fst run)).
    split.
    - unfold surfacedErrors, JS.slice0.
      destruct (cleanMessages (map id sorted) (fst run)); reflexivity.
    - exact (cleanMessages_length (map id sorted) (fst run) Hlen). }
  intros Hall. split; [|reflexivity].
  apply Hnone. unfold countThrown.
  apply length_zero_iff_nil.
  destruct (filter hasThrown (fst run)) as [|r rs] eqn:E; [reflexivity|].
  assert (Hr : In r (filter hasThrown (fst run))) by (rewrite E; now left).
  apply filter_In in Hr as [Hin Ht].
  destruct (Hall r Hin) as [deleted ->]. discriminate.
Qed.

(** Row 33 is reported missing by the store and the delete of row 32
    throws: one of the three candidates is counted, three are found, and
    the only message is that of row 32. *)
Lemma deleted_count_counts_truthy_witness :
  let snapshot := [Sample.locA; Sample.group34; Sample.group8; Sample.normalHost] in
  let getAll := ScriptedStore.getAllSandwichCollections snapshot in
  let del := ScriptedStore.deleteSandwichCollection
               (fun i => if i =? 33 then Returned false else Sample.failsOn32 i) in
  candidatesFor "suspicious" (getAll []) =
    Some [Sample.locA; Sample.group34; Sample.group8] /\
  exists body,
    cleanDuplicates getAll del (Some "suspicious") [] = (Ok body, [33; 32; 31]) /\
    Cleaned.deletedCount body = 1%nat /\
    Cleaned.totalFound body = 3%nat /\
    Cleaned.errors body =
      Some ["Failed to delete collection 32: connection reset"%string].
Proof.
  intros snapshot getAll del. split; [reflexivity|].
  destruct (deleted_count_counts_truthy
              ScriptedStore.t getAll del [] "suspicious"
              [Sample.locA; Sample.group34; Sample.group8] eq_refl)
    as (body & Hr & _ & Hd & Ht & _ & _ & [He _] & _).
  exists body. rewrite Hr, Hd, Ht, He. repeat split; reflexivity.
Defined.

(** ** The bulk delete *)




(** ** A mode without a branch *)

(** C10: with a mode other than ["exact"] and ["suspicious"] the
    candidate list stays empty: clean-duplicates calls no delete, leaves
    the store as it is and answers with zero deleted, zero found, no
    errors and the mode it was given. *)
Theorem unknown_mode_deletes_nothing :
  forall (Store : Type) (getAll : Store -> list CollectionRecord)
         (del : Z -> Store -> DeleteResult * Store) (store : Store)
         (mode : string),
  mode <> "exact"%string ->
  mode <> "suspicious"%string ->
  candidatesFor mode (getAll store) = Some [] /\
  deleteAll del (map id (JS.sort byIdDesc [])) store = ([], store) /\
  cleanDuplicates getAll del (Some mode) store =
  (Ok {| Cleaned.message :=
           "Successfully cleaned 0 duplicate entries using " ++ mode ++ " mode";
         Cleaned.deletedCount := 0;
         Cleaned.totalFound := 0;
         Cleaned.errors := None;
         Cleaned.mode := mode |},
   store).
Proof.
  intros Store getAll del store mode Hexact Hsusp.
  assert (Hc : candidatesFor mode (getAll store) = Some []).
  { unfold candidatesFor.
    destruct (String.eqb_spec mode "exact"); [contradiction|].
    destruct (String.eqb_spec mode "suspicious"); [contradiction|]. reflexivity. }
  split; [exact Hc|]. split; [reflexivity|].
  rewrite (cleanDuplicates_run getAll del (Some mode) store [] Hc). reflexivity.
Qed.

(** The mode named in the comment of the handler, on a store that logs
    its delete calls: the log stays empty. *)
Lemma unknown_mode_deletes_nothing_witness :
  let snapshot := [Sample.twinA; Sample.twinB; Sample.locA] in
  let getAll := ScriptedStore.getAllSandwichCollections snapshot in
  let del := ScriptedStore.deleteSandwichCollection (fun _ => Returned true) in
  "og-duplicates"%string <> "exact"%string /\
  "og-duplicates"%string <> "suspicious"%string /\
  cleanDuplicates getAll del (Some "og-duplicates") [] =
  (Ok {| Cleaned.message :=
           "Successfully cleaned 0 duplicate entries using og-duplicates mode";
         Cleaned.deletedCount := 0;
         Cleaned.totalFound := 0;
         Cleaned.errors := None;
         Cleaned.mode := "og-duplicates" |},
   []).
Proof.
  intros snapshot getAll del.
  split; [discriminate|]. split; [discriminate|].
  apply (unknown_mode_deletes_nothing ScriptedStore.t getAll del []
           "og-duplicates"); discriminate.
Defined.

(** ** The map of groups *)

Section GroupFacts.
Context {V : Type}.
Variable keyOf : V -> string.

Local Abbreviation sharing k := (fun x => String.eqb (keyOf x) k).

Lemma groupBy_snoc : forall items x,
  groupBy keyOf (items ++ [x]) = mapPush (keyOf x) x (groupBy keyOf items).
Proof. intros items x. unfold groupBy. now rewrite fold_left_app. Qed.

Lemma mapGet_mapPush_same : forall k (v : V) m,
  mapGet k (mapPush k v m) =
  Some (match mapGet k m with Some vs => vs ++ [v] | None => [v] end).
Proof.
  induction m as [|[k' vs] m IH]; simpl.
  - now rewrite String.eqb_refl.
  - destruct (String.eqb k k') eqn:E; simpl; rewrite E; [reflexivity|exact IH].
Qed.

Lemma mapGet_mapPush_other : forall k k' (v : V) m,
  k <> k' -> mapGet k' (mapPush k v m) = mapGet k' m.
Proof.
  intros k k' v m Hne. induction m as [|[k0 vs] m IH]; simpl.
  - destruct (String.eqb_spec k' k); [congruence|reflexivity].
  - destruct (String.eqb_spec k k0) as [->|Hk]; simpl.
    + destruct (String.eqb_spec k' k0); [congruence|reflexivity].
    + now rewrite IH.
Qed.

Lemma mapPush_keys : forall k (v : V) m,
  map fst (mapPush k v m) =
  if mapHas k m then map fst m else map fst m ++ [k].
Proof.
  induction m as [|[k' vs] m IH]; simpl; [reflexivity|].
  destruct (String.eqb k k'); simpl; [reflexivity|].
  rewrite IH. now destruct (mapHas k m).
Qed.

Lemma mapHas_In : forall k (m : GroupMap V),
  mapHas k m = true <-> In k (map fst m).
Proof.
  induction m as [|[k' vs] m IH]; simpl; [split; [discriminate|tauto]|].
  rewrite orb_true_iff, IH.
  destruct (String.eqb_spec k k'); intuition congruence.
Qed.

Lemma mapPush_keys_NoDup : forall k (v : V) m,
  NoDup (map fst m) -> NoDup (map fst (mapPush k v m)).
Proof.
  intros k v m Hnd. rewrite mapPush_keys.
  destruct (mapHas k m) eqn:E; [exact Hnd|].
  apply NoDup_app; [exact Hnd|repeat constructor; simpl; tauto|].
  intros a Ha [<-|[]]. apply mapHas_In in Ha. congruence.
Qed.

Lemma groupBy_keys_NoDup : forall items, NoDup (map fst (groupBy keyOf items)).
Proof.
  induction items as [|x items IH] using rev_ind; [constructor|].
  rewrite groupBy_snoc. now apply mapPush_keys_NoDup.
Qed.

(** Under a key the map holds the items with that key, in scan order. *)
Lemma mapGet_groupBy : forall items k,
  mapGet k (groupBy keyOf items) =
  match filter (sharing k) items with
  | [] => None
  | group => Some group
  end.
Proof.
  induction items as [|x items IH] using rev_ind; intros k; [reflexivity|].
  rewrite groupBy_snoc, filter_app. simpl.
  destruct (String.eqb_spec (keyOf x) k) as [<-|Hne].
  - rewrite mapGet_mapPush_same, IH.
    destruct (filter (sharing (keyOf x)) items); reflexivity.
  - rewrite mapGet_mapPush_other, IH, app_nil_r by exact Hne. reflexivity.
Qed.

Lemma mapGet_In : forall k g (m : GroupMap V),
  mapGet k m = Some g -> In (k, g) m.
Proof.
  induction m as [|[k' vs] m IH]; simpl; [discriminate|].
  destruct (String.eqb_spec k k') as [->|Hne]; intros H.
  - injection H as ->. now left.
  - right. now apply IH.
Qed.

Lemma In_mapGet : forall k g (m : GroupMap V),
  NoDup (map fst m) -> In (k, g) m -> mapGet k m = Some g.
Proof.
  induction m as [|[k' vs] m IH]; simpl; [tauto|].
  intros Hnd [H|H]; inversion Hnd as [|? ? Hnotin Hnd']; subst.
  - injection H as -> ->. now rewrite String.eqb_refl.
  - destruct (String.eqb_spec k k') as [->|Hne]; [|now apply IH].
    exfalso. apply Hnotin. apply in_map_iff. now exists (k', g).
Qed.

(** The entries of the map: one per key that occurs, holding the items
    with that key. *)
Lemma groupBy_In : forall items k g,
  In (k, g) (groupBy keyOf items) <->
  g = filter (sharing k) items /\ g <> [].
Proof.
  intros items k g. split.
  - intros Hin. apply In_mapGet in Hin; [|apply groupBy_keys_NoDup].
    rewrite mapGet_groupBy in Hin.
    destruct (filter (sharing k) items) eqn:E; [discriminate|].
    injection Hin as <-. split; [reflexivity|discriminate].
  - intros [-> Hne]. apply mapGet_In. rewrite mapGet_groupBy.
    destruct (filter (sharing k) items); [congruence|reflexivity].
Qed.

Lemma groupBy_member_key : forall items k g x,
  In (k, g) (groupBy keyOf items) -> In x g -> keyOf x = k /\ In x items.
Proof.
  intros items k g x Hin Hx. apply groupBy_In in Hin as [-> _].
  apply filter_In in Hx as [Hx Hk]. split; [now apply String.eqb_eq|exact Hx].
Qed.

Lemma groupBy_covers : forall items x,
  In x items ->
  exists g, In (keyOf x, g) (groupBy keyOf items) /\ In x g.
Proof.
  intros items x Hx. exists (filter (sharing (keyOf x)) items).
  assert (Hin : In x (filter (sharing (keyOf x)) items)).
  { apply filter_In. split; [exact Hx|apply String.eqb_refl]. }
  split; [|exact Hin]. apply groupBy_In. split; [reflexivity|].
  intros E. rewrite E in Hin. contradiction.
Qed.

Lemma mapPush_concat : forall k (v : V) m,
  Permutation (List.concat (mapValues (mapPush k v m))) (v :: List.concat (mapValues m)).
Proof.
  unfold mapValues. induction m as [|[k' vs] m IH]; simpl; [constructor; constructor|].
  destruct (String.eqb k k'); simpl.
  - rewrite <- app_assoc. simpl. apply Permutation_sym, Permutation_middle.
  - eapply perm_trans; [apply Permutation_app_head, IH|].
    apply Permutation_sym, Permutation_middle.
Qed.

(** The groups partition the items. *)
Lemma groupBy_partition : forall items,
  Permutation items (List.concat (mapValues (groupBy keyOf items))).
Proof.
  induction items as [|x items IH] using rev_ind; [constructor|].
  rewrite groupBy_snoc.
  eapply perm_trans; [|apply Permutation_sym, mapPush_concat].
  eapply perm_trans; [apply Permutation_app_comm|]. simpl. now constructor.
Qed.
End GroupFacts.

(** ** Numbers in keys *)

Lemma to_int_proper : forall n,
  Z.to_int n <> Decimal.Pos Decimal.Nil /\ Z.to_int n <> Decimal.Neg Decimal.Nil.
Proof.
  intros [|p|p]; simpl; split; try discriminate; intros H; injection H;
    apply DecimalPos.Unsigned.to_uint_nonnil.
Qed.

Lemma numberToString_inj : forall n m,
  JS.numberToString n = JS.numberToString m -> n = m.
Proof.
  unfold JS.numberToString. intros n m H.
  apply (f_equal NilZero.int_of_string) in H.
  destruct (to_int_proper n) as [Hn1 Hn2], (to_int_proper m) as [Hm1 Hm2].
  rewrite !NilZero.isi in H by assumption.
  injection H as H. apply (f_equal Z.of_int) in H.
  now rewrite !DecimalZ.of_to in H.
Qed.

Lemma string_of_uint_digits : forall d,
  JS.allDigits (NilEmpty.string_of_uint d) = true.
Proof. induction d; simpl; auto. Qed.

(** A count that is not negative prints as digits only. *)
Lemma numberToString_digits : forall n,
  0 <= n -> JS.allDigits (JS.numberToString n) = true.
Proof.
  unfold JS.numberToString. intros [|p|p] Hn; [reflexivity| |lia].
  simpl. unfold NilZero.string_of_uint.
  destruct (Pos.to_uint p); try reflexivity; apply string_of_uint_digits.
Qed.

Lemma allDigits_no_dash : forall a b,
  JS.allDigits (a ++ String "-" b) = false.
Proof.
  induction a as [|c a IH]; intros b; simpl; [reflexivity|].
  rewrite IH. apply andb_false_r.
Qed.

(** A dash followed by digits at the end of a string marks one place. *)
Lemma dash_digits_split : forall s1 s2 t1 t2,
  JS.allDigits t1 = true -> JS.allDigits t2 = true ->
  (s1 ++ String "-" t1 = s2 ++ String "-" t2)%string ->
  s1 = s2 /\ t1 = t2.
Proof.
  induction s1 as [|c s1 IH]; intros [|c' s2] t1 t2 H1 H2 E; simpl in E.
  - injection E as ->. now split.
  - injection E as <- ->. now rewrite allDigits_no_dash in H1.
  - injection E as -> <-. now rewrite allDigits_no_dash in H2.
  - injection E as <- E. destruct (IH s2 t1 t2 H1 H2 E) as [-> ->]. now split.
Qed.

(** Among entries whose counts are not negative the OG key stands for
    the pair of date and count. *)
Lemma ogKey_inj : forall a b,
  0 <= individualSandwiches a -> 0 <= individualSandwiches b ->
  (ogKey a = ogKey b <->
   collectionDate a = collectionDate b /\
   individualSandwiches a = individualSandwiches b).
Proof.
  intros a b Ha Hb. unfold ogKey. split.
  - intros E. apply dash_digits_split in E as [Hd Hn];
      try now apply numberToString_digits.
    split; [exact Hd | now apply numberToString_inj].
  - intros [-> ->]. reflexivity.
Qed.

(** ** Exact duplicate groups *)

(** Rows that agree on the four fields have the same key. *)
Lemma equal_fields_same_key : forall a b,
  collectionDate a = collectionDate b ->
  hostName a = hostName b ->
  individualSandwiches a = individualSandwiches b ->
  groupCollections a = groupCollections b ->
  duplicateKey a = duplicateKey b.
Proof. intros a b Hd Hh Hn Hg. unfold duplicateKey. now rewrite Hd, Hh, Hn, Hg. Qed.

(** Two rows of the snapshot lie in one group exactly when their keys are
    the same string. *)
Lemma same_group_iff_same_key : forall collections a b,
  In a collections -> In b collections ->
  ((exists group, In group (mapValues (groupBy duplicateKey collections)) /\
                  In a group /\ In b group) <->
   duplicateKey a = duplicateKey b).
Proof.
  intros collections a b Ha Hb. split.
  - intros (group & Hg & Hag & Hbg).
    apply in_map_iff in Hg as ([k g] & <- & Hin). simpl in *.
    destruct (groupBy_member_key _ _ _ _ _ Hin Hag) as [-> _].
    destruct (groupBy_member_key _ _ _ _ _ Hin Hbg) as [E _]. now symmetry.
  - intros E.
    destruct (groupBy_covers duplicateKey collections a Ha) as (g & Hin & Hag).
    exists g. split; [apply in_map_iff; now exists (duplicateKey a, g)|].
    split; [exact Hag|].
    apply groupBy_In in Hin as [-> _]. apply filter_In. split; [exact Hb|].
    rewrite E. apply String.eqb_refl.
Qed.

(** The report lists the groups of more than one row, and only those. *)
Lemma reportDuplicates_In : forall duplicateGroups d,
  In d (reportDuplicates duplicateGroups) <->
  exists group, In group (mapValues duplicateGroups) /\
                (1 < List.length group)%nat /\ d = duplicateReport group.
Proof.
  intros m d. unfold reportDuplicates. rewrite in_map_iff. split.
  - intros (g & <- & Hg). apply filter_In in Hg as [Hg Hlen].
    exists g. repeat split; [exact Hg|now apply Nat.ltb_lt].
  - intros (g & Hg & Hlen & ->). exists g. split; [reflexivity|].
    apply filter_In. split; [exact Hg|now apply Nat.ltb_lt].
Qed.

(** C1: the key joins the four fields with dashes, so fields that
    contain a dash can be cut in two ways.  The rows [north] (host
    ["North"], count 5, groups ["7-Eleven: 5"]) and [north5] (host
    ["North-5"], count 7, groups ["Eleven: 5"]) differ in three of the four
    fields and have one key: the analysis reports them as one duplicate
    group, and the exact cleanup deletes [north]. *)
Theorem grouping_key_collision :
  hostName Sample.north <> hostName Sample.north5 /\
  individualSandwiches Sample.north <> individualSandwiches Sample.north5 /\
  groupCollections Sample.north <> groupCollections Sample.north5 /\
  duplicateKey Sample.north = duplicateKey Sample.north5 /\
  mapValues (groupBy duplicateKey [Sample.north; Sample.north5]) =
    [[Sample.north; Sample.north5]] /\
  (exists body,
     analyzeDuplicates [Sample.north; Sample.north5] = Ok body /\
     Analysis.duplicates body =
       [{| entries := [Sample.north5; Sample.north];
           count := 2;
           keepNewest := Some Sample.north5;
           toDelete := [Sample.north] |}]) /\
  (exists body,
     cleanDuplicates TableStore.getAllSandwichCollections
                     TableStore.deleteSandwichCollection
                     (Some "exact") [Sample.north; Sample.north5] =
     (Ok body, [Sample.north5]) /\
     Cleaned.deletedCount body = 1%nat).
Proof.
  repeat split; try discriminate; try reflexivity;
    eexists; split; reflexivity.
Qed.

(** ** The first loop of the analysis *)

Lemma scan_from_failure : forall collections,
  fold_left scanStep collections None = None.
Proof. induction collections as [|c cs IH]; simpl; [reflexivity|exact IH]. Qed.

Lemma scanStep_null : forall acc c, hostName c = None -> scanStep acc c = None.
Proof.
  intros [[m s]|] c Hnull; [|reflexivity].
  unfold scanStep, onHostName. now rewrite Hnull.
Qed.

(** A [null] host name anywhere in the snapshot ends the analysis with
    the reply of the [catch] block. *)
Lemma analyzeDuplicates_null_host : forall collections c,
  In c collections -> hostName c = None ->
  analyzeDuplicates collections = Failed 500 "Failed to analyze duplicates".
Proof.
  intros collections c Hin Hnull. unfold analyzeDuplicates.
  assert (Hscan : scanCollections collections = None); [|now rewrite Hscan].
  unfold scanCollections. generalize (Some (@nil (string * list CollectionRecord),
                                            @nil CollectionRecord)).
  induction collections as [|x cs IH]; intros acc; [contradiction|].
  cbn [fold_left]. destruct Hin as [->|Hin].
  - rewrite scanStep_null by exact Hnull. apply scan_from_failure.
  - now apply IH.
Qed.

Lemma scan_present : forall collections m s,
  hostsPresent collections ->
  fold_left scanStep collections (Some (m, s)) =
  Some (fold_left (fun m x => mapPush (duplicateKey x) x m) collections m,
        s ++ filter (hostSatisfies suspiciousHost) collections).
Proof.
  unfold hostsPresent.
  induction collections as [|c cs IH]; intros m s Hp; cbn [fold_left filter].
  - now rewrite app_nil_r.
  - assert (Hc : exists name, hostName c = Some name).
    { destruct (hostName c) as [name|] eqn:Hn; [now exists name|].
      exfalso. apply (Hp c); [now left|exact Hn]. }
    destruct Hc as [name Hn].
    assert (H1 : onHostName suspiciousHost c = Some (suspiciousHost name))
      by (unfold onHostName; now rewrite Hn).
    assert (H2 : hostSatisfies suspiciousHost c = suspiciousHost name)
      by (unfold hostSatisfies; now rewrite Hn).
    rewrite H2. unfold scanStep at 2. rewrite H1.
    destruct (suspiciousHost name);
      rewrite IH by (intros; apply Hp; now right);
      rewrite <- ?app_assoc; reflexivity.
Qed.

(** With strings as host names the loop fills the map of groups and
    collects the rows the narrow classifier flags. *)
Lemma scanCollections_present : forall collections,
  hostsPresent collections ->
  scanCollections collections =
  Some (groupBy duplicateKey collections,
        filter (hostSatisfies suspiciousHost) collections).
Proof.
  intros collections Hp. unfold scanCollections.
  now rewrite scan_present.
Qed.

Lemma analyzeDuplicates_present : forall collections,
  hostsPresent collections ->
  exists body,
    analyzeDuplicates collections = Ok body /\
    Analysis.duplicates body = reportDuplicates (groupBy duplicateKey collections) /\
    Analysis.suspiciousEntries body = filter (hostSatisfies suspiciousHost) collections /\
    Analysis.ogDuplicateEntries body = ogMatches collections.
Proof.
  intros collections Hp. unfold analyzeDuplicates.
  rewrite (scanCollections_present collections Hp).
  eexists. split; [reflexivity|]. simpl. repeat split.
Qed.

(** ** The OG matcher *)

Lemma hd_error_filter : forall (A : Type) (p : A -> bool) l,
  hd_error (filter p l) = find p l.
Proof.
  induction l as [|x l IH]; simpl; [reflexivity|].
  destruct (p x); [reflexivity|exact IH].
Qed.

(** The array stored under the key of an early entry starts with the
    first OG entry of the snapshot that has that key. *)
Lemma ogMap_first : forall collections early,
  match mapGet (ogKey early) (groupBy ogKey (filter isOgCollection collections)) with
  | Some ogEntries =>
      hd_error ogEntries =
        find (fun og => isOgCollection og && String.eqb (ogKey og) (ogKey early))
             collections /\
      ogEntries <> []
  | None =>
      find (fun og => isOgCollection og && String.eqb (ogKey og) (ogKey early))
           collections = None
  end.
Proof.
  intros collections early. rewrite mapGet_groupBy.
  rewrite <- hd_error_filter.
  assert (E : filter (fun x => String.eqb (ogKey x) (ogKey early))
                     (filter isOgCollection collections) =
              filter (fun og => isOgCollection og && String.eqb (ogKey og) (ogKey early))
                     collections).
  { induction collections as [|c cs IH]; simpl; [reflexivity|].
    destruct (isOgCollection c); simpl; [|exact IH].
    destruct (String.eqb (ogKey c) (ogKey early)); now rewrite IH. }
  rewrite E. clear E.
  destruct (filter _ collections); [reflexivity|].
  split; [reflexivity|discriminate].
Qed.

(** One OG entry and one early entry: a single pairing when the keys
    agree, nothing otherwise. *)
Lemma ogMatches_pair : forall og early,
  isOgCollection og = true -> isEarlyCollection early = true ->
  ogMatches [og; early] =
  if String.eqb (ogKey early) (ogKey og)
  then [OgEarlyMatch (Some og) early
          "Same date and sandwich count as OG Project entry"]
  else [].
Proof.
  intros og early Hog Hearly. unfold ogMatches.
  assert (Hog' : isEarlyCollection og = false).
  { unfold isEarlyCollection. now rewrite Hog. }
  assert (Hearly' : isOgCollection early = false).
  { unfold isEarlyCollection in Hearly.
    destruct (isOgCollection early); [discriminate|reflexivity]. }
  simpl. rewrite Hog, Hog', Hearly, Hearly'. simpl.
  destruct (String.eqb (ogKey early) (ogKey og)); reflexivity.
Qed.

(** For host names that are strings and counts that are not negative:
    the analysis of one OG entry and one early entry carries exactly one
    pairing when date and count agree and none when either differs. *)
Lemma analyze_og_pair : forall og early name,
  isOgCollection og = true -> isEarlyCollection early = true ->
  hostName early = Some name ->
  0 <= individualSandwiches og -> 0 <= individualSandwiches early ->
  exists body,
    analyzeDuplicates [og; early] = Ok body /\
    ((collectionDate early = collectionDate og /\
      individualSandwiches early = individualSandwiches og ->
      Analysis.ogDuplicateEntries body =
        [OgEarlyMatch (Some og) early
           "Same date and sandwich count as OG Project entry"]) /\
     (collectionDate early <> collectionDate og \/
      individualSandwiches early <> individualSandwiches og ->
      Analysis.ogDuplicateEntries body = [])).
Proof.
  intros og early name Hog Hearly Hname Hn1 Hn2.
  assert (Hp : hostsPresent [og; early]).
  { intros c [<-|[<-|[]]].
    - unfold isOgCollection in Hog. destruct (hostName og); [discriminate|discriminate].
    - congruence. }
  destruct (analyzeDuplicates_present _ Hp) as (body & Hb & _ & _ & Hm).
  exists body. split; [exact Hb|]. rewrite Hm, (ogMatches_pair og early Hog Hearly).
  pose proof (ogKey_inj early og Hn2 Hn1) as Hkey.
  destruct (String.eqb_spec (ogKey early) (ogKey og)) as [E|E]; split.
  - reflexivity.
  - intros Hd. apply Hkey in E. tauto.
  - intros Hd. exfalso. apply E, Hkey, Hd.
  - reflexivity.
Qed.

(** C6: the OG block pairs [earlyNull], whose host name is [null],
    with the OG entry of the same date and count, but the analysis never
    gets there: its first loop lower-cases every host name and throws on
    this one, and the handler answers 500. *)
Theorem og_matching_null_host :
  isOgCollection Sample.ogProject = true /\
  isEarlyCollection Sample.earlyNull = true /\
  collectionDate Sample.earlyNull = collectionDate Sample.ogProject /\
  individualSandwiches Sample.earlyNull = individualSandwiches Sample.ogProject /\
  ogMatches [Sample.ogProject; Sample.earlyNull] =
    [OgEarlyMatch (Some Sample.ogProject) Sample.earlyNull
       "Same date and sandwich count as OG Project entry"] /\
  scanCollections [Sample.ogProject; Sample.earlyNull] = None /\
  analyzeDuplicates [Sample.ogProject; Sample.earlyNull] =
    Failed 500 "Failed to analyze duplicates" /\
  (exists body,
     analyzeDuplicates [Sample.ogProject; Sample.earlyEmpty] = Ok body /\
     Analysis.ogDuplicateEntries body =
       [OgEarlyMatch (Some Sample.ogProject) Sample.earlyEmpty
          "Same date and sandwich count as OG Project entry"]).
Proof.
  repeat split; try reflexivity. eexists. split; reflexivity.
Qed.

(** ** Sorting a group by time stamp *)

(** A comparison with a time stamp that does not parse yields [NaN],
    which the sort reads as a tie. *)
Lemma bySubmittedAtDesc_unparsable : forall a b,
  submittedAt a = None \/ submittedAt b = None ->
  bySubmittedAtDesc a b = None /\ JS.SortCompare bySubmittedAtDesc a b = 0.
Proof.
  intros a b H. unfold JS.SortCompare, bySubmittedAtDesc.
  destruct H as [-> | ->]; destruct (submittedAt b), (submittedAt a); now split.
Qed.

Lemma bySubmittedAtDesc_parsed : forall a b ta tb,
  submittedAt a = Some ta -> submittedAt b = Some tb ->
  JS.SortCompare bySubmittedAtDesc a b = tb - ta.
Proof.
  intros a b ta tb Ha Hb. unfold JS.SortCompare, bySubmittedAtDesc.
  now rewrite Ha, Hb.
Qed.

(** When all time stamps of a group parse, the sorted group starts with
    the first row in scan order that carries the greatest time stamp. *)
Lemma sort_head_newest : forall group h rest,
  (forall r, In r group -> submittedAt r <> None) ->
  JS.sort bySubmittedAtDesc group = h :: rest ->
  exists pre post t,
    group = pre ++ h :: post /\
    submittedAt h = Some t /\
    (forall r, In r pre -> exists tr, submittedAt r = Some tr /\ tr < t) /\
    (forall r, In r post -> exists tr, submittedAt r = Some tr /\ tr <= t).
Proof.
  induction group as [|x group IH]; intros h rest Hp Hs; [discriminate|].
  assert (Hx : exists tx, submittedAt x = Some tx).
  { destruct (submittedAt x) as [tx|] eqn:E; [now exists tx|].
    exfalso. apply (Hp x); [now left|exact E]. }
  destruct Hx as [tx Hx].
  assert (Hp' : forall r, In r group -> submittedAt r <> None)
    by (intros; apply Hp; now right).
  simpl in Hs. destruct (JS.sort bySubmittedAtDesc group) as [|h' rest'] eqn:Hs'.
  - assert (group = []) as ->.
    { apply length_zero_iff_nil. rewrite <- (sort_length bySubmittedAtDesc), Hs'.
      reflexivity. }
    simpl in Hs. injection Hs as <- <-.
    exists [], [], tx. repeat split; [exact Hx| |]; intros r [].
  - destruct (IH h' rest' Hp' eq_refl) as (pre & post & t & Hg & Ht & Hpre & Hpost).
    simpl in Hs. rewrite (bySubmittedAtDesc_parsed x h' tx t Hx Ht) in Hs.
    destruct (Z.leb_spec (t - tx) 0) as [Hle|Hgt].
    + injection Hs as <- <-. exists [], group, tx.
      repeat split; [exact Hx|intros r []|].
      intros r Hr. rewrite Hg in Hr. apply in_app_or in Hr as [Hr|[<-|Hr]].
      * destruct (Hpre r Hr) as (tr & Hr1 & Hr2). exists tr. split; [exact Hr1|lia].
      * exists t. split; [exact Ht|lia].
      * destruct (Hpost r Hr) as (tr & Hr1 & Hr2). exists tr. split; [exact Hr1|lia].
    + injection Hs as <- <-. exists (x :: pre), post, t.
      split; [now rewrite Hg|]. split; [exact Ht|]. split; [|exact Hpost].
      intros r [<-|Hr]; [exists tx; split; [exact Hx|lia]|now apply Hpre].
Qed.

(** When all time stamps of a group parse, the sorted group is in
    descending order of time. *)
Lemma sort_bySubmittedAt_descending : forall group,
  (forall r, In r group -> submittedAt r <> None) ->
  StronglySorted
    (fun a b => match submittedAt a, submittedAt b with
                | Some ta, Some tb => tb <= ta
                | _, _ => False
                end)
    (JS.sort bySubmittedAtDesc group).
Proof.
  intros group Hp.
  pose (key := fun r => match submittedAt r with Some t => t | None => 0 end).
  assert (Hs : StronglySorted (fun a b => key b <= key a)
                              (JS.sort bySubmittedAtDesc group)).
  { apply sort_descending. intros a b Ha Hb. unfold key.
    destruct (submittedAt a) as [ta|] eqn:Ea; [|now apply Hp in Ha].
    destruct (submittedAt b) as [tb|] eqn:Eb; [|now apply Hp in Hb].
    apply (bySubmittedAtDesc_parsed a b ta tb Ea Eb). }
  assert (Hall : Forall (fun r => submittedAt r <> None)
                        (JS.sort bySubmittedAtDesc group)).
  { apply Forall_forall. intros r Hr. apply Hp. now apply sort_In in Hr. }
  induction Hs as [|x l Hs IH Hx]; [constructor|].
  inversion Hall as [|? ? Hx1 Hall']; subst.
  constructor; [now apply IH|].
  rewrite Forall_forall in *. intros z Hz. specialize (Hx z Hz).
  specialize (Hall' z Hz). unfold key in Hx.
  destruct (submittedAt x); [|congruence].
  destruct (submittedAt z); [exact Hx|congruence].
Qed.

Lemma sort_nonempty : forall (A : Type) (cmp : A -> A -> option Z) l,
  l <> [] -> exists h rest, JS.sort cmp l = h :: rest.
Proof.
  intros A cmp l Hne. destruct (JS.sort cmp l) as [|h rest] eqn:E; [|now exists h, rest].
  exfalso. apply Hne, length_zero_iff_nil.
  now rewrite <- (sort_length cmp), E.
Qed.

(** What the exact mode takes from a group is the tail of the sorted
    group; a group of one row has an empty tail. *)
Lemma candidates_of_group : forall group : list CollectionRecord,
  (if (1 <? List.length group)%nat
   then JS.slice1 (JS.sort bySubmittedAtDesc group)
   else []) = tl (JS.sort bySubmittedAtDesc group).
Proof.
  intros group. destruct (Nat.ltb_spec 1 (List.length group)) as [H|H]; [reflexivity|].
  pose proof (sort_length bySubmittedAtDesc group) as Hl.
  destruct (JS.sort bySubmittedAtDesc group) as [|h [|h' rest]]; simpl in *;
    try reflexivity; lia.
Qed.

Lemma exactCandidates_In : forall collections c,
  In c (exactCandidates collections) <->
  exists k group, In (k, group) (groupBy duplicateKey collections) /\
                  In c (tl (JS.sort bySubmittedAtDesc group)).
Proof.
  intros collections c. unfold exactCandidates, mapValues.
  rewrite in_flat_map. split.
  - intros (g & Hg & Hc). apply in_map_iff in Hg as ([k g'] & <- & Hin).
    simpl in Hc. rewrite candidates_of_group in Hc. now exists k, g'.
  - intros (k & g & Hin & Hc). exists g. split.
    + apply in_map_iff. now exists (k, g).
    + now rewrite candidates_of_group.
Qed.

Lemma exactCandidates_incl : forall collections c,
  In c (exactCandidates collections) -> In c collections.
Proof.
  intros collections c Hc. apply exactCandidates_In in Hc as (k & g & Hin & Hc).
  apply (groupBy_member_key duplicateKey collections k g c Hin).
  apply (sort_In bySubmittedAtDesc). destruct (JS.sort bySubmittedAtDesc g); [destruct Hc|].
  now right.
Qed.

(** The head of a sorted group is not a candidate of the exact mode. *)
Lemma kept_not_candidate : forall collections k group h rest,
  NoDup collections ->
  In (k, group) (groupBy duplicateKey collections) ->
  JS.sort bySubmittedAtDesc group = h :: rest ->
  ~ In h (exactCandidates collections).
Proof.
  intros collections k group h rest Hnd Hin Hs Hc.
  apply exactCandidates_In in Hc as (k' & g' & Hin' & Hc).
  assert (Hh : In h group).
  { apply (sort_In bySubmittedAtDesc). rewrite Hs. now left. }
  assert (Hh' : In h g').
  { apply (sort_In bySubmittedAtDesc).
    destruct (JS.sort bySubmittedAtDesc g'); [destruct Hc|now right]. }
  destruct (groupBy_member_key _ _ _ _ _ Hin Hh) as [Hk _].
  destruct (groupBy_member_key _ _ _ _ _ Hin' Hh') as [Hk' _].
  assert (k' = k) as -> by congruence.
  assert (g' = group) as ->.
  { apply groupBy_In in Hin as [E _]. apply groupBy_In in Hin' as [E' _].
    now rewrite E, E'. }
  rewrite Hs in Hc. simpl in Hc.
  assert (Hnd' : NoDup (h :: rest)).
  { rewrite <- Hs. apply (Permutation_NoDup (sort_perm bySubmittedAtDesc group)).
    apply groupBy_In in Hin as [-> _]. now apply NoDup_filter. }
  inversion Hnd'. contradiction.
Qed.

Lemma NoDup_map_eq : forall (A B : Type) (f : A -> B) l a b,
  NoDup (map f l) -> In a l -> In b l -> f a = f b -> a = b.
Proof.
  induction l as [|x l IH]; intros a b Hnd Ha Hb E; [contradiction|].
  simpl in Hnd. inversion Hnd as [|? ? Hnotin Hnd']; subst.
  destruct Ha as [->|Ha], Hb as [->|Hb]; try reflexivity.
  - exfalso. apply Hnotin. rewrite E. now apply in_map.
  - exfalso. apply Hnotin. rewrite <- E. now apply in_map.
  - now apply IH.
Qed.

(** ** Which record of a duplicate group is kept *)

(** C2, as the code has it: in a snapshot with unique ids, every group
    of two or more rows whose own time stamps all parse is reported,
    whatever the time stamps of the rows of other groups; its kept row
    carries the greatest time stamp of the group and is the first such row
    in scan order; it is neither in [toDelete] nor among the candidates of
    the exact mode, and all other rows of the group, later rows with the
    same time stamp included, are in both. *)
Theorem keep_newest_when_parsed :
  forall collections group,
  NoDup (map id collections) ->
  In group (mapValues (groupBy duplicateKey collections)) ->
  (forall r, In r group -> submittedAt r <> None) ->
  (2 <= List.length group)%nat ->
  exists kept t pre post,
    In (duplicateReport group) (reportDuplicates (groupBy duplicateKey collections)) /\
    keepNewest (duplicateReport group) = Some kept /\
    group = pre ++ kept :: post /\
    submittedAt kept = Some t /\
    (forall r, In r pre -> exists tr, submittedAt r = Some tr /\ tr < t) /\
    (forall r, In r post -> exists tr, submittedAt r = Some tr /\ tr <= t) /\
    Permutation (toDelete (duplicateReport group)) (pre ++ post) /\
    ~ In kept (toDelete (duplicateReport group)) /\
    (forall d, In d (toDelete (duplicateReport group)) -> id d <> id kept) /\
    ~ In kept (exactCandidates collections) /\
    (forall d, In d (toDelete (duplicateReport group)) ->
               In d (exactCandidates collections)).
Proof.
  intros collections group Hids Hg Hp Hlen.
  apply in_map_iff in Hg as ([k g] & Hgk & Hin). simpl in Hgk. subst g.
  assert (Hrec : NoDup collections) by (eapply NoDup_map_inv; exact Hids).
  assert (Hsub : forall r, In r group -> In r collections)
    by (intros r Hr; now apply (groupBy_member_key duplicateKey collections k group r)).
  assert (Hne : group <> []) by (intros ->; simpl in Hlen; lia).
  destruct (sort_nonempty _ bySubmittedAtDesc group Hne) as (h & rest & Hs).
  destruct (sort_head_newest group h rest Hp Hs)
    as (pre & post & t & Egroup & Ht & Hpre & Hpost).
  assert (Hnd : NoDup (h :: rest)).
  { rewrite <- Hs. apply (Permutation_NoDup (sort_perm bySubmittedAtDesc group)).
    apply groupBy_In in Hin as [-> _]. now apply NoDup_filter. }
  assert (Hrest : forall d, In d rest -> In d group).
  { intros d Hd. apply (sort_In bySubmittedAtDesc). rewrite Hs. now right. }
  exists h, t, pre, post. unfold duplicateReport. simpl. rewrite Hs. simpl.
  split.
  { apply reportDuplicates_In. exists group. split.
    - apply in_map_iff. now exists (k, group).
    - split; [lia|]. unfold duplicateReport. now rewrite Hs. }
  split; [reflexivity|]. split; [exact Egroup|]. split; [exact Ht|].
  split; [exact Hpre|]. split; [exact Hpost|].
  split.
  { apply Permutation_sym, (Permutation_cons_inv (a := h)).
    eapply perm_trans; [apply Permutation_middle|].
    rewrite <- Egroup, <- Hs. apply sort_perm. }
  split; [now inversion Hnd|].
  split.
  { intros d Hd E. inversion Hnd as [|? ? Hnotin _]; subst. apply Hnotin.
    assert (d = h) as ->; [|exact Hd].
    apply (NoDup_map_eq _ _ id collections); auto.
    apply Hsub, (sort_In bySubmittedAtDesc). rewrite Hs. now left. }
  split; [now apply (kept_not_candidate collections k group h rest)|].
  intros d Hd. apply exactCandidates_In. exists k, group. split; [exact Hin|].
  now rewrite Hs.
Qed.

(** Three copies of one entry next to a row of another group whose time
    stamp does not parse: the copy submitted last is kept. *)
Lemma keep_newest_when_parsed_witness :
  let collections := [Sample.west1; Sample.west2; Sample.undated; Sample.west3] in
  let group := [Sample.west1; Sample.west2; Sample.west3] in
  NoDup (map id collections) /\
  In group (mapValues (groupBy duplicateKey collections)) /\
  (forall r, In r group -> submittedAt r <> None) /\
  submittedAt Sample.undated = None /\
  (2 <= List.length group)%nat /\
  exists kept,
    keepNewest (duplicateReport group) = Some kept /\
    kept = Sample.west2 /\
    ~ In kept (toDelete (duplicateReport group)) /\
    ~ In kept (exactCandidates collections).
Proof.
  intros collections group.
  assert (H1 : NoDup (map id collections)).
  { simpl. repeat constructor; simpl; intuition discriminate. }
  assert (H2 : In group (mapValues (groupBy duplicateKey collections)))
    by (vm_compute; tauto).
  assert (H3 : forall r, In r group -> submittedAt r <> None).
  { intros r Hr. simpl in Hr. decompose [or] Hr; subst; try discriminate; contradiction. }
  assert (H4 : (2 <= List.length group)%nat) by (simpl; lia).
  split; [exact H1|]. split; [exact H2|]. split; [exact H3|].
  split; [reflexivity|]. split; [exact H4|].
  destruct (keep_newest_when_parsed collections group H1 H2 H3 H4)
    as (kept & t & pre & post & _ & Hk & _ & _ & _ & _ & _ & Hn1 & _ & Hn2 & _).
  exists kept. repeat split; try assumption.
  vm_compute in Hk. now injection Hk.
Defined.

(** C2 as stated fails on two groups.  In [[undated; dated]] the only
    time stamp that parses is that of [dated], which is listed for
    deletion while [undated] is kept.  In [[twinA; twinB]] both rows carry
    the greatest time stamp, and [twinB] is listed for deletion. *)
Lemma newest_record_deleted :
  (duplicateKey Sample.undated = duplicateKey Sample.dated /\
   submittedAt Sample.undated = None /\
   submittedAt Sample.dated = Some 1709287200000 /\
   keepNewest (duplicateReport [Sample.undated; Sample.dated]) = Some Sample.undated /\
   toDelete (duplicateReport [Sample.undated; Sample.dated]) = [Sample.dated] /\
   exactCandidates [Sample.undated; Sample.dated] = [Sample.dated]) /\
  (duplicateKey Sample.twinA = duplicateKey Sample.twinB /\
   submittedAt Sample.twinA = Some 1709373600000 /\
   submittedAt Sample.twinB = Some 1709373600000 /\
   id Sample.twinA <> id Sample.twinB /\
   keepNewest (duplicateReport [Sample.twinA; Sample.twinB]) = Some Sample.twinA /\
   toDelete (duplicateReport [Sample.twinA; Sample.twinB]) = [Sample.twinB] /\
   exactCandidates [Sample.twinA; Sample.twinB] = [Sample.twinB]).
Proof. repeat split; try reflexivity; discriminate. Qed.

(** ** Time stamps that do not parse *)

Lemma flat_map_agree : forall (A B : Type) (f g : A -> list B) l,
  (forall x, In x l -> f x = g x) -> flat_map f l = flat_map g l.
Proof.
  induction l as [|x l IH]; intros H; simpl; [reflexivity|].
  rewrite H by now left. rewrite IH; [reflexivity|].
  intros y Hy. apply H. now right.
Qed.

(** C4, as the code has it: a time stamp that does not parse is not
    read as epoch 0; every comparison with it yields [NaN], a tie for the
    sort.  A group in which all comparisons are ties (any two rows have
    equal time stamps or one of them has none) keeps its scan order, so
    its first row is the kept one, parsed or not, and the others are
    listed for deletion. *)
Theorem unparsable_compares_as_tie :
  forall group,
  (forall a b, In a group -> In b group ->
     submittedAt a = None \/ submittedAt b = None \/ submittedAt a = submittedAt b) ->
  (forall a b, submittedAt a = None \/ submittedAt b = None ->
     bySubmittedAtDesc a b = None /\ JS.SortCompare bySubmittedAtDesc a b = 0) /\
  JS.sort bySubmittedAtDesc group = group /\
  keepNewest (duplicateReport group) = hd_error group /\
  toDelete (duplicateReport group) = tl group /\
  exactCandidates group =
    flat_map (fun g => if (1 <? List.length g)%nat then tl g else [])
             (mapValues (groupBy duplicateKey group)).
Proof.
  intros group Hties.
  assert (Hcmp : forall l, (forall r, In r l -> In r group) ->
                           JS.sort bySubmittedAtDesc l = l).
  { intros l Hl. apply sort_all_ties. intros a b Ha Hb.
    destruct (Hties a b (Hl a Ha) (Hl b Hb)) as [H|[H|H]].
    - apply bySubmittedAtDesc_unparsable. now left.
    - apply bySubmittedAtDesc_unparsable. now right.
    - destruct (submittedAt a) as [ta|] eqn:Ea.
      + rewrite (bySubmittedAtDesc_parsed a b ta ta Ea (eq_sym H)). lia.
      + apply bySubmittedAtDesc_unparsable. now left. }
  split; [exact bySubmittedAtDesc_unparsable|].
  assert (Hs : JS.sort bySubmittedAtDesc group = group) by (apply Hcmp; auto).
  split; [exact Hs|]. unfold duplicateReport. simpl. rewrite Hs.
  split; [reflexivity|]. split; [reflexivity|].
  unfold exactCandidates, mapValues. apply flat_map_agree.
  intros g Hg. apply in_map_iff in Hg as ([k g'] & <- & Hin). simpl.
  rewrite Hcmp; [reflexivity|].
  intros r Hr. now apply (groupBy_member_key duplicateKey group k g' r).
Qed.

(** The group of [undated] and [dated]: [undated] comes first and is
    kept. *)
Lemma unparsable_compares_as_tie_witness :
  let group := [Sample.undated; Sample.dated] in
  (forall a b, In a group -> In b group ->
     submittedAt a = None \/ submittedAt b = None \/ submittedAt a = submittedAt b) /\
  keepNewest (duplicateReport group) = Some Sample.undated /\
  toDelete (duplicateReport group) = [Sample.dated].
Proof.
  intros group.
  assert (H : forall a b, In a group -> In b group ->
     submittedAt a = None \/ submittedAt b = None \/ submittedAt a = submittedAt b).
  { intros a b Ha Hb. simpl in Ha, Hb.
    destruct Ha as [<-|[<-|[]]], Hb as [<-|[<-|[]]]; simpl; auto. }
  split; [exact H|].
  destruct (unparsable_compares_as_tie group H) as (_ & _ & Hk & Hd & _).
  rewrite Hk, Hd. split; reflexivity.
Defined.

(** C4 as stated fails on the group [[undated; dated]]: the time
    stamp of [dated] parses and is later than epoch 0, yet [undated] is the
    kept row and [dated] is deleted by the exact cleanup. *)
Lemma unparsable_record_kept :
  let group := [Sample.undated; Sample.dated] in
  duplicateKey Sample.undated = duplicateKey Sample.dated /\
  submittedAt Sample.undated = None /\
  submittedAt Sample.dated = Some 1709287200000 /\
  bySubmittedAtDesc Sample.undated Sample.dated = None /\
  JS.sort bySubmittedAtDesc group = group /\
  keepNewest (duplicateReport group) = Some Sample.undated /\
  toDelete (duplicateReport group) = [Sample.dated] /\
  (exists body,
     analyzeDuplicates group = Ok body /\
     map keepNewest (Analysis.duplicates body) = [Some Sample.undated]) /\
  (exists body,
     cleanDuplicates TableStore.getAllSandwichCollections
                     TableStore.deleteSandwichCollection (Some "exact") group =
     (Ok body, [Sample.undated]) /\
     Cleaned.deletedCount body = 1%nat).
Proof.
  repeat split; try reflexivity; eexists; split; reflexivity.
Qed.

(** ** The exact cleanup run twice *)

Lemma filter_perm : forall (A : Type) (p : A -> bool) l l',
  Permutation l l' -> Permutation (filter p l) (filter p l').
Proof.
  intros A p l l' H. induction H as [|x l l' H IH|x y l|l l' l'' H1 IH1 H2 IH2]; simpl.
  - constructor.
  - destruct (p x); [now constructor|exact IH].
  - destruct (p x), (p y); try apply Permutation_refl. apply perm_swap.
  - now apply perm_trans with (filter p l').
Qed.

Lemma filter_filter_and : forall (A : Type) (p q : A -> bool) l,
  filter q (filter p l) = filter (fun x => p x && q x) l.
Proof.
  induction l as [|x l IH]; simpl; [reflexivity|].
  destruct (p x); simpl; [|exact IH]. destruct (q x); now rewrite IH.
Qed.

Lemma filter_none : forall (A : Type) (p : A -> bool) l,
  (forall x, In x l -> p x = false) -> filter p l = [].
Proof.
  induction l as [|x l IH]; intros H; simpl; [reflexivity|].
  rewrite H by now left. apply IH. intros y Hy. apply H. now right.
Qed.

Lemma filter_all : forall (A : Type) (p : A -> bool) l,
  (forall x, In x l -> p x = true) -> filter p l = l.
Proof.
  induction l as [|x l IH]; intros H; simpl; [reflexivity|].
  rewrite H by now left. f_equal. apply IH. intros y Hy. apply H. now right.
Qed.

Lemma existsb_eqb_In : forall (i : Z) ids,
  existsb (Z.eqb i) ids = true <-> In i ids.
Proof.
  intros i ids. rewrite existsb_exists. split.
  - intros (x & Hx & E). apply Z.eqb_eq in E. now subst.
  - intros H. exists i. split; [exact H|apply Z.eqb_refl].
Qed.

(** Rows with distinct keys: at most one of them has a given key. *)
Lemma filter_key_NoDup : forall (keyOf : CollectionRecord -> string) l k,
  NoDup (map keyOf l) ->
  List.length (filter (fun c => String.eqb (keyOf c) k) l) =
  if existsb (fun c => String.eqb (keyOf c) k) l then 1%nat else 0%nat.
Proof.
  induction l as [|x l IH]; intros k Hnd; simpl; [reflexivity|].
  inversion Hnd as [|? ? Hnotin Hnd']; subst.
  destruct (String.eqb_spec (keyOf x) k) as [E|E]; simpl.
  - rewrite filter_none; [reflexivity|].
    intros y Hy. apply String.eqb_neq. intros E'. apply Hnotin.
    rewrite E, <- E'. now apply in_map.
  - now apply IH.
Qed.

(** The groups split into the kept rows and the candidates. *)
Lemma kept_and_candidates : forall collections,
  Permutation collections (keptOf collections ++ exactCandidates collections).
Proof.
  intros collections.
  eapply perm_trans; [apply (groupBy_partition duplicateKey)|].
  unfold keptOf, exactCandidates.
  generalize (mapValues (groupBy duplicateKey collections)) as groups.
  induction groups as [|g groups IH]; simpl; [constructor|].
  rewrite candidates_of_group.
  eapply perm_trans; [apply Permutation_app; [apply (sort_perm bySubmittedAtDesc)|exact IH]|].
  rewrite <- (firstn_skipn 1 (JS.sort bySubmittedAtDesc g)) at 1.
  replace (skipn 1 (JS.sort bySubmittedAtDesc g))
    with (tl (JS.sort bySubmittedAtDesc g))
    by (now destruct (JS.sort bySubmittedAtDesc g)).
  rewrite <- !app_assoc. apply Permutation_app_head.
  rewrite !app_assoc. apply Permutation_app_tail. apply Permutation_app_comm.
Qed.

(** The kept rows carry the keys of the map, one row per key. *)
Lemma keptOf_keys : forall collections,
  map duplicateKey (keptOf collections) =
  map fst (groupBy duplicateKey collections).
Proof.
  intros collections. unfold keptOf, mapValues.
  assert (Hinv : forall k g, In (k, g) (groupBy duplicateKey collections) ->
                             g <> [] /\ forall c, In c g -> duplicateKey c = k).
  { intros k g Hin. split; [now apply groupBy_In in Hin|].
    intros c Hc. now apply (groupBy_member_key duplicateKey collections k g c). }
  revert Hinv. generalize (groupBy duplicateKey collections) as m.
  induction m as [|[k g] m IH]; intros Hinv; simpl; [reflexivity|].
  destruct (Hinv k g (or_introl eq_refl)) as [Hne Hkey].
  destruct (sort_nonempty _ bySubmittedAtDesc g Hne) as (h & rest & Hs).
  rewrite Hs. simpl. f_equal.
  - apply Hkey, (sort_In bySubmittedAtDesc). rewrite Hs. now left.
  - apply IH. intros k' g' Hin. apply Hinv. now right.
Qed.

Lemma groupBy_keys_In : forall collections k,
  In k (map fst (groupBy duplicateKey collections)) <->
  exists c, In c collections /\ duplicateKey c = k.
Proof.
  intros collections k. split.
  - intros Hk. apply in_map_iff in Hk as ([k' g] & <- & Hin). simpl.
    pose proof Hin as Hg. apply groupBy_In in Hg as [_ Hne].
    destruct g as [|c g]; [congruence|]. exists c.
    destruct (groupBy_member_key duplicateKey collections k' (c :: g) c Hin
                (or_introl eq_refl)) as [E Hc]. now split.
  - intros (c & Hc & <-).
    destruct (groupBy_covers duplicateKey collections c Hc) as (g & Hin & _).
    apply in_map_iff. now exists (duplicateKey c, g).
Qed.

(** A snapshot with at most one row per key has no candidates. *)
Lemma exactCandidates_none : forall collections,
  (forall k, (List.length (filter (fun c => String.eqb (duplicateKey c) k) collections)
              <= 1)%nat) ->
  exactCandidates collections = [].
Proof.
  intros collections Hone. unfold exactCandidates, mapValues.
  rewrite flat_map_concat_map. apply concat_nil_Forall, Forall_forall.
  intros l Hl. apply in_map_iff in Hl as (g & <- & Hg).
  apply in_map_iff in Hg as ([k g'] & <- & Hin). simpl.
  apply groupBy_In in Hin as [-> _].
  destruct (Nat.ltb_spec 1 (List.length
              (filter (fun c => String.eqb (duplicateKey c) k) collections)))
    as [H|H]; [|reflexivity].
  specialize (Hone k). lia.
Qed.

Section WellBehavedStore.
Context {Store : Type}.
Variable getAll : Store -> list CollectionRecord.
Variable del : Z -> Store -> DeleteResult * Store.

(** The delete of an id that is in the store succeeds and removes the
    rows with that id, no others. *)
Hypothesis del_present : forall store i,
  In i (map id (getAll store)) ->
  exists store',
    del i store = (Returned true, store') /\
    getAll store' = filter (fun c => negb (id c =? i)) (getAll store).

Lemma deleteAll_present : forall ids store,
  NoDup ids ->
  (forall i, In i ids -> In i (map id (getAll store))) ->
  fst (deleteAll del ids store) = map (fun _ => Returned true) ids /\
  getAll (snd (deleteAll del ids store)) =
    filter (fun c => negb (existsb (Z.eqb (id c)) ids)) (getAll store).
Proof.
  induction ids as [|i ids IH]; intros store Hnd Hin; simpl.
  - split; [reflexivity|]. symmetry. now apply filter_all.
  - inversion Hnd as [|? ? Hnotin Hnd']; subst.
    destruct (del_present store i (Hin i (or_introl eq_refl)))
      as (s1 & Hdel & Hget).
    rewrite Hdel.
    assert (Hin1 : forall j, In j ids -> In j (map id (getAll s1))).
    { intros j Hj. rewrite Hget.
      destruct (proj1 (in_map_iff id (getAll store) j) (Hin j (or_intror Hj)))
        as (c & <- & Hc).
      apply in_map, filter_In. split; [exact Hc|].
      apply negb_true_iff, Z.eqb_neq. intros E. apply Hnotin. now rewrite <- E. }
    destruct (IH s1 Hnd' Hin1) as [Hres Hstore].
    destruct (deleteAll del ids s1) as [rs s2]. simpl in *.
    split; [now rewrite Hres|].
    rewrite Hstore, Hget, filter_filter_and. apply filter_ext.
    intros c. now rewrite negb_orb.
Qed.
End WellBehavedStore.

Lemma countDeleted_all_true : forall (A : Type) (l : list A),
  countDeleted (map (fun _ => Returned true) l) = List.length l.
Proof. unfold countDeleted. induction l; simpl; auto. Qed.

Lemma cleanMessages_all_true : forall ids,
  cleanMessages ids (map (fun _ => Returned true) ids) = [].
Proof. unfold cleanMessages. induction ids; simpl; auto. Qed.

(** C3: on a store with unique ids where the delete of a present id
    succeeds and removes that row, clean-duplicates in exact mode deletes
    every candidate and reports no error.  The rows it leaves are rows of
    the snapshot with pairwise distinct keys, exactly one for each key of
    the snapshot, whichever row of a group the sort puts first.  The
    snapshot it leaves has no candidates, so a second run calls no delete
    and reports zero. *)
Theorem exact_cleanup_idempotent :
  forall (Store : Type) (getAll : Store -> list CollectionRecord)
         (del : Z -> Store -> DeleteResult * Store) (store : Store),
  (forall s i, In i (map id (getAll s)) ->
     exists s', del i s = (Returned true, s') /\
                getAll s' = filter (fun c => negb (id c =? i)) (getAll s)) ->
  NoDup (map id (getAll store)) ->
  exists body store',
    cleanDuplicates getAll del (Some "exact") store = (Ok body, store') /\
    Cleaned.totalFound body = List.length (exactCandidates (getAll store)) /\
    Cleaned.deletedCount body = Cleaned.totalFound body /\
    Cleaned.errors body = None /\
    incl (getAll store') (getAll store) /\
    NoDup (map duplicateKey (getAll store')) /\
    (forall c, In c (getAll store) ->
       List.length (filter (fun c' => String.eqb (duplicateKey c') (duplicateKey c))
                           (getAll store')) = 1%nat) /\
    exactCandidates (getAll store') = [] /\
    cleanDuplicates getAll del (Some "exact") store' =
    (Ok {| Cleaned.message :=
             "Successfully cleaned 0 duplicate entries using exact mode";
           Cleaned.deletedCount := 0;
           Cleaned.totalFound := 0;
           Cleaned.errors := None;
           Cleaned.mode := "exact" |},
     store').
Proof.
  intros Store getAll del store Hdel Hids.
  set (cs := getAll store) in *.
  set (cands := exactCandidates cs).
  set (sorted := JS.sort byIdDesc cands).
  pose proof (kept_and_candidates cs) as Hsplit. fold cands in Hsplit.
  assert (Hnd : NoDup (map id (keptOf cs) ++ map id cands)).
  { rewrite <- map_app. eapply Permutation_NoDup; [|exact Hids].
    now apply Permutation_map. }
  assert (Hsorted : Permutation cands sorted) by apply sort_perm.
  assert (Hnds : NoDup (map id sorted)).
  { eapply Permutation_NoDup; [apply Permutation_map, Hsorted|].
    now apply NoDup_app_remove_l in Hnd. }
  assert (Hins : forall i, In i (map id sorted) -> In i (map id cs)).
  { intros i Hi. apply in_map_iff in Hi as (c & <- & Hc). apply in_map.
    apply exactCandidates_incl. fold cands.
    now apply (Permutation_in c (Permutation_sym Hsorted)). }
  destruct (deleteAll_present getAll del Hdel (map id sorted) store Hnds Hins)
    as [Hres Hstore].
  pose proof (cleanDuplicates_run getAll del (Some "exact") store cands eq_refl)
    as Hrun.
  cbv zeta in Hrun. fold sorted in Hrun. rewrite Hres in Hrun.
  rewrite countDeleted_all_true, cleanMessages_all_true, length_map in Hrun.
  set (store' := snd (deleteAll del (map id sorted) store)) in *.
  fold cs in Hstore.
  assert (Hleft : Permutation (getAll store') (keptOf cs)).
  { rewrite Hstore.
    eapply perm_trans; [apply filter_perm, Hsplit|].
    rewrite filter_app.
    rewrite (filter_none _ _ cands), app_nil_r.
    - rewrite filter_all; [apply Permutation_refl|].
      intros c Hc. apply negb_true_iff.
      destruct (existsb (Z.eqb (id c)) (map id sorted)) eqn:E; [|reflexivity].
      exfalso. apply existsb_eqb_In in E.
      apply NoDup_app_remove_l in Hnd as Hnd2.
      assert (Hc1 : In (id c) (map id cands)).
      { apply in_map_iff in E as (c' & E' & Hc'). rewrite <- E'. apply in_map.
        now apply (Permutation_in c' (Permutation_sym Hsorted)). }
      clear - Hnd Hc Hc1.
      induction (keptOf cs) as [|x l IH]; [contradiction|].
      simpl in Hnd. inversion Hnd as [|? ? Hnotin Hnd']; subst.
      destruct Hc as [->|Hc]; [|now apply IH].
      apply Hnotin, in_or_app. now right.
    - intros c Hc. apply negb_false_iff, existsb_eqb_In, in_map.
      now apply (Permutation_in c Hsorted). }
  assert (Hcount : forall k,
    List.length (filter (fun c' => String.eqb (duplicateKey c') k) (getAll store')) =
    if existsb (fun c' => String.eqb (duplicateKey c') k) (keptOf cs)
    then 1%nat else 0%nat).
  { intros k. rewrite (Permutation_length (filter_perm _ _ _ _ Hleft)).
    apply filter_key_NoDup. rewrite keptOf_keys. apply groupBy_keys_NoDup. }
  assert (Hnone : exactCandidates (getAll store') = []).
  { apply exactCandidates_none. intros k. rewrite Hcount.
    destruct (existsb _ (keptOf cs)); lia. }
  eexists. exists store'. split; [exact Hrun|]. simpl.
  split; [reflexivity|]. split; [apply sort_length|].
  split; [reflexivity|].
  split.
  { intros c Hc. rewrite Hstore in Hc. now apply filter_In in Hc. }
  split.
  { eapply Permutation_NoDup; [apply Permutation_map, Permutation_sym, Hleft|].
    rewrite keptOf_keys. apply groupBy_keys_NoDup. }
  split; [|split; [exact Hnone|]].
  - intros c Hc. rewrite Hcount.
    assert (Hk : In (duplicateKey c) (map duplicateKey (keptOf cs))).
    { rewrite keptOf_keys. apply groupBy_keys_In. now exists c. }
    apply in_map_iff in Hk as (c' & E & Hc').
    assert (Hex : existsb (fun c0 => String.eqb (duplicateKey c0) (duplicateKey c))
                          (keptOf cs) = true).
    { apply existsb_exists. exists c'. split; [exact Hc'|].
      rewrite E. apply String.eqb_refl. }
    now rewrite Hex.
  - assert (Hc2 : candidatesFor "exact" (getAll store') = Some [])
      by (unfold candidatesFor; simpl; now rewrite Hnone).
    rewrite (cleanDuplicates_run getAll del (Some "exact") store' [] Hc2).
    reflexivity.
Qed.

Lemma TableStore_delete_present : forall table i,
  In i (map id (TableStore.getAllSandwichCollections table)) ->
  exists table',
    TableStore.deleteSandwichCollection i table = (Returned true, table') /\
    TableStore.getAllSandwichCollections table' =
      filter (fun c => negb (id c =? i)) (TableStore.getAllSandwichCollections table).
Proof.
  intros table i Hi. unfold TableStore.deleteSandwichCollection,
    TableStore.getAllSandwichCollections in *.
  assert (Hex : existsb (fun c => id c =? i) table = true).
  { apply existsb_exists. apply in_map_iff in Hi as (c & E & Hc).
    exists c. split; [exact Hc|]. now apply Z.eqb_eq. }
  exists (filter (fun c => negb (id c =? i)) table). now rewrite Hex.
Qed.

(** A table with three copies of one entry, two of another and a single
    row: the first run deletes three rows, the second none. *)
Lemma exact_cleanup_idempotent_witness :
  let table := [Sample.west1; Sample.west2; Sample.locA; Sample.west3;
                Sample.twinA; Sample.twinB] in
  let getAll := TableStore.getAllSandwichCollections in
  let del := TableStore.deleteSandwichCollection in
  (forall s i, In i (map id (getAll s)) ->
     exists s', del i s = (Returned true, s') /\
                getAll s' = filter (fun c => negb (id c =? i)) (getAll s)) /\
  NoDup (map id (getAll table)) /\
  exists body,
    cleanDuplicates getAll del (Some "exact") table =
      (Ok body, [Sample.west2; Sample.locA; Sample.twinA]) /\
    Cleaned.deletedCount body = 3%nat /\
    exactCandidates [Sample.west2; Sample.locA; Sample.twinA] = [].
Proof.
  intros table getAll del.
  assert (H1 : NoDup (map id (getAll table))).
  { simpl. repeat constructor; simpl; intuition discriminate. }
  split; [exact TableStore_delete_present|]. split; [exact H1|].
  destruct (exact_cleanup_idempotent TableStore.t getAll del table
              TableStore_delete_present H1)
    as (body & table' & Hr & Ht & Hd & _ & _ & _ & _ & Hn & _).
  assert (E : table' = [Sample.west2; Sample.locA; Sample.twinA]).
  { vm_compute in Hr. now injection Hr. }
  subst table'. exists body. rewrite Hr, Hd, Ht.
  split; [reflexivity|]. split; [reflexivity|exact Hn].
Defined.

(* ================================================================== *)
(** * Further properties of the handlers *)
(* ================================================================== *)

(** ** The order of the delete calls *)

Lemma descending_map : forall (A : Type) (f : A -> Z) l,
  StronglySorted (fun a b => f b <= f a) l ->
  StronglySorted (fun x y => y <= x) (map f l).
Proof.
  intros A f l H. induction H as [|x l Hs IH Hx]; simpl; constructor.
  - exact IH.
  - rewrite Forall_forall in *. intros y Hy.
    apply in_map_iff in Hy as (z & <- & Hz). now apply Hx.
Qed.

Lemma candidatesFor_present : forall mode collections,
  hostsPresent collections ->
  candidatesFor mode collections =
  Some (if String.eqb mode "exact" then exactCandidates collections
        else if String.eqb mode "suspicious"
             then filter (hostSatisfies suspiciousHostBroad) collections
             else []).
Proof.
  intros mode collections Hp. unfold candidatesFor.
  destruct (String.eqb mode "exact"); [reflexivity|].
  destruct (String.eqb mode "suspicious"); [|reflexivity].
  now apply filterThrowing_present.
Qed.



(** ** How many rows the exact mode takes *)

Lemma keptOf_length : forall collections,
  List.length (keptOf collections) =
  List.length (groupBy duplicateKey collections).
Proof.
  intros collections.
  rewrite <- (length_map duplicateKey (keptOf collections)), keptOf_keys.
  apply length_map.
Qed.

Lemma exactCandidates_length : forall collections,
  (List.length (exactCandidates collections) +
   List.length (groupBy duplicateKey collections))%nat = List.length collections.
Proof.
  intros collections.
  rewrite (Permutation_length (kept_and_candidates collections)).
  rewrite length_app, keptOf_length. lia.
Qed.

(** X2: the exact mode takes all rows but one per distinct key: the
    candidates and the keys of the map add up to the rows of the snapshot,
    and a row is a candidate only if another row has its key. *)
Theorem exact_candidates_count :
  forall collections,
  (List.length (exactCandidates collections) +
   List.length (groupBy duplicateKey collections))%nat = List.length collections /\
  (forall c, In c (exactCandidates collections) ->
     (2 <= List.length (filter (fun c' => String.eqb (duplicateKey c') (duplicateKey c))
                               collections))%nat).
Proof.
  intros collections. split.
  - apply exactCandidates_length.
  - intros c Hc. apply exactCandidates_In in Hc as (k & g & Hin & Hc).
    assert (Hcg : In c g).
    { apply (sort_In bySubmittedAtDesc).
      destruct (JS.sort bySubmittedAtDesc g); [destruct Hc|now right]. }
    destruct (groupBy_member_key duplicateKey collections k g c Hin Hcg) as [-> _].
    apply groupBy_In in Hin as [<- _].
    rewrite <- (sort_length bySubmittedAtDesc g).
    destruct (JS.sort bySubmittedAtDesc g) as [|h [|h' rest]]; simpl in *;
      try contradiction; lia.
Qed.

(** ** The analysis and the exact cleanup *)

Lemma total_toDelete : forall (duplicates : list DuplicateGroup) n,
  fold_left (fun sum group => (sum + List.length (toDelete group))%nat) duplicates n =
  (n + List.length (List.concat (map toDelete duplicates)))%nat.
Proof.
  induction duplicates as [|d ds IH]; intros n; simpl; [lia|].
  rewrite IH, length_app. lia.
Qed.

Lemma reported_toDelete : forall groups : list (list CollectionRecord),
  List.concat
    (map toDelete
         (map duplicateReport
              (filter (fun group => (1 <? List.length group)%nat) groups))) =
  flat_map (fun group =>
              if (1 <? List.length group)%nat
              then JS.slice1 (JS.sort bySubmittedAtDesc group)
              else [])
           groups.
Proof.
  induction groups as [|g groups IH]; simpl; [reflexivity|].
  destruct (1 <? List.length g)%nat; simpl; now rewrite IH.
Qed.

(** X3: what the analysis lists for deletion is what the exact mode
    selects.  When every host name is a string, the [toDelete] lists of the
    report, one after the other, are the list of candidates that
    clean-duplicates builds in exact mode, and [totalDuplicateEntries] is
    their number.  The handler then sorts the candidates by id: its delete
    calls are the ids of the listed rows, each once, in descending order
    of id and not in the order of the report. *)
Theorem analysis_agrees_with_exact_cleanup :
  forall collections,
  hostsPresent collections ->
  exists body,
    analyzeDuplicates collections = Ok body /\
    List.concat (map toDelete (Analysis.duplicates body)) =
      exactCandidates collections /\
    candidatesFor "exact" collections =
      Some (List.concat (map toDelete (Analysis.duplicates body))) /\
    Analysis.totalDuplicateEntries body = List.length (exactCandidates collections) /\
    Analysis.duplicateGroups body = List.length (Analysis.duplicates body) /\
    Analysis.totalCollections body = List.length collections /\
    (Analysis.totalDuplicateEntries body + List.length (groupBy duplicateKey collections)
     = Analysis.totalCollections body)%nat /\
    (forall answer,
       let calls :=
         snd (cleanDuplicates (ScriptedStore.getAllSandwichCollections collections)
                              (ScriptedStore.deleteSandwichCollection answer)
                              (Some "exact") []) in
       Permutation calls
                   (map id (List.concat (map toDelete (Analysis.duplicates body)))) /\
       StronglySorted (fun x y => y <= x) calls).
Proof.
  intros collections Hp. unfold analyzeDuplicates.
  rewrite (scanCollections_present collections Hp).
  eexists. split; [reflexivity|]. simpl.
  assert (E : List.concat (map toDelete (reportDuplicates (groupBy duplicateKey collections)))
              = exactCandidates collections).
  { unfold reportDuplicates, exactCandidates. apply reported_toDelete. }
  rewrite total_toDelete, E. simpl.
  split; [reflexivity|]. split; [reflexivity|]. split; [reflexivity|].
  split; [reflexivity|]. split; [reflexivity|].
  split; [apply exactCandidates_length|].
  intros answer.
  rewrite (cleanDuplicates_scripted_log answer collections "exact"
             (exactCandidates collections) [] eq_refl).
  cbn [app]. split.
  - apply Permutation_map, Permutation_sym, sort_perm.
  - apply descending_map, sort_byIdDesc_descending.
Qed.

Lemma analysis_agrees_with_exact_cleanup_witness :
  let collections := [Sample.west1; Sample.twinA; Sample.west2; Sample.locA;
                      Sample.west3; Sample.twinB] in
  hostsPresent collections /\
  exists body,
    analyzeDuplicates collections = Ok body /\
    List.concat (map toDelete (Analysis.duplicates body)) =
      [Sample.west3; Sample.west1; Sample.twinB] /\
    Analysis.totalDuplicateEntries body = 3%nat /\
    snd (cleanDuplicates (ScriptedStore.getAllSandwichCollections collections)
                         (ScriptedStore.deleteSandwichCollection Sample.failsOn32)
                         (Some "exact") []) = [27; 25; 24].
Proof.
  intros collections.
  assert (Hp : hostsPresent collections).
  { intros c Hin. simpl in Hin.
    decompose [or] Hin; subst; try discriminate; contradiction. }
  split; [exact Hp|].
  destruct (analysis_agrees_with_exact_cleanup collections Hp)
    as (body & Hb & Hc & _ & Ht & _).
  exists body. rewrite Hc, Ht. split; [exact Hb|]. repeat split; reflexivity.
Defined.

(** ** Cleanups by host name on a store that deletes what it holds *)

Section FilteredCleanup.
Context {Store : Type}.
Variable getAll : Store -> list CollectionRecord.
Variable del : Z -> Store -> DeleteResult * Store.

Hypothesis del_present : forall store i,
  In i (map id (getAll store)) ->
  exists store',
    del i store = (Returned true, store') /\
    getAll store' = filter (fun c => negb (id c =? i)) (getAll store).

(** Deleting the rows a test selects leaves the rows it rejects, in
    their order. *)
Lemma delete_selected : forall (p : CollectionRecord -> bool) store,
  NoDup (map id (getAll store)) ->
  let sorted := JS.sort byIdDesc (filter p (getAll store)) in
  fst (deleteAll del (map id sorted) store) = map (fun _ => Returned true) (map id sorted) /\
  getAll (snd (deleteAll del (map id sorted) store)) =
    filter (fun c => negb (p c)) (getAll store).
Proof.
  intros p store Hids sorted.
  assert (Hperm : Permutation (filter p (getAll store)) sorted) by apply sort_perm.
  assert (Hnd : NoDup (map id sorted)).
  { eapply Permutation_NoDup; [apply Permutation_map, Hperm|].
    clear Hperm sorted. induction (getAll store) as [|c cs IH]; simpl; [constructor|].
    simpl in Hids. inversion Hids as [|? ? Hnotin Hnd']; subst.
    destruct (p c); simpl; [|now apply IH].
    constructor; [|now apply IH]. intros Hin. apply Hnotin.
    apply in_map_iff in Hin as (c' & E & Hc'). rewrite <- E. apply in_map.
    now apply filter_In in Hc'. }
  assert (Hin : forall i, In i (map id sorted) -> In i (map id (getAll store))).
  { intros i Hi. apply in_map_iff in Hi as (c & <- & Hc). apply in_map.
    apply (Permutation_in c (Permutation_sym Hperm)) in Hc.
    now apply filter_In in Hc. }
  destruct (deleteAll_present getAll del del_present (map id sorted) store Hnd Hin)
    as [Hres Hstore].
  split; [exact Hres|]. rewrite Hstore. apply filter_ext_in.
  intros c Hc. f_equal.
  destruct (p c) eqn:Epc.
  - apply existsb_eqb_In, in_map. apply (Permutation_in c Hperm).
    apply filter_In. now split.
  - destruct (existsb (Z.eqb (id c)) (map id sorted)) eqn:E; [|reflexivity].
    apply existsb_eqb_In, in_map_iff in E as (c' & E & Hc').
    apply (Permutation_in c' (Permutation_sym Hperm)) in Hc'.
    apply filter_In in Hc' as [Hc' Hp'].
    assert (c' = c) by (apply (NoDup_map_eq _ _ id (getAll store)); auto).
    congruence.
Qed.
End FilteredCleanup.

(** X4: on a store with unique ids whose deletes succeed, and with
    strings as host names, the suspicious mode deletes the rows the broad
    classifier flags and no others: the rows it rejects are left in their
    order, the count equals the number found, and a second run finds
    nothing. *)
Theorem suspicious_cleanup_leaves_the_rest :
  forall (Store : Type) (getAll : Store -> list CollectionRecord)
         (del : Z -> Store -> DeleteResult * Store) (store : Store),
  (forall s i, In i (map id (getAll s)) ->
     exists s', del i s = (Returned true, s') /\
                getAll s' = filter (fun c => negb (id c =? i)) (getAll s)) ->
  NoDup (map id (getAll store)) ->
  hostsPresent (getAll store) ->
  exists body store',
    cleanDuplicates getAll del (Some "suspicious") store = (Ok body, store') /\
    getAll store' =
      filter (fun c => negb (hostSatisfies suspiciousHostBroad c)) (getAll store) /\
    Cleaned.totalFound body =
      List.length (filter (hostSatisfies suspiciousHostBroad) (getAll store)) /\
    Cleaned.deletedCount body = Cleaned.totalFound body /\
    Cleaned.errors body = None /\
    exists body2,
      cleanDuplicates getAll del (Some "suspicious") store' = (Ok body2, store') /\
      Cleaned.totalFound body2 = 0%nat /\
      Cleaned.deletedCount body2 = 0%nat.
Proof.
  intros Store getAll del store Hdel Hids Hp.
  set (p := hostSatisfies suspiciousHostBroad).
  pose proof (candidatesFor_present "suspicious" _ Hp) as Hc. simpl in Hc. fold p in Hc.
  destruct (delete_selected getAll del Hdel p store Hids) as [Hres Hstore].
  pose proof (cleanDuplicates_run getAll del (Some "suspicious") store _ Hc) as Hrun.
  cbv zeta in Hrun. rewrite Hres in Hrun.
  rewrite countDeleted_all_true, cleanMessages_all_true, !length_map in Hrun.
  eexists. eexists. split; [exact Hrun|]. simpl.
  split; [exact Hstore|]. split; [reflexivity|].
  split; [apply sort_length|]. split; [reflexivity|].
  set (store' := snd (deleteAll del (map id (JS.sort byIdDesc (filter p (getAll store))))
                                store)) in *.
  assert (Hp' : hostsPresent (getAll store')).
  { intros c Hc'. rewrite Hstore in Hc'. apply filter_In in Hc' as [Hc' _].
    now apply Hp. }
  pose proof (candidatesFor_present "suspicious" _ Hp') as Hc2. simpl in Hc2.
  fold p in Hc2.
  assert (Hnone : filter p (getAll store') = []).
  { rewrite Hstore. apply filter_none. intros c Hc'.
    apply filter_In in Hc' as [_ Hn]. now apply negb_true_iff in Hn. }
  rewrite Hnone in Hc2.
  eexists. rewrite (cleanDuplicates_run getAll del (Some "suspicious") store' [] Hc2).
  simpl. repeat split.
Qed.

Lemma suspicious_cleanup_leaves_the_rest_witness :
  let table := [Sample.north; Sample.locA; Sample.group8; Sample.normalHost;
                Sample.group34] in
  let getAll := TableStore.getAllSandwichCollections in
  let del := TableStore.deleteSandwichCollection in
  (forall s i, In i (map id (getAll s)) ->
     exists s', del i s = (Returned true, s') /\
                getAll s' = filter (fun c => negb (id c =? i)) (getAll s)) /\
  NoDup (map id (getAll table)) /\
  hostsPresent (getAll table) /\
  exists body,
    cleanDuplicates getAll del (Some "suspicious") table =
      (Ok body, [Sample.north; Sample.normalHost]) /\
    Cleaned.deletedCount body = 3%nat.
Proof.
  intros table getAll del.
  assert (H1 : NoDup (map id (getAll table))).
  { simpl. repeat constructor; simpl; intuition discriminate. }
  assert (H2 : hostsPresent (getAll table)).
  { intros c Hin. simpl in Hin.
    decompose [or] Hin; subst; try discriminate; contradiction. }
  split; [exact TableStore_delete_present|]. split; [exact H1|]. split; [exact H2|].
  destruct (suspicious_cleanup_leaves_the_rest TableStore.t getAll del table
              TableStore_delete_present H1 H2)
    as (body & table' & Hr & Hs & Ht & Hd & _).
  unfold getAll, TableStore.getAllSandwichCollections in Hs. subst table'.
  exists body. rewrite Hr, Hd, Ht. split; reflexivity.
Defined.

(** X5: on such a store the bulk delete removes the rows whose host
    name starts with ["Loc "] or with ["Group "] and a digit from 1 to 8,
    and leaves every other row in place. *)
Theorem bulk_delete_leaves_the_rest :
  forall (Store : Type) (getAll : Store -> list CollectionRecord)
         (del : Z -> Store -> DeleteResult * Store) (store : Store),
  (forall s i, In i (map id (getAll s)) ->
     exists s', del i s = (Returned true, s') /\
                getAll s' = filter (fun c => negb (id c =? i)) (getAll s)) ->
  NoDup (map id (getAll store)) ->
  hostsPresent (getAll store) ->
  exists body store',
    bulkDelete getAll del store = (Ok body, store') /\
    getAll store' = filter (fun c => negb (hostSatisfies bulkHost c)) (getAll store) /\
    Bulk.deletedCount body =
      List.length (filter (hostSatisfies bulkHost) (getAll store)) /\
    (Bulk.deletedCount body + List.length (getAll store'))%nat =
      List.length (getAll store).
Proof.
  intros Store getAll del store Hdel Hids Hp.
  set (p := hostSatisfies bulkHost).
  destruct (delete_selected getAll del Hdel p store Hids) as [Hres Hstore].
  pose proof (bulkDelete_run getAll del store _ (filterThrowing_present bulkHost _ Hp))
    as Hrun.
  cbv zeta in Hrun. fold p in Hrun. rewrite Hres in Hrun.
  rewrite countDeleted_all_true, !length_map in Hrun.
  eexists. eexists. split; [exact Hrun|]. simpl.
  split; [exact Hstore|]. rewrite sort_length. split; [reflexivity|].
  rewrite Hstore. clear. induction (getAll store) as [|c cs IH]; simpl; [reflexivity|].
  destruct (p c); simpl; lia.
Qed.

Lemma bulk_delete_leaves_the_rest_witness :
  let table := [Sample.north; Sample.locA; Sample.group8; Sample.normalHost;
                Sample.group34] in
  let getAll := TableStore.getAllSandwichCollections in
  let del := TableStore.deleteSandwichCollection in
  (forall s i, In i (map id (getAll s)) ->
     exists s', del i s = (Returned true, s') /\
                getAll s' = filter (fun c => negb (id c =? i)) (getAll s)) /\
  NoDup (map id (getAll table)) /\
  hostsPresent (getAll table) /\
  exists body,
    bulkDelete getAll del table = (Ok body, [Sample.north; Sample.normalHost]) /\
    Bulk.deletedCount body = 3%nat.
Proof.
  intros table getAll del.
  assert (H1 : NoDup (map id (getAll table))).
  { simpl. repeat constructor; simpl; intuition discriminate. }
  assert (H2 : hostsPresent (getAll table)).
  { intros c Hin. simpl in Hin.
    decompose [or] Hin; subst; try discriminate; contradiction. }
  split; [exact TableStore_delete_present|]. split; [exact H1|]. split; [exact H2|].
  destruct (bulk_delete_leaves_the_rest TableStore.t getAll del table
              TableStore_delete_present H1 H2)
    as (body & table' & Hr & Hs & Hd & _).
  unfold getAll, TableStore.getAllSandwichCollections in Hs. subst table'.
  exists body. rewrite Hr, Hd. split; reflexivity.
Defined.

(** ** Batch delete on a store that reports what it holds *)

Lemma filter_other_ids : forall (cs : list CollectionRecord) i,
  NoDup (map id cs) ->
  NoDup (map id (filter (fun c => negb (id c =? i)) cs)) /\
  Nat.add (List.length (filter (fun c => negb (id c =? i)) cs))
          (if existsb (Z.eqb i) (map id cs) then 1%nat else 0%nat) = List.length cs.
Proof.
  induction cs as [|c cs IH]; intros i Hnd; simpl; [split; [constructor|reflexivity]|].
  simpl in Hnd. inversion Hnd as [|? ? Hnotin Hnd']; subst.
  destruct (IH i Hnd') as [IH1 IH2].
  rewrite (Z.eqb_sym i (id c)).
  destruct (Z.eqb_spec (id c) i) as [E|E]; simpl.
  - split; [exact IH1|].
    assert (Hex : existsb (Z.eqb i) (map id cs) = false).
    { destruct (existsb (Z.eqb i) (map id cs)) eqn:Ex; [|reflexivity].
      apply existsb_eqb_In in Ex. congruence. }
    rewrite Hex in IH2. lia.
  - split; [|lia]. constructor; [|exact IH1]. intros Hin. apply Hnotin.
    apply in_map_iff in Hin as (c' & E' & Hc'). rewrite <- E'. apply in_map.
    now apply filter_In in Hc'.
Qed.

Section ReportingStore.
Context {Store : Type}.
Variable getAll : Store -> list CollectionRecord.
Variable del : Z -> Store -> DeleteResult * Store.

Hypothesis del_present : forall store i,
  In i (map id (getAll store)) ->
  exists store',
    del i store = (Returned true, store') /\
    getAll store' = filter (fun c => negb (id c =? i)) (getAll store).

Hypothesis del_absent : forall store i,
  ~ In i (map id (getAll store)) ->
  exists store',
    del i store = (Returned false, store') /\ getAll store' = getAll store.

Lemma deleteAll_reporting : forall ids store,
  NoDup (map id (getAll store)) ->
  getAll (snd (deleteAll del ids store)) =
    filter (fun c => negb (existsb (Z.eqb (id c)) ids)) (getAll store) /\
  (countDeleted (fst (deleteAll del ids store)) +
   List.length (getAll (snd (deleteAll del ids store))))%nat =
    List.length (getAll store).
Proof.
  induction ids as [|i ids IH]; intros store Hnd; simpl.
  - split; [|reflexivity]. symmetry. now apply filter_all.
  - destruct (filter_other_ids (getAll store) i Hnd) as [Hnd1 Hlen].
    destruct (in_dec Z.eq_dec i (map id (getAll store))) as [Hin|Hout].
    + destruct (del_present store i Hin) as (s1 & Hdel & Hget). rewrite Hdel.
      rewrite <- Hget in Hnd1. destruct (IH s1 Hnd1) as [IH1 IH2].
      destruct (deleteAll del ids s1) as [rs s2]. simpl in *.
      rewrite (proj2 (existsb_eqb_In i (map id (getAll store))) Hin) in Hlen.
      split.
      * rewrite IH1, Hget, filter_filter_and. apply filter_ext.
        intros c. now rewrite negb_orb.
      * unfold countDeleted in *. simpl. rewrite Hget in IH2. lia.
    + destruct (del_absent store i Hout) as (s1 & Hdel & Hget). rewrite Hdel.
      rewrite <- Hget in Hnd. destruct (IH s1 Hnd) as [IH1 IH2].
      destruct (deleteAll del ids s1) as [rs s2]. simpl in *.
      split.
      * rewrite IH1, Hget. apply filter_ext_in. intros c Hc.
        destruct (Z.eqb_spec (id c) i) as [E|E]; [|reflexivity].
        exfalso. apply Hout. rewrite <- E. now apply in_map.
      * unfold countDeleted in *. simpl. rewrite Hget in IH2. exact IH2.
Qed.
End ReportingStore.

Lemma filter_sorted_ids : forall (cs : list CollectionRecord) ids,
  filter (fun c => negb (existsb (Z.eqb (id c)) (JS.sort byNumberDesc ids))) cs =
  filter (fun c => negb (existsb (Z.eqb (id c)) ids)) cs.
Proof.
  intros cs ids. apply filter_ext. intros c. f_equal.
  destruct (existsb (Z.eqb (id c)) ids) eqn:E.
  - apply existsb_eqb_In. apply (proj1 (existsb_eqb_In (id c) ids)) in E.
    exact (proj2 (sort_In byNumberDesc ids (id c)) E).
  - destruct (existsb (Z.eqb (id c)) (JS.sort byNumberDesc ids)) eqn:E'; [|reflexivity].
    apply (proj1 (existsb_eqb_In (id c) _)) in E'.
    apply (proj1 (sort_In byNumberDesc ids (id c))) in E'.
    apply (proj2 (existsb_eqb_In (id c) ids)) in E'. congruence.
Qed.

(** X6: batch-delete on a store with unique ids that deletes the ids it
    holds and reports the others as missing: the rows left are those whose
    id was not requested, [deletedCount] is the number of rows that went
    away, and [errors] is absent exactly when every requested id was
    deleted, which a repeated or unknown id prevents. *)
Theorem batch_delete_removes_requested :
  forall (Store : Type) (getAll : Store -> list CollectionRecord)
         (del : Z -> Store -> DeleteResult * Store) (store : Store) (ids : list Z),
  (forall s i, In i (map id (getAll s)) ->
     exists s', del i s = (Returned true, s') /\
                getAll s' = filter (fun c => negb (id c =? i)) (getAll s)) ->
  (forall s i, ~ In i (map id (getAll s)) ->
     exists s', del i s = (Returned false, s') /\ getAll s' = getAll s) ->
  NoDup (map id (getAll store)) ->
  ids <> [] ->
  exists body store',
    batchDelete del (Some ids) store = (Ok body, store') /\
    getAll store' =
      filter (fun c => negb (existsb (Z.eqb (id c)) ids)) (getAll store) /\
    (Batch.deletedCount body + List.length (getAll store'))%nat =
      List.length (getAll store) /\
    Batch.totalRequested body = List.length ids /\
    (Batch.errors body = None <-> Batch.deletedCount body = List.length ids).
Proof.
  intros Store getAll del store ids Hpres Habs Hnd Hne.
  pose proof (batchDelete_run del store ids Hne) as Hrun. cbv zeta in Hrun.
  destruct (deleteAll_reporting getAll del Hpres Habs (JS.sort byNumberDesc ids) store Hnd)
    as [Hstore Hcount].
  pose proof (batchMessages_length (JS.sort byNumberDesc ids)
                (fst (deleteAll del (JS.sort byNumberDesc ids) store))) as Hmsg.
  rewrite deleteAll_length in Hmsg. specialize (Hmsg eq_refl).
  rewrite sort_length in Hmsg.
  eexists. eexists. split; [exact Hrun|]. simpl.
  split; [now rewrite Hstore, filter_sorted_ids|].
  split; [exact Hcount|]. split; [reflexivity|].
  rewrite surfacedErrors_none. split.
  - intros E. rewrite E in Hmsg. simpl in Hmsg. lia.
  - intros E. apply length_zero_iff_nil. lia.
Qed.

Lemma TableStore_delete_absent : forall table i,
  ~ In i (map id (TableStore.getAllSandwichCollections table)) ->
  exists table',
    TableStore.deleteSandwichCollection i table = (Returned false, table') /\
    TableStore.getAllSandwichCollections table' =
      TableStore.getAllSandwichCollections table.
Proof.
  intros table i Hi. unfold TableStore.deleteSandwichCollection,
    TableStore.getAllSandwichCollections in *.
  assert (Hex : existsb (fun c => id c =? i) table = false).
  { destruct (existsb (fun c => id c =? i) table) eqn:E; [|reflexivity].
    exfalso. apply Hi. apply existsb_exists in E as (c & Hc & E).
    apply Z.eqb_eq in E. rewrite <- E. now apply in_map. }
  exists table. rewrite Hex. split; [|reflexivity].
  rewrite filter_all; [reflexivity|]. intros c Hc. apply negb_true_iff, Z.eqb_neq.
  intros E. apply Hi. rewrite <- E. now apply in_map.
Qed.

(** Ids 31 twice, 33 and the unknown 99 against a table of four rows:
    two rows go away and the reply lists two errors. *)
Lemma batch_delete_removes_requested_witness :
  let table := [Sample.locA; Sample.group34; Sample.group8; Sample.normalHost] in
  let getAll := TableStore.getAllSandwichCollections in
  let del := TableStore.deleteSandwichCollection in
  (forall s i, In i (map id (getAll s)) ->
     exists s', del i s = (Returned true, s') /\
                getAll s' = filter (fun c => negb (id c =? i)) (getAll s)) /\
  (forall s i, ~ In i (map id (getAll s)) ->
     exists s', del i s = (Returned false, s') /\ getAll s' = getAll s) /\
  NoDup (map id (getAll table)) /\
  [31; 99; 33; 31] <> [] /\
  exists body,
    batchDelete del (Some [31; 99; 33; 31]) table =
      (Ok body, [Sample.group34; Sample.normalHost]) /\
    Batch.deletedCount body = 2%nat /\
    Batch.errors body <> None.
Proof.
  intros table getAll del.
  assert (H1 : NoDup (map id (getAll table))).
  { simpl. repeat constructor; simpl; intuition discriminate. }
  split; [exact TableStore_delete_present|].
  split; [exact TableStore_delete_absent|].
  split; [exact H1|]. split; [discriminate|].
  destruct (batch_delete_removes_requested TableStore.t getAll del table
              [31; 99; 33; 31] TableStore_delete_present TableStore_delete_absent
              H1 ltac:(discriminate))
    as (body & table' & Hr & Hs & Hc & _ & He).
  unfold getAll, TableStore.getAllSandwichCollections in Hs, Hc. subst table'.
  exists body. split; [exact Hr|].
  assert (Hd : Batch.deletedCount body = 2%nat) by (simpl in Hc; lia).
  split; [exact Hd|]. intros E. apply He in E. rewrite Hd in E. discriminate.
Defined.

(** ** A null host name *)

(** X7: a row with a [null] host name makes the analysis, the
    suspicious mode and the bulk delete answer 500 before any delete call:
    the store is left as it was.  The exact mode, which calls no method of
    the host name, still runs. *)
Theorem null_host_fails_before_deleting :
  forall (Store : Type) (getAll : Store -> list CollectionRecord)
         (del : Z -> Store -> DeleteResult * Store) (store : Store)
         (c : CollectionRecord),
  In c (getAll store) ->
  hostName c = None ->
  analyzeDuplicates (getAll store) = Failed 500 "Failed to analyze duplicates" /\
  cleanDuplicates getAll del (Some "suspicious") store =
    (Failed 500 "Failed to clean duplicate entries", store) /\
  bulkDelete getAll del store =
    (Failed 500 "Failed to delete duplicate entries", store) /\
  exists body store',
    cleanDuplicates getAll del None store = (Ok body, store') /\
    Cleaned.mode body = "exact"%string /\
    Cleaned.totalFound body = List.length (exactCandidates (getAll store)).
Proof.
  intros Store getAll del store c Hin Hnull.
  split; [now apply (analyzeDuplicates_null_host _ c)|].
  split.
  { unfold cleanDuplicates, candidatesFor. simpl.
    now rewrite (filterThrowing_null suspiciousHostBroad _ c Hin Hnull). }
  split.
  { unfold bulkDelete.
    now rewrite (filterThrowing_null bulkHost _ c Hin Hnull). }
  eexists. eexists.
  rewrite (cleanDuplicates_run getAll del None store (exactCandidates (getAll store))
             eq_refl).
  repeat split.
Qed.

Lemma null_host_fails_before_deleting_witness :
  let table := [Sample.ogProject; Sample.earlyNull; Sample.locA] in
  let getAll := TableStore.getAllSandwichCollections in
  let del := TableStore.deleteSandwichCollection in
  In Sample.earlyNull (getAll table) /\
  hostName Sample.earlyNull = None /\
  bulkDelete getAll del table =
    (Failed 500 "Failed to delete duplicate entries", table).
Proof.
  intros table getAll del.
  assert (H1 : In Sample.earlyNull (getAll table)) by (simpl; tauto).
  split; [exact H1|]. split; [reflexivity|].
  apply (null_host_fails_before_deleting TableStore.t getAll del table
           Sample.earlyNull H1 eq_refl).
Defined.

(** ** Batch edit *)

Section EditFacts.
Context {Store Value : Type}.
Variable update : Z -> list (string * Value) -> Store -> UpdateResult * Store.

Lemma updateAll_length : forall ids updates store,
  List.length (fst (updateAll update ids updates store)) = List.length ids.
Proof.
  induction ids as [|i ids IH]; intros updates store; simpl; [reflexivity|].
  destruct (update i updates store) as [r s1]. specialize (IH updates s1).
  destruct (updateAll update ids updates s1) as [rs s2]. simpl in *. now rewrite IH.
Qed.

Lemma editLoop_run : forall ids updates n errs store,
  editLoop update ids updates n errs store =
  ((n + List.length (filter wasUpdated (fst (updateAll update ids updates store))))%nat,
   errs ++ editMessages ids (fst (updateAll update ids updates store)),
   snd (updateAll update ids updates store)).
Proof.
  induction ids as [|i ids IH]; intros updates n errs store; simpl.
  - now rewrite Nat.add_0_r, app_nil_r.
  - destruct (update i updates store) as [r s1].
    destruct r as [row| |e]; rewrite IH;
      destruct (updateAll update ids updates s1) as [rs s2];
      unfold editMessages; simpl;
      rewrite <- ?app_assoc; simpl; f_equal; f_equal; lia.
Qed.
End EditFacts.

Lemma editMessages_length : forall ids results,
  List.length ids = List.length results ->
  (List.length (editMessages ids results) +
   List.length (filter wasUpdated results))%nat = List.length results.
Proof.
  unfold editMessages.
  induction ids as [|i ids IH]; intros [|r rs] Hlen; simpl in *; try discriminate;
    [reflexivity|].
  rewrite length_app. specialize (IH rs ltac:(lia)).
  destruct r as [row| |e]; simpl; lia.
Qed.

Lemma updateAll_scripted : forall (Value : Type) answer ids
                                  (updates : list (string * Value)) log,
  updateAll (ScriptedUpdates.updateSandwichCollection answer) ids updates log =
  (map answer ids, log ++ map (fun i => (i, map fst updates)) ids).
Proof.
  induction ids as [|i ids IH]; intros updates log; simpl.
  - now rewrite app_nil_r.
  - rewrite IH. now rewrite <- app_assoc.
Qed.

(** X8: batch-edit refuses a missing or empty list of ids, and after
    that missing or empty updates, without an update call.  Otherwise it
    passes the same updates to the store for every id, in the order of the
    request (it does not sort, unlike batch-delete), goes on after a row
    that is not found or a call that throws, and reports one message for
    each of those: the updated rows and the messages add up to the ids. *)
Theorem batch_edit_runs_in_request_order :
  forall (Store Value : Type)
         (update : Z -> list (string * Value) -> Store -> UpdateResult * Store)
         (store : Store) (ids : list Z) (updates : list (string * Value)),
  ids <> [] ->
  updates <> [] ->
  (let run := updateAll update ids updates store in
   let messages := editMessages ids (fst run) in
   exists body,
     batchEdit update (Some ids) (Some updates) store = (Ok body, snd run) /\
     List.length (fst run) = List.length ids /\
     Edited.updatedCount body = List.length (filter wasUpdated (fst run)) /\
     Edited.totalRequested body = List.length ids /\
     (List.length messages + Edited.updatedCount body)%nat = List.length ids /\
     Edited.errors body = surfacedErrors messages /\
     (forall shown, Edited.errors body = Some shown ->
                    shown = firstn 5 messages /\ (List.length shown <= 5)%nat)) /\
  (forall answer log,
     snd (batchEdit (ScriptedUpdates.updateSandwichCollection answer)
                    (Some ids) (Some updates) log) =
     log ++ map (fun i => (i, map fst updates)) ids) /\
  (forall bodyUpdates,
     batchEdit update None bodyUpdates store =
       (Failed 400 "Invalid or empty IDs array", store) /\
     batchEdit update (Some []) bodyUpdates store =
       (Failed 400 "Invalid or empty IDs array", store)) /\
  batchEdit update (Some ids) None store = (Failed 400 "No updates provided", store) /\
  batchEdit update (Some ids) (Some []) store = (Failed 400 "No updates provided", store).
Proof.
  intros Store Value update store ids updates Hids Hupd.
  assert (Hrun : forall (S : Type) (u : Z -> list (string * Value) -> S -> UpdateResult * S) s,
    batchEdit u (Some ids) (Some updates) s =
    (Ok {| Edited.message :=
             "Successfully updated " ++
             JS.natToString (List.length (filter wasUpdated (fst (updateAll u ids updates s)))) ++
             " of " ++ JS.natToString (List.length ids) ++ " collections";
           Edited.updatedCount :=
             List.length (filter wasUpdated (fst (updateAll u ids updates s)));
           Edited.totalRequested := List.length ids;
           Edited.errors := surfacedErrors (editMessages ids (fst (updateAll u ids updates s))) |},
     snd (updateAll u ids updates s))).
  { intros S u s. unfold batchEdit.
    destruct ids as [|i ids']; [congruence|].
    destruct updates as [|f fs]; [congruence|].
    rewrite editLoop_run. reflexivity. }
  split; [|split; [|split; [|split]]].
  - intros run messages. eexists. split; [apply Hrun|]. simpl.
    assert (Hlen : List.length (fst run) = List.length ids)
      by apply updateAll_length.
    split; [exact Hlen|]. split; [reflexivity|]. split; [reflexivity|].
    split.
    { rewrite <- Hlen. apply editMessages_length. now symmetry. }
    split; [reflexivity|].
    intros shown Hs. apply surfacedErrors_bound in Hs. tauto.
  - intros answer log. rewrite Hrun, updateAll_scripted. reflexivity.
  - intros bodyUpdates. split; reflexivity.
  - destruct ids; [congruence|reflexivity].
  - destruct ids; [congruence|reflexivity].
Qed.

Lemma batch_edit_runs_in_request_order_witness :
  let answer := fun i : Z =>
    if i =? 31 then Updated Sample.locA
    else if i =? 7 then NotUpdated
    else UpdateThrew (ErrorObject "timeout") in
  let update := @ScriptedUpdates.updateSandwichCollection string answer in
  [31; 99; 7] <> [] /\
  [("hostName", "Loc B")]%string <> [] /\
  exists body,
    batchEdit update (Some [31; 99; 7]) (Some [("hostName", "Loc B")]%string) [] =
      (Ok body, [(31, ["hostName"]); (99, ["hostName"]); (7, ["hostName"])]%string) /\
    Edited.updatedCount body = 1%nat /\
    Edited.errors body =
      Some ["Failed to update collection 99: timeout";
            "Collection with ID 7 not found"]%string.
Proof.
  intros answer update. split; [discriminate|]. split; [discriminate|].
  destruct (batch_edit_runs_in_request_order ScriptedUpdates.t string update []
              [31; 99; 7] [("hostName", "Loc B")]%string
              ltac:(discriminate) ltac:(discriminate))
    as [(body & Hr & _ & Hu & _ & _ & He & _) _].
  exists body. rewrite Hr, Hu, He. repeat split; reflexivity.
Defined.

(** ** [parseInt] *)

Lemma leadingDigits_positive : forall d acc,
  leadingDigits 10 decimalDigit (NilEmpty.string_of_uint d) (Some (Z.pos acc)) =
  Some (Z.pos (Pos.of_uint_acc d acc)).
Proof.
  induction d; intros acc; simpl; try reflexivity;
    change (decimalDigit _) with (Some 0) || change (decimalDigit _) with (Some 1)
    || change (decimalDigit _) with (Some 2) || change (decimalDigit _) with (Some 3)
    || change (decimalDigit _) with (Some 4) || change (decimalDigit _) with (Some 5)
    || change (decimalDigit _) with (Some 6) || change (decimalDigit _) with (Some 7)
    || change (decimalDigit _) with (Some 8) || change (decimalDigit _) with (Some 9);
    cbv iota beta;
    match goal with
    | |- leadingDigits _ _ _ (Some ?v) = _ =>
        match type of IHd with
        | forall a, _ = Some (Z.pos (Pos.of_uint_acc _ a)) =>
            first [ replace v with (Z.pos (Pos.mul 10 acc)) by lia
                  | replace v with (Z.pos (Pos.add 1 (Pos.mul 10 acc))) by lia
                  | replace v with (Z.pos (Pos.add 2 (Pos.mul 10 acc))) by lia
                  | replace v with (Z.pos (Pos.add 3 (Pos.mul 10 acc))) by lia
                  | replace v with (Z.pos (Pos.add 4 (Pos.mul 10 acc))) by lia
                  | replace v with (Z.pos (Pos.add 5 (Pos.mul 10 acc))) by lia
                  | replace v with (Z.pos (Pos.add 6 (Pos.mul 10 acc))) by lia
                  | replace v with (Z.pos (Pos.add 7 (Pos.mul 10 acc))) by lia
                  | replace v with (Z.pos (Pos.add 8 (Pos.mul 10 acc))) by lia
                  | replace v with (Z.pos (Pos.add 9 (Pos.mul 10 acc))) by lia ]
        end
    end;
    apply IHd.
Qed.

Lemma leadingDigits_zero : forall d,
  leadingDigits 10 decimalDigit (NilEmpty.string_of_uint d) (Some 0) =
  Some (Z.of_N (Pos.of_uint d)).
Proof.
  induction d; simpl; try reflexivity; try exact IHd;
    match goal with
    | |- leadingDigits _ _ _ (Some ?v) = _ =>
        let p := eval cbv in (Z.to_pos v) in
        change (Some v) with (Some (Z.pos p))
    end;
    apply leadingDigits_positive.
Qed.

Lemma leadingDigits_start : forall d,
  d <> Decimal.Nil ->
  leadingDigits 10 decimalDigit (NilEmpty.string_of_uint d) None =
  Some (Z.of_N (Pos.of_uint d)).
Proof.
  intros d Hd. destruct d; [congruence| | | | | | | | | |]; simpl;
    try (apply leadingDigits_zero);
    match goal with
    | |- leadingDigits _ _ _ (Some ?v) = _ =>
        let p := eval cbv in (Z.to_pos v) in
        change (Some v) with (Some (Z.pos p))
    end;
    apply leadingDigits_positive.
Qed.

Lemma digits_not_hex_prefixed : forall d,
  hexPrefixed (NilEmpty.string_of_uint d) = None.
Proof. destruct d as [|d|d|d|d|d|d|d|d|d|d]; try reflexivity; destruct d; reflexivity. Qed.

Lemma digits_head : forall d,
  d <> Decimal.Nil ->
  exists c rest,
    NilEmpty.string_of_uint d = String c rest /\
    JS.isWhiteSpace c = false /\ Ascii.eqb c "-" = false /\ Ascii.eqb c "+" = false.
Proof.
  intros d Hd. destruct d; [congruence| | | | | | | | | |]; simpl;
    eexists; eexists; repeat split.
Qed.

Lemma parseInt_digits : forall d,
  d <> Decimal.Nil ->
  parseInt (NilEmpty.string_of_uint d) = Some (Z.of_N (Pos.of_uint d)).
Proof.
  intros d Hd. destruct (digits_head d Hd) as (c & rest & E & Hw & Hm & Hp).
  unfold parseInt. rewrite E. simpl JS.trimStart. rewrite Hw, Hm, Hp.
  rewrite <- E, digits_not_hex_prefixed, (leadingDigits_start d Hd). simpl.
  f_equal. now destruct (Z.of_N (Pos.of_uint d)).
Qed.

(** The decimal form of an integer parses back to it. *)
Lemma parseInt_numberToString : forall n,
  parseInt (JS.numberToString n) = Some n.
Proof.
  intros [|p|p]; [reflexivity| |]; unfold JS.numberToString; simpl.
  - unfold NilZero.string_of_uint.
    pose proof (DecimalPos.Unsigned.to_uint_nonnil p) as Hn.
    assert (E : match Pos.to_uint p with
                | Decimal.Nil => "0"%string
                | _ => NilEmpty.string_of_uint (Pos.to_uint p)
                end = NilEmpty.string_of_uint (Pos.to_uint p))
      by (destruct (Pos.to_uint p); [congruence|reflexivity..]).
    rewrite E, (parseInt_digits _ Hn), DecimalPos.Unsigned.of_to. reflexivity.
  - unfold NilZero.string_of_uint.
    pose proof (DecimalPos.Unsigned.to_uint_nonnil p) as Hn.
    assert (Hd : leadingDigits 10 decimalDigit
                   (NilEmpty.string_of_uint (Pos.to_uint p)) None = Some (Z.pos p)).
    { rewrite (leadingDigits_start _ Hn), DecimalPos.Unsigned.of_to. reflexivity. }
    assert (E : match Pos.to_uint p with
                | Decimal.Nil => "0"%string
                | _ => NilEmpty.string_of_uint (Pos.to_uint p)
                end = NilEmpty.string_of_uint (Pos.to_uint p))
      by (destruct (Pos.to_uint p); [congruence|reflexivity..]).
    rewrite E. unfold parseInt. simpl.
    now rewrite digits_not_hex_prefixed, Hd.
Qed.

(** A string that starts with something other than white space, a sign
    or a digit is not a number. *)
Lemma parseInt_word : forall c rest,
  JS.isWhiteSpace c = false ->
  Ascii.eqb c "-" = false -> Ascii.eqb c "+" = false ->
  decimalDigit c = None ->
  parseInt (String c rest) = None.
Proof.
  intros c rest Hw Hm Hp Hd. unfold parseInt. simpl JS.trimStart.
  rewrite Hw, Hm, Hp.
  assert (Hh : hexPrefixed (String c rest) = None).
  { unfold hexPrefixed. destruct rest as [|b rest]; [reflexivity|].
    destruct (Ascii.eqb_spec c "0") as [->|]; [discriminate Hd|reflexivity]. }
  rewrite Hh. simpl. now rewrite Hd.
Qed.

(** ** The handlers of a single id and of a page *)

(** X9: the decimal form of an id in the path addresses that id, for
    the ids that a number holds exactly:
    [DELETE /api/sandwich-collections/<id>] passes the id to the store,
    answers 204 and invalidates the cache when the store deleted the row,
    404 when the store found none and 500 when it threw.  Whatever the
    path holds, the cache is invalidated exactly when the answer is 204,
    and the answer is 204 only if the path reads as a number; when that
    number is held exactly, it is the id the store deleted. *)
Theorem delete_by_decimal_id :
  forall (Store : Type) (del : Z -> Store -> DeleteResult * Store) (store : Store),
  (forall i,
     exactInteger i = true ->
     deleteCollection del (JS.numberToString i) store =
     match del i store with
     | (Returned true, store') => (NoContent, store', ["sandwich-collections"%string])
     | (Returned false, store') => (Refused 404 "Collection not found", store', [])
     | (Threw _, store') => (Refused 500 "Failed to delete collection", store', [])
     end) /\
  (forall param reply store' invalidated,
     deleteCollection del param store = (reply, store', invalidated) ->
     (invalidated <> [] <-> reply = NoContent) /\
     (reply = NoContent -> parseInt param <> None) /\
     (forall i, parseInt param = Some i -> exactInteger i = true ->
                reply = NoContent -> del i store = (Returned true, store'))).
Proof.
  intros Store del store. split.
  - intros i _. unfold deleteCollection. now rewrite parseInt_numberToString.
  - intros param reply store' inv H. unfold deleteCollection in H.
    destruct (parseInt param) as [i|].
    + destruct (del i store) as [[[|]|e] s1] eqn:Hdel; injection H as <- <- <-.
      * split; [split; [reflexivity|discriminate]|].
        split; [discriminate|]. intros j Hj _ _. now injection Hj as <-.
      * split; [split; [congruence|discriminate]|].
        split; [discriminate|]. intros j _ _ Hr. discriminate.
      * split; [split; [congruence|discriminate]|].
        split; [discriminate|]. intros j _ _ Hr. discriminate.
    + injection H as <- <- <-. split; [split; [congruence|discriminate]|].
      split; [discriminate|]. intros j Hj. discriminate.
Qed.

Lemma delete_by_decimal_id_witness :
  exactInteger 23 = true /\
  deleteCollection TableStore.deleteSandwichCollection "23" [Sample.twinA; Sample.twinB] =
    (NoContent, [Sample.twinB], ["sandwich-collections"%string]) /\
  TableStore.deleteSandwichCollection 23 [Sample.twinA; Sample.twinB] =
    (Returned true, [Sample.twinB]).
Proof.
  destruct (delete_by_decimal_id TableStore.t TableStore.deleteSandwichCollection
              [Sample.twinA; Sample.twinB]) as [Hid Hany].
  assert (Hrun : deleteCollection TableStore.deleteSandwichCollection "23"
                   [Sample.twinA; Sample.twinB] =
                 (NoContent, [Sample.twinB], ["sandwich-collections"%string])).
  { exact (Hid 23 eq_refl). }
  split; [reflexivity|]. split; [exact Hrun|].
  destruct (Hany _ _ _ _ Hrun) as (_ & _ & Hdel).
  exact (Hdel 23 eq_refl eq_refl eq_refl).
Defined.

(** X10: a path segment that starts with anything but white space, a
    sign or a digit is refused with 400 before the store is called. *)
Theorem delete_refuses_words :
  forall (Store : Type) (del : Z -> Store -> DeleteResult * Store) (store : Store)
         (c : ascii) (rest : string),
  JS.isWhiteSpace c = false ->
  c <> "-"%char -> c <> "+"%char ->
  JS.isDigit c = false ->
  parseInt (String c rest) = None /\
  deleteCollection del (String c rest) store =
    (Refused 400 "Invalid collection ID", store, []).
Proof.
  intros Store del store c rest Hw Hm Hp Hd.
  assert (H : parseInt (String c rest) = None).
  { apply parseInt_word; try assumption.
    - now apply Ascii.eqb_neq.
    - now apply Ascii.eqb_neq.
    - unfold decimalDigit. unfold JS.isDigit in Hd. now rewrite Hd. }
  split; [exact H|]. unfold deleteCollection. now rewrite H.
Qed.

Lemma delete_refuses_words_witness :
  let del := ScriptedStore.deleteSandwichCollection (fun _ => Returned true) in
  JS.isWhiteSpace "c" = false /\
  "c"%char <> "-"%char /\ "c"%char <> "+"%char /\
  JS.isDigit "c" = false /\
  deleteCollection del "clean-duplicates" [] =
    (Refused 400 "Invalid collection ID", [], []).
Proof.
  intros del. split; [reflexivity|]. split; [discriminate|]. split; [discriminate|].
  split; [reflexivity|].
  apply (delete_refuses_words ScriptedStore.t del [] "c" "lean-duplicates");
    try reflexivity; discriminate.
Defined.

Lemma parseIntOr_nonzero : forall fallback s, fallback <> 0 -> parseIntOr fallback s <> 0.
Proof.
  intros fallback s Hf. unfold parseIntOr.
  destruct (parseInt s) as [[|p|p]|]; try assumption; discriminate.
Qed.

Lemma ceilOfQuotient_bounds : forall a b,
  0 < b -> b * (ceilOfQuotient a b - 1) < a <= b * ceilOfQuotient a b.
Proof.
  intros a b Hb. unfold ceilOfQuotient.
  pose proof (Z.div_mod (- a) b ltac:(lia)) as Hdiv.
  pose proof (Z.mod_pos_bound (- a) b Hb) as Hmod. nia.
Qed.

(** X11: the page handler reads [page] and [limit] with [parseInt]: a
    value that reads as a number other than zero is taken as it is, and a
    value that is missing, unreadable or zero gives way to 1 for the page
    and to 50 for the limit, so the handler never divides by zero.  It
    asks the store for [limit] rows from offset [(page - 1) * limit].
    With a positive limit, [totalPages] is the least number of pages that
    holds [total] rows, and [hasNext] tells whether rows lie beyond the
    page.  This is stated for requests whose page, limit, offset and total
    are integers that a number holds exactly. *)
Theorem pagination_window :
  forall (Store : Type) (getPage : Z -> Z -> Store -> list CollectionRecord)
         (getCount : Store -> Z) (store : Store) (queryPage queryLimit : option string),
  let p := listCollections getPage getCount queryPage queryLimit store in
  exactInteger (Page.page p * Page.limit p) = true ->
  exactInteger ((Page.page p - 1) * Page.limit p) = true ->
  exactInteger (getCount store) = true ->
  (forall n, parseInt (queryString queryPage) = Some n -> n <> 0 -> Page.page p = n) /\
  (parseInt (queryString queryPage) = Some 0 -> Page.page p = 1) /\
  (parseInt (queryString queryPage) = None -> Page.page p = 1) /\
  (forall n, parseInt (queryString queryLimit) = Some n -> n <> 0 -> Page.limit p = n) /\
  (parseInt (queryString queryLimit) = Some 0 -> Page.limit p = 50) /\
  (parseInt (queryString queryLimit) = None -> Page.limit p = 50) /\
  (queryPage = None -> Page.page p = 1) /\
  (queryLimit = None -> Page.limit p = 50) /\
  Page.limit p <> 0 /\
  Page.page p <> 0 /\
  Page.collections p =
    getPage (Page.limit p) ((Page.page p - 1) * Page.limit p) store /\
  Page.total p = getCount store /\
  (Page.hasPrev p = true <-> 1 < Page.page p) /\
  (0 < Page.limit p ->
   Page.limit p * (Page.totalPages p - 1) < Page.total p <=
   Page.limit p * Page.totalPages p) /\
  (0 < Page.limit p ->
   (Page.hasNext p = true <-> Page.page p * Page.limit p < Page.total p)).
Proof.
  intros Store getPage getCount store queryPage queryLimit p _ _ _.
  unfold p, listCollections. simpl.
  assert (Hread : forall fallback q n,
            parseInt q = Some n -> n <> 0 -> parseIntOr fallback q = n).
  { intros fallback q n Hq Hn. unfold parseIntOr. rewrite Hq.
    destruct n; [congruence|reflexivity|reflexivity]. }
  assert (Hzero : forall fallback q,
            parseInt q = Some 0 -> parseIntOr fallback q = fallback).
  { intros fallback q Hq. unfold parseIntOr. now rewrite Hq. }
  assert (Hnan : forall fallback q,
            parseInt q = None -> parseIntOr fallback q = fallback).
  { intros fallback q Hq. unfold parseIntOr. now rewrite Hq. }
  split; [apply Hread|]. split; [apply Hzero|]. split; [apply Hnan|].
  split; [apply Hread|]. split; [apply Hzero|]. split; [apply Hnan|].
  split; [intros ->; reflexivity|]. split; [intros ->; reflexivity|].
  split; [apply parseIntOr_nonzero; discriminate|].
  split; [apply parseIntOr_nonzero; discriminate|].
  split; [reflexivity|]. split; [reflexivity|].
  split; [apply Z.ltb_lt|].
  split; [intros Hl; now apply ceilOfQuotient_bounds|].
  intros Hl. rewrite Z.ltb_lt.
  pose proof (ceilOfQuotient_bounds (getCount store)
                (parseIntOr 50 (queryString queryLimit)) Hl) as Hc.
  split; intros H; nia.
Qed.

(** The second page of two rows out of three; a limit of zero and a page
    that is a word give way to the defaults. *)
Lemma pagination_window_witness :
  let getPage := fun (limit offset : Z) (table : list CollectionRecord) =>
                   firstn (Z.to_nat limit) (skipn (Z.to_nat offset) table) in
  let getCount := fun table : list CollectionRecord => Z.of_nat (List.length table) in
  let table := [Sample.west1; Sample.west2; Sample.west3] in
  let p := listCollections getPage getCount (Some "2"%string) (Some "2"%string) table in
  let q := listCollections getPage getCount (Some "first"%string) (Some "0"%string)
                           table in
  Page.page p = 2 /\
  Page.limit p = 2 /\
  Page.limit p * (Page.totalPages p - 1) < Page.total p <=
    Page.limit p * Page.totalPages p /\
  (Page.hasNext p = true <-> Page.page p * Page.limit p < Page.total p) /\
  Page.collections p = [Sample.west3] /\
  Page.page q = 1 /\
  Page.limit q = 50.
Proof.
  intros getPage getCount table p q.
  pose proof (pagination_window _ getPage getCount table
                (Some "2"%string) (Some "2"%string)
                eq_refl eq_refl eq_refl) as H.
  pose proof (pagination_window _ getPage getCount table
                (Some "first"%string) (Some "0"%string)
                eq_refl eq_refl eq_refl) as H0.
  cbv zeta in H, H0. fold table in H, H0. fold p in H. fold q in H0.
  destruct H as (Hpage & _ & _ & Hlimit & _ & _ & _ & _ & _ & _ & _ & _ & _ &
                 Hpages & Hnext).
  destruct H0 as (_ & _ & Hword & _ & Hzero & _).
  assert (Hl : 0 < Page.limit p) by reflexivity.
  split; [apply Hpage; [reflexivity|discriminate]|].
  split; [apply Hlimit; [reflexivity|discriminate]|].
  split; [exact (Hpages Hl)|]. split; [exact (Hnext Hl)|].
  split; [reflexivity|].
  split; [apply Hword; reflexivity|apply Hzero; reflexivity].
Defined.

(** ** Statistics by host *)

Lemma sameName_eq : forall a b, sameName a b = true <-> a = b.
Proof.
  intros [x|] [y|]; simpl; split; intros H; try discriminate; try reflexivity.
  - apply String.eqb_eq in H. now subst.
  - injection H as ->. apply String.eqb_refl.
Qed.

Lemma sameName_refl : forall a, sameName a a = true.
Proof. intros a. now apply sameName_eq. Qed.

Lemma countGet_countPush : forall h x m,
  countGet h (countPush x m) =
  (countGet h m + if sameName h x then 1 else 0)%nat.
Proof.
  intros h x m. induction m as [|[k n] m IH]; simpl.
  - destruct (sameName h x); reflexivity.
  - destruct (sameName x k) eqn:Exk; simpl.
    + apply sameName_eq in Exk. subst k.
      destruct (sameName h x); lia.
    + destruct (sameName h k) eqn:Ehk; [|exact IH].
      apply sameName_eq in Ehk. subst k.
      destruct (sameName h x) eqn:Ehx; [|lia].
      apply sameName_eq in Ehx. subst x. rewrite sameName_refl in Exk. discriminate.
Qed.

Lemma countHosts_snoc : forall cs c,
  countHosts (cs ++ [c]) = countPush (hostName c) (countHosts cs).
Proof. intros cs c. unfold countHosts. now rewrite fold_left_app. Qed.

(** The count stored for a name is the number of rows with that name. *)
Lemma countGet_countHosts : forall cs h,
  countGet h (countHosts cs) =
  List.length (filter (fun c => sameName h (hostName c)) cs).
Proof.
  induction cs as [|c cs IH] using rev_ind; intros h; [reflexivity|].
  rewrite countHosts_snoc, countGet_countPush, IH, filter_app, length_app. simpl.
  destruct (sameName h (hostName c)); reflexivity.
Qed.

Lemma countPush_keys : forall x m h,
  In h (map fst (countPush x m)) <-> h = x \/ In h (map fst m).
Proof.
  intros x m h. induction m as [|[k n] m IH]; simpl; [intuition|].
  destruct (sameName x k) eqn:E; simpl.
  - apply sameName_eq in E. subst k. intuition.
  - rewrite IH. intuition.
Qed.

Lemma countPush_NoDup : forall x m,
  NoDup (map fst m) -> NoDup (map fst (countPush x m)).
Proof.
  intros x m. induction m as [|[k n] m IH]; intros Hnd; simpl.
  - repeat constructor. intros [].
  - inversion Hnd as [|? ? Hnotin Hnd']; subst.
    destruct (sameName x k) eqn:E; simpl; [now constructor|].
    constructor; [|now apply IH].
    rewrite countPush_keys. intros [->|H]; [|contradiction].
    rewrite sameName_refl in E. discriminate.
Qed.

Lemma countPush_positive : forall x m,
  Forall (fun e => (0 < snd e)%nat) m ->
  Forall (fun e => (0 < snd e)%nat) (countPush x m).
Proof.
  intros x m H. induction H as [|[k n] m Hk Hm IH]; simpl.
  - repeat constructor.
  - destruct (sameName x k); constructor; simpl in *; try lia; assumption.
Qed.

Lemma countHosts_invariant : forall cs,
  NoDup (map fst (countHosts cs)) /\
  Forall (fun e => (0 < snd e)%nat) (countHosts cs) /\
  (forall h, In h (map fst (countHosts cs)) <-> In h (map hostName cs)).
Proof.
  induction cs as [|c cs (IH1 & IH2 & IH3)] using rev_ind.
  - split; [constructor|]. split; [constructor|]. intros h. reflexivity.
  - rewrite countHosts_snoc. split; [now apply countPush_NoDup|].
    split; [now apply countPush_positive|].
    intros h. rewrite countPush_keys, IH3, map_app, in_app_iff. simpl. intuition.
Qed.

Lemma countGet_In : forall h n m,
  NoDup (map fst m) -> In (h, n) m -> countGet h m = n.
Proof.
  induction m as [|[k n'] m IH]; intros Hnd Hin; [contradiction|].
  simpl in *. inversion Hnd as [|? ? Hnotin Hnd']; subst.
  destruct Hin as [E|Hin].
  - injection E as -> ->. now rewrite sameName_refl.
  - destruct (sameName h k) eqn:E; [|now apply IH].
    apply sameName_eq in E. subst k. exfalso. apply Hnotin.
    apply in_map_iff. now exists (h, n).
Qed.

Lemma mappedHost_present : forall hosts name,
  mappedHost hosts (Some name) = Some (countsAsMapped hosts (Some name)).
Proof.
  intros hosts name. unfold countsAsMapped, mappedHost.
  destruct (setHas hosts (Some name)); reflexivity.
Qed.

Lemma mappingEntries_present : forall hosts m,
  (forall e, In e m -> fst e <> None) ->
  mappingEntries hosts m =
  Some (map (fun e => {| mappingHost := fst e; mappingCount := snd e;
                         mapped := countsAsMapped hosts (fst e) |}) m).
Proof.
  induction m as [|[h n] m IH]; intros Hp; simpl; [reflexivity|].
  destruct h as [name|]; [|exfalso; now apply (Hp (None, n)); [left|]].
  rewrite mappedHost_present, IH; [reflexivity|].
  intros e He. apply Hp. now right.
Qed.

Lemma countMapped_present : forall hosts cs a b,
  hostsPresent cs ->
  countMapped hosts cs a b =
  Some ((a + List.length (filter (fun c => countsAsMapped hosts (hostName c)) cs))%nat,
        (b + List.length (filter (fun c => negb (countsAsMapped hosts (hostName c))) cs))%nat).
Proof.
  unfold hostsPresent.
  induction cs as [|c cs IH]; intros a b Hp; simpl.
  - now rewrite !Nat.add_0_r.
  - destruct (hostName c) as [name|] eqn:Hn;
      [|exfalso; now apply (Hp c); [left|]].
    rewrite mappedHost_present.
    destruct (countsAsMapped hosts (Some name)); simpl;
      rewrite IH by (intros; apply Hp; now right); f_equal; f_equal; lia.
Qed.

Lemma list_sum_perm : forall l l', Permutation l l' -> list_sum l = list_sum l'.
Proof.
  intros l l' H. induction H; simpl; lia.
Qed.

Lemma mapped_sum_countPush : forall (good : option string -> bool) x m,
  list_sum (map (fun e => if good (fst e) then snd e else 0%nat) (countPush x m)) =
  (list_sum (map (fun e => if good (fst e) then snd e else 0%nat) m) +
   if good x then 1 else 0)%nat.
Proof.
  intros good x m. induction m as [|[k n] m IH]; simpl.
  - destruct (good x); reflexivity.
  - destruct (sameName x k) eqn:E; simpl.
    + apply sameName_eq in E. subst k. destruct (good x); lia.
    + rewrite IH. lia.
Qed.

Lemma mapped_sum_countHosts : forall (good : option string -> bool) cs,
  list_sum (map (fun e => if good (fst e) then snd e else 0%nat) (countHosts cs)) =
  List.length (filter (fun c => good (hostName c)) cs).
Proof.
  intros good. induction cs as [|c cs IH] using rev_ind; [reflexivity|].
  rewrite countHosts_snoc, mapped_sum_countPush, IH, filter_app, length_app. simpl.
  destruct (good (hostName c)); reflexivity.
Qed.

Lemma mapped_sum_entries : forall (good : option string -> bool) (keep : bool) m,
  list_sum
    (map mappingCount
         (filter (fun e => Bool.eqb (mapped e) keep)
                 (map (fun e => {| mappingHost := fst e; mappingCount := snd e;
                                   mapped := good (fst e) |}) m))) =
  list_sum (map (fun e => if Bool.eqb (good (fst e)) keep then snd e else 0%nat) m).
Proof.
  intros good keep m. induction m as [|[k n] m IH]; simpl; [reflexivity|].
  destruct (Bool.eqb (good k) keep); simpl; now rewrite IH.
Qed.

Lemma sorted_weaken : forall (A : Type) (R R' : A -> A -> Prop) l,
  (forall a b, R a b -> R' a b) -> StronglySorted R l -> StronglySorted R' l.
Proof.
  intros A R R' l HR H. induction H as [|x l Hl IH Hx]; constructor; [exact IH|].
  rewrite Forall_forall in *. intros y Hy. apply HR. now apply Hx.
Qed.

Lemma mapping_of_snapshot : forall cs hosts,
  hostsPresent cs ->
  hostMappingStats cs hosts =
  Ok (JS.sort byCountDesc
        (map (fun e => {| mappingHost := fst e; mappingCount := snd e;
                          mapped := countsAsMapped hosts (fst e) |})
             (countHosts cs))).
Proof.
  intros cs hosts Hp. unfold hostMappingStats.
  rewrite mappingEntries_present; [reflexivity|].
  intros [h n] He. simpl. intros ->.
  destruct (countHosts_invariant cs) as (_ & _ & Hk).
  assert (Hin : In None (map hostName cs)).
  { apply Hk. apply in_map_iff. now exists (None, n). }
  apply in_map_iff in Hin as (c & Hc & Hin). now apply (Hp c).
Qed.

(** X12: the host mapping statistics hold one entry per host name of
    the snapshot; its count is the number of rows with that name and is
    positive; the counts add up to the rows of the snapshot; the entries
    come in descending order of count. *)
Theorem host_mapping_counts :
  forall (cs : list CollectionRecord) (hosts : list (option string)),
  hostsPresent cs ->
  exists stats,
    hostMappingStats cs hosts = Ok stats /\
    NoDup (map mappingHost stats) /\
    (forall e, In e stats ->
       mappingCount e =
         List.length (filter (fun c => sameName (mappingHost e) (hostName c)) cs) /\
       (0 < mappingCount e)%nat /\
       mappedHost hosts (mappingHost e) = Some (mapped e)) /\
    (forall c, In c cs -> In (hostName c) (map mappingHost stats)) /\
    list_sum (map mappingCount stats) = List.length cs /\
    StronglySorted (fun a b => (mappingCount b <= mappingCount a)%nat) stats.
Proof.
  intros cs hosts Hp. rewrite (mapping_of_snapshot cs hosts Hp).
  set (mk := fun e : option string * nat =>
               {| mappingHost := fst e; mappingCount := snd e;
                  mapped := countsAsMapped hosts (fst e) |}).
  set (entries := map mk (countHosts cs)).
  destruct (countHosts_invariant cs) as (Hnd & Hpos & Hkeys).
  assert (Hperm : Permutation entries (JS.sort byCountDesc entries)) by apply sort_perm.
  assert (Hhosts : map mappingHost entries = map fst (countHosts cs)).
  { unfold entries. rewrite map_map. reflexivity. }
  eexists. split; [reflexivity|]. split; [|split; [|split; [|split]]].
  - eapply Permutation_NoDup; [apply Permutation_map, Hperm|]. now rewrite Hhosts.
  - intros e He. apply (Permutation_in e (Permutation_sym Hperm)) in He.
    unfold entries in He. apply in_map_iff in He as ([h n] & <- & Hin). simpl.
    split; [|split].
    + rewrite <- countGet_countHosts. symmetry. now apply countGet_In.
    + rewrite Forall_forall in Hpos. exact (Hpos (h, n) Hin).
    + destruct h as [name|]; [apply mappedHost_present|].
      exfalso.
      assert (Hn : In None (map hostName cs)).
      { apply Hkeys. apply in_map_iff. now exists (None, n). }
      apply in_map_iff in Hn as (c & Hc & Hn). now apply (Hp c).
  - intros c Hc. apply (Permutation_in _ (Permutation_map mappingHost Hperm)).
    rewrite Hhosts. apply Hkeys. now apply in_map.
  - rewrite <- (list_sum_perm _ _ (Permutation_map mappingCount Hperm)).
    unfold entries. rewrite map_map. simpl.
    rewrite (mapped_sum_countHosts (fun _ => true) cs).
    now rewrite filter_all.
  - pose proof (sort_descending byCountDesc (fun e => Z.of_nat (mappingCount e)) entries)
      as Hs.
    assert (Hs' : StronglySorted
                    (fun a b => Z.of_nat (mappingCount b) <= Z.of_nat (mappingCount a))
                    (JS.sort byCountDesc entries))
      by (apply Hs; intros; reflexivity).
    apply (sorted_weaken _ _ _ _ (fun a b (H : Z.of_nat (mappingCount b) <=
                                                Z.of_nat (mappingCount a)) =>
                                    proj2 (Nat2Z.inj_le _ _) H) Hs').
Qed.

Lemma host_mapping_counts_witness :
  let cs := [Sample.locA; Sample.twinA; Sample.west1; Sample.twinB; Sample.west2;
             Sample.west3] in
  hostsPresent cs /\
  hostMappingStats cs [Some "East"%string] =
  Ok [{| mappingHost := Some "West"%string; mappingCount := 3; mapped := false |};
      {| mappingHost := Some "East"%string; mappingCount := 2; mapped := true |};
      {| mappingHost := Some "Loc A"%string; mappingCount := 1; mapped := false |}].
Proof.
  intros cs.
  assert (Hp : hostsPresent cs).
  { intros c Hin. simpl in Hin.
    decompose [or] Hin; subst; try discriminate; contradiction. }
  split; [exact Hp|].
  destruct (host_mapping_counts cs [Some "East"%string] Hp) as (stats & Hs & _).
  rewrite Hs. f_equal. vm_compute in Hs. now injection Hs.
Defined.

(** X13: the two statistics agree on a snapshot whose host names are
    strings: the counts of the mapped entries of the host mapping add up
    to [mappedRecords] of collection-stats, those of the others to
    [unmappedRecords], and the two numbers add up to the rows of the
    snapshot, whatever total the store reported. *)
Theorem mapping_statistics_agree :
  forall (total : Z) (cs : list CollectionRecord) (hosts : list (option string)),
  hostsPresent cs ->
  exists stats body,
    hostMappingStats cs hosts = Ok stats /\
    collectionStats total cs hosts = Ok body /\
    Counts.totalRecords body = total /\
    Counts.mappedRecords body =
      List.length (filter (fun c => countsAsMapped hosts (hostName c)) cs) /\
    (Counts.mappedRecords body + Counts.unmappedRecords body)%nat = List.length cs /\
    list_sum (map mappingCount (filter mapped stats)) = Counts.mappedRecords body /\
    list_sum (map mappingCount (filter (fun e => negb (mapped e)) stats)) =
      Counts.unmappedRecords body.
Proof.
  intros total cs hosts Hp. rewrite (mapping_of_snapshot cs hosts Hp).
  unfold collectionStats. rewrite (countMapped_present hosts cs 0 0 Hp). simpl.
  set (mk := fun e : option string * nat =>
               {| mappingHost := fst e; mappingCount := snd e;
                  mapped := countsAsMapped hosts (fst e) |}).
  set (entries := map mk (countHosts cs)).
  assert (Hperm : Permutation entries (JS.sort byCountDesc entries)) by apply sort_perm.
  eexists. eexists. split; [reflexivity|]. split; [reflexivity|]. simpl.
  split; [reflexivity|]. split; [reflexivity|].
  split.
  { clear. induction cs as [|c cs IH]; simpl; [reflexivity|].
    destruct (countsAsMapped hosts (hostName c)); simpl; lia. }
  split.
  - rewrite <- (list_sum_perm _ _
                  (Permutation_map mappingCount (filter_perm _ mapped _ _ Hperm))).
    rewrite (filter_ext mapped (fun e => Bool.eqb (mapped e) true))
      by (intros e; now destruct (mapped e)).
    unfold entries, mk. rewrite mapped_sum_entries.
    rewrite (mapped_sum_countHosts (fun h => Bool.eqb (countsAsMapped hosts h) true) cs).
    f_equal;
      try (apply filter_ext; intros c; now destruct (countsAsMapped hosts (hostName c))).
  - rewrite <- (list_sum_perm _ _
                  (Permutation_map mappingCount
                     (filter_perm _ (fun e => negb (mapped e)) _ _ Hperm))).
    rewrite (filter_ext (fun e => negb (mapped e)) (fun e => Bool.eqb (mapped e) false))
      by (intros e; now destruct (mapped e)).
    unfold entries, mk. rewrite mapped_sum_entries.
    rewrite (mapped_sum_countHosts (fun h => Bool.eqb (countsAsMapped hosts h) false) cs).
    f_equal;
      try (apply filter_ext; intros c; now destruct (countsAsMapped hosts (hostName c))).
Qed.

Lemma mapping_statistics_agree_witness :
  let cs := [Sample.locA; Sample.twinA; Sample.group8; Sample.twinB; Sample.west2] in
  hostsPresent cs /\
  exists body,
    collectionStats 5 cs [Some "East"%string] = Ok body /\
    Counts.mappedRecords body = 3%nat /\
    Counts.unmappedRecords body = 2%nat.
Proof.
  intros cs.
  assert (Hp : hostsPresent cs).
  { intros c Hin. simpl in Hin.
    decompose [or] Hin; subst; try discriminate; contradiction. }
  split; [exact Hp|].
  destruct (mapping_statistics_agree 5 cs [Some "East"%string] Hp)
    as (stats & body & _ & Hb & _ & Hm & Hsum & _).
  exists body. split; [exact Hb|].
  assert (E : Counts.mappedRecords body = 3%nat) by (rewrite Hm; reflexivity).
  split; [exact E|]. rewrite E in Hsum. simpl in Hsum. lia.
Defined.

(** ** White space and [parseInt] *)

Lemma trimEnd_head : forall c s,
  JS.isWhiteSpace c = false ->
  JS.trimEnd (String c s) = String c (JS.trimEnd s).
Proof.
  intros c s Hc. simpl. rewrite Hc. now destruct (JS.trimEnd s).
Qed.

Lemma trimEnd_shape : forall c s,
  JS.trimEnd (String c s) = EmptyString \/
  exists t, JS.trimEnd (String c s) = String c t.
Proof.
  intros c s. simpl. destruct (JS.trimEnd s) as [|a t].
  - destruct (JS.isWhiteSpace c); [now left|right; now exists EmptyString].
  - right. now exists (String a t).
Qed.


Lemma trimStart_shape : forall s,
  JS.trimStart s = EmptyString \/
  exists c t, JS.trimStart s = String c t /\ JS.isWhiteSpace c = false.
Proof.
  induction s as [|c s IH]; [now left|]. simpl.
  destruct (JS.isWhiteSpace c) eqn:Hc; [exact IH|]. right. now exists c, s.
Qed.

Lemma trimStart_head : forall c s,
  JS.isWhiteSpace c = false -> JS.trimStart (String c s) = String c s.
Proof. intros c s Hc. simpl. now rewrite Hc. Qed.


Lemma leadingDigits_trimEnd : forall radix digit,
  (forall c d, digit c = Some d -> JS.isWhiteSpace c = false) ->
  forall s acc,
  leadingDigits radix digit (JS.trimEnd s) acc = leadingDigits radix digit s acc.
Proof.
  intros radix digit Hd. induction s as [|c s IH]; intros acc; [reflexivity|].
  destruct (digit c) as [d|] eqn:E.
  - rewrite (trimEnd_head c s (Hd c d E)). simpl. rewrite E. apply IH.
  - destruct (trimEnd_shape c s) as [E'|(t & E')]; rewrite E'; simpl; now rewrite E.
Qed.

Lemma decimalDigit_not_space : forall c d,
  decimalDigit c = Some d -> JS.isWhiteSpace c = false.
Proof.
  intros c d. unfold decimalDigit, JS.isWhiteSpace.
  destruct ((48 <=? N_of_ascii c) && (N_of_ascii c <=? 57))%N eqn:E; [|discriminate].
  intros _. apply andb_true_iff in E as [E1 E2].
  apply N.leb_le in E1, E2.
  destruct (N.leb_spec 9 (N_of_ascii c)), (N.leb_spec (N_of_ascii c) 13),
    (N.eqb_spec (N_of_ascii c) 32), (N.eqb_spec (N_of_ascii c) 160);
    simpl; try reflexivity; lia.
Qed.

Lemma hexDigit_not_space : forall c d,
  hexDigit c = Some d -> JS.isWhiteSpace c = false.
Proof.
  intros c d. unfold hexDigit, JS.isWhiteSpace.
  destruct ((48 <=? N_of_ascii c) && (N_of_ascii c <=? 57))%N eqn:E1;
    [|destruct ((65 <=? N_of_ascii c) && (N_of_ascii c <=? 70))%N eqn:E2;
      [|destruct ((97 <=? N_of_ascii c) && (N_of_ascii c <=? 102))%N eqn:E3;
        [|discriminate]]];
    intros _;
    match goal with
    | H : (_ && _)%bool = true |- _ =>
        apply andb_true_iff in H as [Ha Hb]; apply N.leb_le in Ha, Hb
    end;
    destruct (N.leb_spec 9 (N_of_ascii c)), (N.leb_spec (N_of_ascii c) 13),
      (N.eqb_spec (N_of_ascii c) 32), (N.eqb_spec (N_of_ascii c) 160);
    simpl; try reflexivity; lia.
Qed.

Lemma hexPrefixed_trimEnd : forall s,
  hexPrefixed (JS.trimEnd s) = option_map JS.trimEnd (hexPrefixed s).
Proof.
  intros [|a [|b r]]; [reflexivity| |].
  - simpl. now destruct (JS.isWhiteSpace a).
  - unfold hexPrefixed at 2.
    destruct (Ascii.eqb a "0" && (Ascii.eqb b "x" || Ascii.eqb b "X")) eqn:E.
    + apply andb_true_iff in E as [Ea Eb]. apply Ascii.eqb_eq in Ea. subst a.
      assert (Hb : JS.isWhiteSpace b = false).
      { apply orb_true_iff in Eb as [Eb|Eb]; apply Ascii.eqb_eq in Eb; now subst b. }
      rewrite (trimEnd_head "0" _ eq_refl), (trimEnd_head b r Hb). simpl.
      apply orb_true_iff in Eb as [Eb|Eb]; apply Ascii.eqb_eq in Eb; now subst b.
    + simpl option_map.
      destruct (trimEnd_shape a (String b r)) as [E'|(t & E')]; rewrite E';
        [reflexivity|].
      destruct t as [|b' t']; [reflexivity|].
      assert (b' = b).
      { simpl in E'. destruct (trimEnd_shape b r) as [E2|(t2 & E2)].
        - simpl in E2. rewrite E2 in E'.
          destruct (JS.isWhiteSpace a); [discriminate|]. discriminate.
        - simpl in E2. rewrite E2 in E'. now injection E'. }
      subst b'. unfold hexPrefixed. now rewrite E.
Qed.

(** [parseInt] reads a string and its trimmed form alike. *)
Lemma parseInt_trim : forall s, parseInt (JS.trim s) = parseInt s.
Proof.
  intros s. unfold JS.trim.
  assert (Hgen : forall t,
             (t = EmptyString \/ exists c u, t = String c u /\ JS.isWhiteSpace c = false) ->
             parseInt (JS.trimEnd t) = parseInt t).
  { intros t [->|(c & u & -> & Hc)]; [reflexivity|].
    rewrite (trimEnd_head c u Hc). unfold parseInt.
    rewrite !(trimStart_head c _ Hc).
    assert (Hq : forall sign x,
      match hexPrefixed (JS.trimEnd x) with
      | Some rest => option_map (Z.mul sign) (leadingDigits 16 hexDigit rest None)
      | None => option_map (Z.mul sign) (leadingDigits 10 decimalDigit (JS.trimEnd x) None)
      end =
      match hexPrefixed x with
      | Some rest => option_map (Z.mul sign) (leadingDigits 16 hexDigit rest None)
      | None => option_map (Z.mul sign) (leadingDigits 10 decimalDigit x None)
      end).
    { intros sign x. rewrite hexPrefixed_trimEnd.
      destruct (hexPrefixed x) as [rest|]; simpl.
      - now rewrite (leadingDigits_trimEnd 16 hexDigit hexDigit_not_space).
      - now rewrite (leadingDigits_trimEnd 10 decimalDigit decimalDigit_not_space). }
    destruct (Ascii.eqb c "-"); [apply Hq|].
    destruct (Ascii.eqb c "+"); [apply Hq|].
    rewrite <- (trimEnd_head c u Hc). apply Hq. }
  rewrite (Hgen (JS.trimStart s)).
  - unfold parseInt.
    destruct (trimStart_shape s) as [E|(c & t & E & Hc)]; rewrite E; [reflexivity|].
    now rewrite (trimStart_head c t Hc).
  - destruct (trimStart_shape s) as [E|(c & t & E & Hc)]; [now left|].
    right. now exists c, t.
Qed.

(** ** The CSV import *)

Section ImportFacts.
Context {Store : Type}.
Variable now : nat -> Z.
Variable nowIso : nat -> string.
Variable dateTime : string -> option Z.
Variable dateIso : string -> string + string.
Variable csvParse : string -> list Row + string.
Variable create : InsertCollection -> Store -> CreateResult * Store.

Lemma importLoop_counts : forall records i s e errs store,
  match importLoop now dateTime create records i s e errs store with
  | (s', e', errs', _) =>
      (s' + e' = s + e + List.length records)%nat /\
      (List.length errs' + e = List.length errs + e')%nat /\
      (e <= e')%nat
  end.
Proof.
  induction records as [|r records IH]; intros i s e errs store; simpl.
  - lia.
  - destruct (readRecord now dateTime i r) as [d|msg].
    + destruct (create d store) as [[|err] s1].
      * specialize (IH (S i) (S s) e errs s1).
        destruct (importLoop now dateTime create records (S i) (S s) e errs s1)
          as [[[s' e'] errs'] st]. lia.
      * specialize (IH (S i) s (S e)
                       (errs ++ [("Row " ++ JS.natToString (i + 1) ++ ": " ++
                                  errorMessage err)%string]) s1).
        destruct (importLoop now dateTime create records (S i) s (S e) _ s1)
          as [[[s' e'] errs'] st]. rewrite length_app in IH. simpl in IH. lia.
    + specialize (IH (S i) s (S e)
                     (errs ++ [("Row " ++ JS.natToString (i + 1) ++ ": " ++ msg)%string])
                     store).
      destruct (importLoop now dateTime create records (S i) s (S e) _ store)
        as [[[s' e'] errs'] st]. rewrite length_app in IH. simpl in IH. lia.
Qed.

(** When no row is refused and the store never throws, every row is
    inserted. *)
Lemma importLoop_all_good : forall records i s e errs store,
  (forall r j, In r records -> exists d, readRecord now dateTime j r = inl d) ->
  (forall d st, exists st', create d st = (Created, st')) ->
  exists store',
    importLoop now dateTime create records i s e errs store =
    ((s + List.length records)%nat, e, errs, store').
Proof.
  induction records as [|r records IH]; intros i s e errs store Hread Hcreate; simpl.
  - exists store. now rewrite Nat.add_0_r.
  - destruct (Hread r i (or_introl eq_refl)) as [d Hd]. rewrite Hd.
    destruct (Hcreate d store) as [s1 Hs1]. rewrite Hs1.
    destruct (IH (S i) (S s) e errs s1 (fun r' j H => Hread r' j (or_intror H)) Hcreate)
      as [st Hst].
    exists st. rewrite Hst. f_equal. f_equal. f_equal. lia.
Qed.
End ImportFacts.

(** X14: the import accounts for every record of the file: the rows
    inserted and the rows in error add up to the records read, the reply
    shows the first ten messages at most and as many as there are errors
    below that, and without a file nothing is read. *)
Theorem import_accounts_for_every_row :
  forall (Store : Type) (now : nat -> Z) (nowIso : nat -> string)
         (dateTime : string -> option Z) (dateIso : string -> string + string)
         (csvParse : string -> list Row + string)
         (create : InsertCollection -> Store -> CreateResult * Store)
         (csvContent : string) (store store' : Store) (result : Imported.t),
  importCollections now nowIso dateTime dateIso csvParse create (Some csvContent) store =
    (ImportDone result, store') ->
  (exists records,
     readRecords nowIso dateIso csvParse csvContent = inl records /\
     Imported.totalRecords result = List.length records) /\
  (Imported.successCount result + Imported.errorCount result)%nat =
    Imported.totalRecords result /\
  List.length (Imported.errors result) = Nat.min 10 (Imported.errorCount result) /\
  importCollections now nowIso dateTime dateIso csvParse create None store =
    (NoFile, store).
Proof.
  intros Store now nowIso dateTime dateIso csvParse create csvContent store store'
         result H.
  unfold importCollections in H.
  destruct (readRecords nowIso dateIso csvParse csvContent) as [records|err] eqn:E;
    [|discriminate].
  pose proof (importLoop_counts now dateTime create records 0 0 0 [] store) as Hc.
  destruct (importLoop now dateTime create records 0 0 0 [] store)
    as [[[s e] errs] st].
  assert (Hr : result = {| Imported.totalRecords := List.length records;
                           Imported.successCount := s;
                           Imported.errorCount := e;
                           Imported.errors := firstn 10 errs |})
    by (unfold JS.slice0 in H; congruence).
  rewrite Hr.
  cbn [Imported.successCount Imported.errorCount Imported.totalRecords Imported.errors].
  split; [now exists records|]. split; [lia|]. split; [|reflexivity].
  rewrite length_firstn. simpl in Hc. lia.
Qed.

Lemma import_accounts_for_every_row_witness :
  let create := ScriptedInserts.createSandwichCollection (fun _ => Created) in
  exists result log,
    importCollections ImportSample.now ImportSample.nowIso ImportSample.dateTime
                      ImportSample.dateIso ImportSample.csvParse create
                      (Some ImportSample.standardFile) [] = (ImportDone result, log) /\
    Imported.totalRecords result = 3%nat /\
    Imported.successCount result = 1%nat /\
    Imported.errorCount result = 2%nat /\
    List.length (Imported.errors result) = 2%nat.
Proof.
  intros create.
  destruct (importCollections ImportSample.now ImportSample.nowIso ImportSample.dateTime
              ImportSample.dateIso ImportSample.csvParse create
              (Some ImportSample.standardFile) []) as [reply log] eqn:E.
  assert (Hreply : exists result, reply = ImportDone result /\
                                  Imported.totalRecords result = 3%nat /\
                                  Imported.successCount result = 1%nat).
  { vm_compute in E. injection E as <- <-. eexists. repeat split. }
  destruct Hreply as (result & -> & Ht & Hs).
  destruct (import_accounts_for_every_row _ _ _ _ _ _ _ _ _ _ _ E) as (_ & Hsum & Hlen & _).
  exists result, log. split; [reflexivity|]. split; [exact Ht|]. split; [exact Hs|].
  assert (He : Imported.errorCount result = 2%nat) by lia.
  split; [exact He|]. rewrite Hlen, He. reflexivity.
Defined.

(** ** What the import stores *)

Section StoredRows.
Variable now : nat -> Z.
Variable dateTime : string -> option Z.

End StoredRows.

Section StoredLog.
Variable now : nat -> Z.
Variable dateTime : string -> option Z.
Variable answer : InsertCollection -> CreateResult.

End StoredLog.




(** ** The weekly totals layout *)

Section WeeklyTotals.
Variable now : nat -> Z.
Variable nowIso : nat -> string.
Variable dateTime : string -> option Z.

(** A row built from a line of the weekly totals passes the checks of the
    loop, at whatever position it is read. *)
Lemma complexRecord_readable : forall i line record j,
  In record (complexRecord nowIso i line) ->
  exists data, readRecord now dateTime j record = inl data.
Proof.
  intros i line record j Hin. unfold complexRecord in Hin.
  destruct (String.eqb (JS.trim line) "" || negb (JS.includes (JS.trim line) "TRUE"));
    [destruct Hin|].
  destruct (nth_error (splitOn "," (JS.trim line)) 4) as [[|c part4]|]; try destruct Hin.
  remember (nth 0 (splitOn "," (JS.trim line)) EmptyString) as weekNum.
  remember (nth 3 (splitOn "," (JS.trim line)) EmptyString) as date.
  remember (dropQuotesAndCommas (String c part4)) as total.
  destruct date as [|d0 date]; [destruct Hin|].
  destruct total as [|t0 total]; [destruct Hin|].
  destruct (parseInt (String t0 total)) as [n|] eqn:Hn; [|destruct Hin].
  rewrite <- parseInt_trim in Hn.
  simpl in Hin. destruct Hin as [<-|[]].
  unfold readRecord. simpl. simpl in Hn. rewrite Hn.
  eexists. reflexivity.
Qed.

Lemma complexRecords_readable : forall lines i record j,
  In record (complexRecords nowIso lines i) ->
  exists data, readRecord now dateTime j record = inl data.
Proof.
  induction lines as [|line lines IH]; intros i record j Hin; simpl in Hin.
  - destruct Hin.
  - apply in_app_or in Hin as [Hin|Hin].
    + exact (complexRecord_readable i line record j Hin).
    + exact (IH (S i) record j Hin).
Qed.
End WeeklyTotals.

(** X16: a file in the weekly totals layout is imported without a row in
    error unless the store fails: every row the handler builds from its
    lines passes the checks of the loop, so with a store that accepts every
    insert the reply counts every record as a success and shows no message.
    The parser of the CSV library is not called for this layout. *)
Theorem weekly_totals_rows_all_imported :
  forall (Store : Type) (now : nat -> Z) (nowIso : nat -> string)
         (dateTime : string -> option Z) (dateIso : string -> string + string)
         (csvParse : string -> list Row + string)
         (create : InsertCollection -> Store -> CreateResult * Store)
         (csvContent : string) (store : Store),
  detectFormat (splitOn lineFeed csvContent) = Complex ->
  (forall data st, exists st', create data st = (Created, st')) ->
  exists result store',
    importCollections now nowIso dateTime dateIso csvParse create (Some csvContent) store =
      (ImportDone result, store') /\
    Imported.totalRecords result =
      List.length (parseComplex nowIso (splitOn lineFeed csvContent)) /\
    Imported.successCount result = Imported.totalRecords result /\
    Imported.errorCount result = 0%nat /\
    Imported.errors result = [] /\
    forall otherParse,
      importCollections now nowIso dateTime dateIso otherParse create (Some csvContent) store =
      importCollections now nowIso dateTime dateIso csvParse create (Some csvContent) store.
Proof.
  intros Store now nowIso dateTime dateIso csvParse create csvContent store Hfmt Hcreate.
  assert (Hread : forall parse,
            readRecords nowIso dateIso parse csvContent =
            inl (parseComplex nowIso (splitOn lineFeed csvContent))).
  { intros parse. unfold readRecords. cbv zeta. now rewrite Hfmt. }
  set (records := parseComplex nowIso (splitOn lineFeed csvContent)) in *.
  destruct (importLoop_all_good now dateTime create records 0 0 0 [] store)
    as (store' & Hloop).
  { intros r j Hin. unfold records, parseComplex in Hin.
    exact (complexRecords_readable now nowIso dateTime _ _ r j Hin). }
  { exact Hcreate. }
  eexists. exists store'.
  split.
  - unfold importCollections. rewrite Hread, Hloop. reflexivity.
  - simpl. split; [reflexivity|]. split; [reflexivity|]. split; [reflexivity|].
    split; [reflexivity|].
    intros otherParse. unfold importCollections. now rewrite !Hread.
Qed.

Lemma weekly_totals_rows_all_imported_witness :
  exists result log,
    importCollections ImportSample.now ImportSample.nowIso ImportSample.dateTime
                      ImportSample.dateIso ImportSample.csvParse
                      (ScriptedInserts.createSandwichCollection (fun _ => Created))
                      (Some ImportSample.weeklyTotals) [] = (ImportDone result, log) /\
    Imported.totalRecords result = 2%nat /\
    Imported.successCount result = 2%nat /\
    Imported.errorCount result = 0%nat.
Proof.
  destruct (weekly_totals_rows_all_imported
              ScriptedInserts.t ImportSample.now ImportSample.nowIso ImportSample.dateTime
              ImportSample.dateIso ImportSample.csvParse
              (ScriptedInserts.createSandwichCollection (fun _ => Created))
              ImportSample.weeklyTotals [])
    as (result & log & Hrun & Htotal & Hsuccess & Herror & _).
  - reflexivity.
  - intros data st. eexists. reflexivity.
  - exists result, log. split; [exact Hrun|].
    assert (Ht : Imported.totalRecords result = 2%nat) by (rewrite Htotal; reflexivity).
    split; [exact Ht|]. split; [now rewrite Hsuccess|exact Herror].
Defined.

(** ** The rows of one host *)





Lemma exact_candidates_count_witness :
  In Sample.twinB (exactCandidates [Sample.twinA; Sample.twinB; Sample.west1]) /\
  (2 <= List.length
          (filter (fun c' => String.eqb (duplicateKey c') (duplicateKey Sample.twinB))
                  [Sample.twinA; Sample.twinB; Sample.west1]))%nat.
Proof.
  assert (Hin : In Sample.twinB
                   (exactCandidates [Sample.twinA; Sample.twinB; Sample.west1])).
  { vm_compute. now left. }
  split; [exact Hin|].
  exact (proj2 (exact_candidates_count [Sample.twinA; Sample.twinB; Sample.west1])
               Sample.twinB Hin).
Defined.
